(** * TextCraft-AI: the document encryption subsystem

    A shallow embedding of the password/recovery-key encryption code of
    [durga.py], [AI.py] and [passward.py], and the properties of the
    specification checked against it.

    Conventions.
    - [bytes] is Python's [bytes]: a list of [Byte.byte].
    - A Python [str] is represented by a Rocq [string] holding its UTF-8
      encoding, so [str.encode()] is [list_byte_of_string] and
      [bytes.decode('utf-8')] is a validity check. A [str] that holds a
      lone surrogate has no UTF-8 encoding ([str.encode()] raises): the
      texts and passwords the programs encode are taken to hold none.
      Such a [str] can come out of [json.loads], from an escape; its
      surrogate is then held in three bytes, so that [len], [strip] and
      [json.dumps] see it.
    - Exceptions are values of [exn]; a computation that may raise and may
      draw randomness lives in the monad [M] over the [world].
    - The functions of the [cryptography] package are modelled from their
      documented behaviour over an abstract hash function and an abstract
      block cipher (the backend), which are Section variables. The backend
      also holds what the code gets from Qt and from the interpreter and
      what this development does not fix: how [QTextEdit.setText] reads a
      text, and the limits of [json.loads]. *)

From Stdlib Require Import List Bool Arith Lia NArith ZArith.
From Stdlib.Strings Require Import String Ascii Byte.
Import ListNotations.

Set Warnings "-register-all".

(** [len(x)] is the length of a list; the length of a [string] is written
    [String.length]. *)
Abbreviation length := List.length.

(* ================================================================== *)
(** * Bytes *)
(* ================================================================== *)

Definition bytes := list byte.

Definition encode (s : string) : bytes := list_byte_of_string s.

Definition bits8 := (bool * (bool * (bool * (bool * (bool * (bool * (bool * bool)))))))%type.

Definition xor_bits (a b : bits8) : bits8 :=
  let '(a0, (a1, (a2, (a3, (a4, (a5, (a6, a7))))))) := a in
  let '(b0, (b1, (b2, (b3, (b4, (b5, (b6, b7))))))) := b in
  (xorb a0 b0, (xorb a1 b1, (xorb a2 b2, (xorb a3 b3,
  (xorb a4 b4, (xorb a5 b5, (xorb a6 b6, xorb a7 b7))))))).

(** [a ^ b] on two bytes. *)
Definition byte_xor (a b : byte) : byte :=
  Byte.of_bits (xor_bits (Byte.to_bits a) (Byte.to_bits b)).

(** [bytes(x ^ y for x, y in zip(a, b))]. *)
Fixpoint xor_bytes (a b : bytes) : bytes :=
  match a, b with
  | x :: a', y :: b' => byte_xor x y :: xor_bytes a' b'
  | _, _ => []
  end.

Definition byte_of_nat (n : nat) : byte :=
  match Byte.of_nat (n mod 256) with Some b => b | None => x00 end.

Definition byte_eqb (a b : byte) : bool := Byte.eqb a b.

(** [needle in haystack] for byte strings. *)
Fixpoint is_prefix (p s : bytes) : bool :=
  match p, s with
  | [], _ => true
  | x :: p', y :: s' => byte_eqb x y && is_prefix p' s'
  | _ :: _, [] => false
  end.

Fixpoint occurs_in (needle hay : bytes) : bool :=
  is_prefix needle hay ||
  match hay with
  | [] => false
  | _ :: hay' => occurs_in needle hay'
  end.

(* ================================================================== *)
(** * Exceptions, results and the world *)
(* ================================================================== *)

(** The [ValueError]s the [cryptography] package and the standard library
    raise on the paths the application takes. *)
Inductive value_error :=
| InvalidKeySize          (* algorithms.AES(key): len(key) not in 16, 24, 32 *)
| InvalidIVSize           (* Cipher(..., mode): len(iv) * 8 != block_size *)
| NotBlockMultiple        (* finalize(): data not a multiple of the block length *)
| InvalidPaddingBytes     (* unpadder.finalize(): "Invalid padding bytes." *)
| NonAsciiString          (* base64.b64decode(s): a str with a non-ASCII character *)
| IntMaxStrDigits.        (* int(s): more digits than sys.get_int_max_str_digits() *)

Inductive exn :=
| ValueError (why : value_error)
| UnicodeDecodeError
| JSONDecodeError
| KeyError (key : string)
| TypeError
| AttributeError
| BinasciiError
| OverflowError
| RecursionError.

Inductive result (A : Type) :=
| Ok (a : A)
| Raise (e : exn).

Arguments Ok {A} a.
Arguments Raise {A} e.

Definition rbind {A B} (r : result A) (k : A -> result B) : result B :=
  match r with
  | Ok a => k a
  | Raise e => Raise e
  end.

(** What a call can observe besides its arguments: the operating system's
    entropy source behind [os.urandom] and [secrets], and the clock behind
    [time.time()] (the float is kept as its [repr]). *)
Record world := mkWorld {
  entropy : nat -> byte;
  clock : string
}.

Definition M (A : Type) := world -> result A * world.

Definition ret {A} (a : A) : M A := fun w => (Ok a, w).

Definition bind {A B} (m : M A) (k : A -> M B) : M B :=
  fun w =>
    match m w with
    | (Ok a, w') => k a w'
    | (Raise e, w') => (Raise e, w')
    end.

Definition lift {A} (r : result A) : M A := fun w => (r, w).

(** [try: body except Exception: handler]. *)
Definition try_except {A} (body : M A) (handler : exn -> M A) : M A :=
  fun w =>
    match body w with
    | (Ok a, w') => (Ok a, w')
    | (Raise e, w') => handler e w'
    end.

Declare Scope py_scope.
Delimit Scope py_scope with py.
Notation "x <- m ;; k" := (bind m (fun x => k))
  (at level 61, m at next level, right associativity) : py_scope.
Notation "' pat <- m ;; k" := (bind m (fun x => match x with pat => k end))
  (at level 61, pat pattern, m at next level, right associativity) : py_scope.
Notation "x <-r r ;; k" := (rbind r (fun x => k))
  (at level 61, r at next level, right associativity) : py_scope.
Notation "' pat <-r r ;; k" := (rbind r (fun x => match x with pat => k end))
  (at level 61, pat pattern, r at next level, right associativity) : py_scope.
Open Scope py_scope.

(** The next [n] bytes of the entropy source, and the world after they
    were drawn. *)
Definition draw (n : nat) (w : world) : bytes := map (entropy w) (seq 0 n).

Definition advance (n : nat) (w : world) : world :=
  mkWorld (fun i => entropy w (n + i)) (clock w).

(** [os.urandom(n)]. *)
Definition os_urandom (n : nat) : M bytes :=
  fun w => (Ok (draw n w), advance n w).

(** [time.time()], as the [repr] of the float. *)
Definition time_time : M string := fun w => (Ok (clock w), w).

(* ================================================================== *)
(** * The [cryptography] package over an abstract backend *)
(* ================================================================== *)

(** [default_backend()]: the hash function behind [hashes.SHA256()] and the
    block function behind [algorithms.AES(key)], encryption and decryption
    of one 16-byte block under a key. With them, what the code gets from
    Qt and from the interpreter:
    - [setText text]: what [toPlainText()] returns after
      [QTextEdit.setText(text)]. Qt guesses whether [text] is rich text,
      and reads it as HTML when it takes it for that;
    - [recursion_limit]: how many containers, one inside the other,
      [json.loads] can enter from a method of the window before the
      recursion limit of the interpreter is reached (with the limit of
      1000 that CPython starts with, somewhat below 1000). The files the
      programs write nest two containers, and a method runs a few calls
      above the event loop, so the limit is taken to leave two;
    - [int_max_str_digits]: the most digits [int] converts,
      [sys.get_int_max_str_digits()] (4300 when the interpreter starts;
      0 for no limit, as in the versions of CPython before the limit was
      introduced). *)
Record backend := mkBackend {
  SHA256 : bytes -> bytes;
  AES_encrypt_block : bytes -> bytes -> bytes;
  AES_decrypt_block : bytes -> bytes -> bytes;
  setText : string -> string;
  recursion_limit : nat;
  int_max_str_digits : nat;
  recursion_limit_ok : 2 <= recursion_limit
}.

Section Cryptography.

Variable be : backend.

(** ** PBKDF2HMAC (RFC 8018, section 5.2) *)

Definition sha256_block_size := 64.
Definition sha256_digest_size := 32.

(** HMAC (RFC 2104) with SHA-256. *)
Definition HMAC (key msg : bytes) : bytes :=
  let key0 := if sha256_block_size <? length key then SHA256 be key else key in
  let key1 := key0 ++ repeat x00 (sha256_block_size - length key0) in
  SHA256 be (map (byte_xor x5c) key1 ++ SHA256 be (map (byte_xor x36) key1 ++ msg)).

(** [i.to_bytes(4, 'big')] for [i < 2 ** 32]. *)
Definition int32_be (i : nat) : bytes :=
  [byte_of_nat (i / 256 / 256 / 256); byte_of_nat (i / 256 / 256);
   byte_of_nat (i / 256); byte_of_nat i].

(** One more round: [(U_j, T)] becomes [(U_{j+1}, T xor U_{j+1})]. *)
Definition pbkdf2_round (password : bytes) (ut : bytes * bytes) : bytes * bytes :=
  let u := HMAC password (fst ut) in (u, xor_bytes (snd ut) u).

(** [T_i = U_1 xor U_2 xor ... xor U_c]. *)
Definition pbkdf2_block (password salt : bytes) (c : N) (i : nat) : bytes :=
  let u1 := HMAC password (salt ++ int32_be i) in
  snd (N.iter (c - 1) (pbkdf2_round password) (u1, u1)).

Definition pbkdf2_hmac_sha256 (password salt : bytes) (c : N) (dkLen : nat) : bytes :=
  let l := (dkLen + sha256_digest_size - 1) / sha256_digest_size in
  firstn dkLen (flat_map (pbkdf2_block password salt c) (seq 1 l)).

(** The [PBKDF2HMAC] object; [algorithm] is always [hashes.SHA256()] here. *)
Record PBKDF2HMAC := mkPBKDF2HMAC {
  kdf_length : nat;
  kdf_salt : bytes;
  kdf_iterations : N
}.

(** [kdf.derive(key_material)] on a [kdf] that has not been used. *)
Definition derive (kdf : PBKDF2HMAC) (key_material : bytes) : bytes :=
  pbkdf2_hmac_sha256 key_material (kdf_salt kdf) (kdf_iterations kdf) (kdf_length kdf).

(** ** Ciphers *)

Inductive mode :=
| CFB (initialization_vector : bytes)
| CBC (initialization_vector : bytes).

Definition mode_iv (m : mode) : bytes :=
  match m with CFB iv => iv | CBC iv => iv end.

Record cipher := mkCipher {
  cipher_key : bytes;
  cipher_mode : mode
}.

Definition aes_block_len := 16.

(** [algorithms.AES(key)]: the key must have 128, 192 or 256 bits. *)
Definition algorithms_AES (key : bytes) : result bytes :=
  if (length key =? 16) || (length key =? 24) || (length key =? 32)
  then Ok key
  else Raise (ValueError InvalidKeySize).

(** [Cipher(algorithm, mode)]: the constructor has the mode validate the
    length of the IV against the block size. *)
Definition Cipher (algorithm : result bytes) (m : mode) : result cipher :=
  key <-r algorithm ;;
  if length (mode_iv m) =? aes_block_len
  then Ok (mkCipher key m)
  else Raise (ValueError InvalidIVSize).

(** CFB with full-block feedback, byte by byte as the backend runs it: [ks]
    is what is left of the current keystream block, [reg] collects the
    ciphertext bytes that are encrypted into the next keystream block. *)
Fixpoint cfb_stream (key : bytes) (decrypting : bool) (ks reg data : bytes) : bytes :=
  match data with
  | [] => []
  | x :: rest =>
      let ks1 := match ks with [] => AES_encrypt_block be key reg | _ => ks end in
      let reg1 := match ks with [] => [] | _ => reg end in
      let y := byte_xor x (hd x00 ks1) in
      let c := if decrypting then x else y in
      y :: cfb_stream key decrypting (tl ks1) (reg1 ++ [c]) rest
  end.

(** CBC over [n] blocks of 16 bytes, [prev] the previous ciphertext block. *)
Fixpoint cbc_encrypt_blocks (key : bytes) (n : nat) (prev data : bytes) : bytes :=
  match n with
  | 0 => []
  | S n' =>
      let c := AES_encrypt_block be key (xor_bytes (firstn aes_block_len data) prev) in
      c ++ cbc_encrypt_blocks key n' c (skipn aes_block_len data)
  end.

Fixpoint cbc_decrypt_blocks (key : bytes) (n : nat) (prev data : bytes) : bytes :=
  match n with
  | 0 => []
  | S n' =>
      let c := firstn aes_block_len data in
      xor_bytes (AES_decrypt_block be key c) prev
        ++ cbc_decrypt_blocks key n' c (skipn aes_block_len data)
  end.

(** [e = cipher.encryptor(); e.update(data) + e.finalize()]. In CBC mode
    [finalize] raises when the data was no whole number of blocks. *)
Definition encryptor_update_finalize (c : cipher) (data : bytes) : result bytes :=
  match cipher_mode c with
  | CFB iv => Ok (cfb_stream (cipher_key c) false [] iv data)
  | CBC iv =>
      if length data mod aes_block_len =? 0
      then Ok (cbc_encrypt_blocks (cipher_key c) (length data / aes_block_len) iv data)
      else Raise (ValueError NotBlockMultiple)
  end.

(** [d = cipher.decryptor(); d.update(data) + d.finalize()]. *)
Definition decryptor_update_finalize (c : cipher) (data : bytes) : result bytes :=
  match cipher_mode c with
  | CFB iv => Ok (cfb_stream (cipher_key c) true [] iv data)
  | CBC iv =>
      if length data mod aes_block_len =? 0
      then Ok (cbc_decrypt_blocks (cipher_key c) (length data / aes_block_len) iv data)
      else Raise (ValueError NotBlockMultiple)
  end.

(** ** PKCS7 padding contexts

    [padding.PKCS7(128).padder()] and [.unpadder()] return a fresh context
    with an empty buffer; [update] and [finalize] work on the buffer of the
    context they are called on. *)

Record padding_context := mkPaddingContext {
  pad_block_size : nat;      (* in bytes *)
  pad_buffer : bytes
}.

(** [padding.PKCS7(block_size)], [block_size] in bits. *)
Definition PKCS7 (block_size : nat) : nat := block_size / 8.

Definition padder (block_bytes : nat) : padding_context :=
  mkPaddingContext block_bytes [].

Definition unpadder (block_bytes : nat) : padding_context :=
  mkPaddingContext block_bytes [].

(** [padder.update(data)]: the whole blocks come out, the rest stays. *)
Definition padder_update (ctx : padding_context) (data : bytes)
  : bytes * padding_context :=
  let buf := pad_buffer ctx ++ data in
  let finished := length buf / pad_block_size ctx in
  (firstn (finished * pad_block_size ctx) buf,
   mkPaddingContext (pad_block_size ctx) (skipn (finished * pad_block_size ctx) buf)).

(** [padder.finalize()]: the buffer and [pad_size] bytes of value
    [pad_size = block size - len(buffer)]. *)
Definition padder_finalize (ctx : padding_context) : bytes :=
  let pad_size := pad_block_size ctx - length (pad_buffer ctx) in
  pad_buffer ctx ++ repeat (byte_of_nat pad_size) pad_size.

(** [unpadder.update(data)]: all whole blocks but the last come out. *)
Definition unpadder_update (ctx : padding_context) (data : bytes)
  : bytes * padding_context :=
  let buf := pad_buffer ctx ++ data in
  let finished := length buf / pad_block_size ctx - 1 in
  (firstn (finished * pad_block_size ctx) buf,
   mkPaddingContext (pad_block_size ctx) (skipn (finished * pad_block_size ctx) buf)).

(** The padding check of [unpadder.finalize()] on a full block: the last
    byte [pad_size] is in [1 .. block size] and the last [pad_size] bytes
    all equal it. *)
Definition check_pkcs7_padding (buf : bytes) : bool :=
  let pad_size := Byte.to_nat (last buf x00) in
  negb (pad_size =? 0) && (pad_size <=? length buf) &&
  forallb (byte_eqb (last buf x00)) (skipn (length buf - pad_size) buf).

(** [unpadder.finalize()]: the buffer must be exactly one block with valid
    padding, which is cut off. *)
Definition unpadder_finalize (ctx : padding_context) : result bytes :=
  let buf := pad_buffer ctx in
  if negb (length buf =? pad_block_size ctx) then Raise (ValueError InvalidPaddingBytes)
  else if negb (check_pkcs7_padding buf) then Raise (ValueError InvalidPaddingBytes)
  else Ok (firstn (length buf - Byte.to_nat (last buf x00)) buf).

End Cryptography.

(* ================================================================== *)
(** * The Python standard library: UTF-8, JSON, base64 *)
(* ================================================================== *)

(** ** UTF-8 *)

Definition byte_in (lo hi : N) (b : byte) : bool :=
  (lo <=? Byte.to_N b)%N && (Byte.to_N b <=? hi)%N.

Definition cont_bits (b : byte) : N := (Byte.to_N b - 128)%N.

(** The code points of a UTF-8 byte string as the strict decoder reads
    them (well-formed sequences of the Unicode standard, table 3-7), or
    [None] where [bytes.decode('utf-8')] raises. *)
Fixpoint utf8_code_points (s : bytes) : option (list N) :=
  match s with
  | [] => Some []
  | b0 :: r0 =>
      let n0 := Byte.to_N b0 in
      if (n0 <? 128)%N then option_map (cons n0) (utf8_code_points r0)
      else if (n0 <? 194)%N then None
      else if (n0 <? 224)%N then
        match r0 with
        | b1 :: r1 =>
            if byte_in 128 191 b1
            then option_map (cons ((n0 - 192) * 64 + cont_bits b1)%N)
                            (utf8_code_points r1)
            else None
        | _ => None
        end
      else if (n0 <? 240)%N then
        match r0 with
        | b1 :: b2 :: r2 =>
            let lo := if (n0 =? 224)%N then 160%N else 128%N in
            let hi := if (n0 =? 237)%N then 159%N else 191%N in
            if byte_in lo hi b1 && byte_in 128 191 b2
            then option_map
                   (cons ((n0 - 224) * 4096 + cont_bits b1 * 64 + cont_bits b2)%N)
                   (utf8_code_points r2)
            else None
        | _ => None
        end
      else if (n0 <? 245)%N then
        match r0 with
        | b1 :: b2 :: b3 :: r3 =>
            let lo := if (n0 =? 240)%N then 144%N else 128%N in
            let hi := if (n0 =? 244)%N then 143%N else 191%N in
            if byte_in lo hi b1 && byte_in 128 191 b2 && byte_in 128 191 b3
            then option_map
                   (cons ((n0 - 240) * 262144 + cont_bits b1 * 4096
                          + cont_bits b2 * 64 + cont_bits b3)%N)
                   (utf8_code_points r3)
            else None
        | _ => None
        end
      else None
  end.

Definition utf8_valid (s : bytes) : bool :=
  match utf8_code_points s with Some _ => true | None => false end.

(** [data.decode('utf-8')]. *)
Definition decode (data : bytes) : result string :=
  if utf8_valid data then Ok (string_of_list_byte data) else Raise UnicodeDecodeError.

Definition byte_of_N (n : N) : byte :=
  match Byte.of_N (n mod 256) with Some b => b | None => x00 end.

(** The code points of a [str] from the bytes that hold it: as the strict
    decoder reads them, and a surrogate from its three bytes. [None]: the
    bytes hold no [str]. *)
Fixpoint str_code_points (s : bytes) : option (list N) :=
  match s with
  | [] => Some []
  | b0 :: r0 =>
      let n0 := Byte.to_N b0 in
      if (n0 <? 128)%N then option_map (cons n0) (str_code_points r0)
      else if (n0 <? 194)%N then None
      else if (n0 <? 224)%N then
        match r0 with
        | b1 :: r1 =>
            if byte_in 128 191 b1
            then option_map (cons ((n0 - 192) * 64 + cont_bits b1)%N)
                            (str_code_points r1)
            else None
        | _ => None
        end
      else if (n0 <? 240)%N then
        match r0 with
        | b1 :: b2 :: r2 =>
            let lo := if (n0 =? 224)%N then 160%N else 128%N in
            if byte_in lo 191 b1 && byte_in 128 191 b2
            then option_map
                   (cons ((n0 - 224) * 4096 + cont_bits b1 * 64 + cont_bits b2)%N)
                   (str_code_points r2)
            else None
        | _ => None
        end
      else if (n0 <? 245)%N then
        match r0 with
        | b1 :: b2 :: b3 :: r3 =>
            let lo := if (n0 =? 240)%N then 144%N else 128%N in
            let hi := if (n0 =? 244)%N then 143%N else 191%N in
            if byte_in lo hi b1 && byte_in 128 191 b2 && byte_in 128 191 b3
            then option_map
                   (cons ((n0 - 240) * 262144 + cont_bits b1 * 4096
                          + cont_bits b2 * 64 + cont_bits b3)%N)
                   (str_code_points r3)
            else None
        | _ => None
        end
      else None
  end.

(** The code points of a [str]. *)
Definition code_points (s : string) : list N :=
  match str_code_points (encode s) with Some l => l | None => [] end.

(** The UTF-8 encoding of one code point (a lone surrogate, which only a
    JSON escape can name, keeps its three-byte form). *)
Definition utf8_of_code_point (cp : N) : bytes :=
  if (cp <? 128)%N then [byte_of_N cp]
  else if (cp <? 2048)%N then
    [byte_of_N (192 + cp / 64); byte_of_N (128 + cp mod 64)]
  else if (cp <? 65536)%N then
    [byte_of_N (224 + cp / 4096); byte_of_N (128 + cp / 64 mod 64);
     byte_of_N (128 + cp mod 64)]
  else
    [byte_of_N (240 + cp / 262144); byte_of_N (128 + cp / 4096 mod 64);
     byte_of_N (128 + cp / 64 mod 64); byte_of_N (128 + cp mod 64)].

(** ** JSON values *)

(** A Python value as [json] reads and writes it: [None], a [bool], a number
    (an [int] or a [float], kept as the text [json.dumps] writes for it:
    its [repr], and [NaN], [Infinity] or [-Infinity]), a [str], a [list]
    or a [dict] with [str] keys in insertion order. *)
Inductive json :=
| JNull
| JBool (b : bool)
| JNum (repr : string)
| JStr (s : string)
| JList (items : list json)
| JDict (items : list (string * json)).

(** [d[k] = v]: a key that is present keeps its place. *)
Fixpoint dict_set (d : list (string * json)) (k : string) (v : json)
  : list (string * json) :=
  match d with
  | [] => [(k, v)]
  | (k', v') :: d' =>
      if String.eqb k k' then (k, v) :: d' else (k', v') :: dict_set d' k v
  end.

Fixpoint dict_lookup (d : list (string * json)) (k : string) : option json :=
  match d with
  | [] => None
  | (k', v) :: d' => if String.eqb k k' then Some v else dict_lookup d' k
  end.

(** [obj.get(k)]: [None] when the key is missing, [AttributeError] when
    [obj] is no [dict]. *)
Definition json_get (obj : json) (k : string) : result json :=
  match obj with
  | JDict d => Ok (match dict_lookup d k with Some v => v | None => JNull end)
  | _ => Raise AttributeError
  end.

(** [obj[k]] for a [str] key: [KeyError] when the key is missing,
    [TypeError] when [obj] is no [dict]. *)
Definition json_getitem (obj : json) (k : string) : result json :=
  match obj with
  | JDict d =>
      match dict_lookup d k with Some v => Ok v | None => Raise (KeyError k) end
  | _ => Raise TypeError
  end.

(** ** json.dumps *)

Definition hex_digit (n : N) : byte :=
  nth (N.to_nat (n mod 16)) (encode "0123456789abcdef") x30.

(** The escape [\uXXXX]. *)
Definition u_escape (n : N) : bytes :=
  [x5c; x75; hex_digit (n / 4096); hex_digit (n / 256); hex_digit (n / 16);
   hex_digit n].

(** One code point inside a JSON string, [ensure_ascii=True]. *)
Definition json_escape_code_point (cp : N) : bytes :=
  if (cp =? 34)%N then [x5c; x22]
  else if (cp =? 92)%N then [x5c; x5c]
  else if (cp =? 10)%N then [x5c; x6e]
  else if (cp =? 13)%N then [x5c; x72]
  else if (cp =? 9)%N then [x5c; x74]
  else if (cp =? 8)%N then [x5c; x62]
  else if (cp =? 12)%N then [x5c; x66]
  else if (32 <=? cp)%N && (cp <=? 126)%N then [byte_of_N cp]
  else if (cp <? 65536)%N then u_escape cp
  else u_escape (55296 + (cp - 65536) / 1024) ++ u_escape (56320 + (cp - 65536) mod 1024).

Definition json_dumps_str (s : string) : bytes :=
  x22 :: flat_map json_escape_code_point (code_points s) ++ [x22].

(** [json.dumps(obj)] with the default separators, as bytes of the ASCII
    text it returns. *)
Fixpoint json_dumps_bytes (obj : json) : bytes :=
  match obj with
  | JNull => encode "null"
  | JBool true => encode "true"
  | JBool false => encode "false"
  | JNum repr => encode repr
  | JStr s => json_dumps_str s
  | JList items =>
      x5b ::
      (fix elements (l : list json) : bytes :=
         match l with
         | [] => []
         | [x] => json_dumps_bytes x
         | x :: l' => json_dumps_bytes x ++ encode ", " ++ elements l'
         end) items ++ [x5d]
  | JDict items =>
      x7b ::
      (fix members (l : list (string * json)) : bytes :=
         match l with
         | [] => []
         | [(k, v)] => json_dumps_str k ++ encode ": " ++ json_dumps_bytes v
         | (k, v) :: l' =>
             json_dumps_str k ++ encode ": " ++ json_dumps_bytes v
               ++ encode ", " ++ members l'
         end) items ++ [x7d]
  end.

Definition json_dumps (obj : json) : string :=
  string_of_list_byte (json_dumps_bytes obj).

(** ** json.loads *)

Definition is_ws (b : byte) : bool :=
  match b with
  | x20 | x09 | x0a | x0d => true
  | _ => false
  end.

Fixpoint skip_ws (s : bytes) : bytes :=
  match s with
  | b :: r => if is_ws b then skip_ws r else s
  | [] => []
  end.

Definition is_digit (b : byte) : bool := byte_in 48 57 b.

Definition hex_value (b : byte) : option N :=
  if byte_in 48 57 b then Some (Byte.to_N b - 48)%N
  else if byte_in 97 102 b then Some (Byte.to_N b - 87)%N
  else if byte_in 65 70 b then Some (Byte.to_N b - 55)%N
  else None.

Definition hex4 (a b c d : byte) : option N :=
  match hex_value a, hex_value b, hex_value c, hex_value d with
  | Some x, Some y, Some z, Some t => Some (x * 4096 + y * 256 + z * 16 + t)%N
  | _, _, _, _ => None
  end.

Definition is_high_surrogate (u : N) : bool := (55296 <=? u)%N && (u <=? 56319)%N.
Definition is_low_surrogate (u : N) : bool := (56320 <=? u)%N && (u <=? 57343)%N.

(** The low surrogate escape that may follow a high one. *)
Definition low_surrogate_ahead (s : bytes) : option N :=
  match s with
  | x5c :: x75 :: a :: b :: c :: d :: _ =>
      match hex4 a b c d with
      | Some u => if is_low_surrogate u then Some u else None
      | None => None
      end
  | _ => None
  end.

Definition prepend (p : bytes) (r : option (bytes * bytes)) : option (bytes * bytes) :=
  match r with
  | Some (body, rest) => Some (p ++ body, rest)
  | None => None
  end.

(** The body of a string after its opening quote, and what follows the
    closing quote ([strict=True]: no raw control character). *)
Fixpoint scan_string (s : bytes) : option (bytes * bytes) :=
  match s with
  | [] => None
  | x22 :: r => Some ([], r)
  | x5c :: r =>
      match r with
      | x22 :: r' => prepend [x22] (scan_string r')
      | x5c :: r' => prepend [x5c] (scan_string r')
      | x2f :: r' => prepend [x2f] (scan_string r')
      | x62 :: r' => prepend [x08] (scan_string r')
      | x66 :: r' => prepend [x0c] (scan_string r')
      | x6e :: r' => prepend [x0a] (scan_string r')
      | x72 :: r' => prepend [x0d] (scan_string r')
      | x74 :: r' => prepend [x09] (scan_string r')
      | x75 :: a :: b :: c :: d :: r' =>
          match hex4 a b c d with
          | None => None
          | Some u =>
              match (if is_high_surrogate u then low_surrogate_ahead r' else None), r' with
              | Some u2, _ :: _ :: _ :: _ :: _ :: _ :: r'' =>
                  prepend (utf8_of_code_point
                             (65536 + (u - 55296) * 1024 + (u2 - 56320))%N)
                          (scan_string r'')
              | _, _ => prepend (utf8_of_code_point u) (scan_string r')
              end
          end
      | _ => None
      end
  | b :: r => if (Byte.to_N b <? 32)%N then None else prepend [b] (scan_string r)
  end.

Fixpoint span_digits (s : bytes) : bytes * bytes :=
  match s with
  | b :: r =>
      if is_digit b then let '(ds, rest) := span_digits r in (b :: ds, rest)
      else ([], s)
  | [] => ([], [])
  end.

(** The longest prefix that is a JSON number: an optional minus sign, an
    integer part (a single 0, or digits not starting with 0), then
    optionally a point with digits, then optionally an exponent. *)
Definition scan_number (s : bytes) : option (bytes * bytes) :=
  let '(sign, s1) := match s with x2d :: r => ([x2d], r) | _ => ([], s) end in
  match s1 with
  | [] => None
  | d :: r1 =>
      if negb (is_digit d) then None
      else
        let '(int_rest, s2) :=
          if byte_eqb d x30 then ([], r1) else span_digits r1 in
        let '(frac, s3) :=
          match s2 with
          | x2e :: r2 =>
              let '(ds, r3) := span_digits r2 in
              match ds with [] => ([], s2) | _ => (x2e :: ds, r3) end
          | _ => ([], s2)
          end in
        let '(exp, s4) :=
          match s3 with
          | e :: r4 =>
              if byte_eqb e x65 || byte_eqb e x45 then
                let '(sg, r5) :=
                  match r4 with
                  | x2b :: r => ([x2b], r)
                  | x2d :: r => ([x2d], r)
                  | _ => ([], r4)
                  end in
                let '(ds, r6) := span_digits r5 in
                match ds with [] => ([], s3) | _ => (e :: sg ++ ds, r6) end
              else ([], s3)
          | [] => ([], s3)
          end in
        Some (sign ++ d :: int_rest ++ frac ++ exp, s4)
  end.

(** ** The numbers of a JSON text *)

(** The value of a string of decimal digits. *)
Definition digits_value (ds : bytes) : Z :=
  fold_left (fun acc b => (acc * 10 + Z.of_N (Byte.to_N b - 48))%Z) ds 0%Z.

(** [str(n)] for [0 <= n]. *)
Fixpoint decimal_digits (fuel : nat) (n : Z) (acc : bytes) : bytes :=
  match fuel with
  | 0 => acc
  | S fuel' =>
      let acc' := byte_of_N (Z.to_N (48 + n mod 10)) :: acc in
      if (n <? 10)%Z then acc' else decimal_digits fuel' (n / 10) acc'
  end.

Definition decimal (n : Z) : bytes :=
  decimal_digits (S (Z.to_nat (Z.log2 n))) n [].

(** A Python [float]: an IEEE 754 double. A finite one is [m * 2 ** e]
    with [m < 2 ** 53] and [-1074 <= e <= 971], and [2 ** 52 <= m] unless
    [e] is [-1074]. *)
Inductive float :=
| Finite (negative : bool) (m e : Z)
| Infinite (negative : bool).

Definition float_eqb (x y : float) : bool :=
  match x, y with
  | Finite s m e, Finite s' m' e' => Bool.eqb s s' && (m =? m')%Z && (e =? e')%Z
  | Infinite s, Infinite s' => Bool.eqb s s'
  | _, _ => false
  end.

(** [b ** e], and 1 when [e] is negative. *)
Definition pw (b e : Z) : Z := (b ^ Z.max 0 e)%Z.

(** The double nearest to [num / den] (ties to even), for [0 < num] and
    [0 < den]. *)
Definition nearest_double (negative : bool) (num den : Z) : float :=
  let g := (Z.log2 num - Z.log2 den)%Z in
  let lg := if (den * pw 2 g <=? num * pw 2 (- g))%Z then g else (g - 1)%Z in
  let e := Z.max (lg - 52) (-1074) in
  let n := (num * pw 2 (- e))%Z in
  let d := (den * pw 2 e)%Z in
  let q := (n / d)%Z in
  let r := (n mod d)%Z in
  let q := if (d <? 2 * r)%Z || ((d =? 2 * r)%Z && Z.odd q) then (q + 1)%Z else q in
  let '(q, e) := if (q =? 2 ^ 53)%Z then (2 ^ 52, e + 1)%Z else (q, e) in
  if (971 <? e)%Z then Infinite negative else Finite negative q e.

(** [float(s)] for a literal with the digits [d] and the decimal exponent
    [k]: the double nearest to [d * 10 ** k]. *)
Definition float_of_decimal (negative : bool) (d k : Z) : float :=
  let digits := Z.of_nat (length (decimal d)) in
  if (d =? 0)%Z then Finite negative 0 (-1074)
  else if (310 <? digits + k)%Z then Infinite negative
  else if (digits + k <? -330)%Z then Finite negative 0 (-1074)
  else nearest_double negative (d * pw 10 k) (pw 10 (- k)).

(** [10 ** j <= m * 2 ** e]. *)
Definition ge_pow10 (m e j : Z) : bool :=
  (pw 10 j * pw 2 (- e) <=? m * pw 2 e * pw 10 (- j))%Z.

(** The position of the decimal point: the [j] with
    [10 ** (j - 1) <= m * 2 ** e < 10 ** j]. *)
Fixpoint find_decpt (fuel : nat) (m e j : Z) : Z :=
  match fuel with
  | 0 => j
  | S fuel' => if ge_pow10 m e j then find_decpt fuel' m e (j + 1) else j
  end.

Definition decpt_of (m e : Z) : Z :=
  find_decpt 8 m e (((Z.log2 m + e) * 30103) / 100000 - 1).

Fixpoint strip_zeros (fuel : nat) (c : Z) : Z :=
  match fuel with
  | 0 => c
  | S fuel' => if (c mod 10 =? 0)%Z then strip_zeros fuel' (c / 10) else c
  end.

(** The shortest string of digits that [float] reads back as the same
    double, and among these the nearest: the digits (without zeros at the
    end) and the position of the decimal point. *)
Fixpoint shortest_digits (fuel : nat) (n : Z) (m e decpt : Z) : bytes * Z :=
  let s := (n - decpt)%Z in
  let num := (m * pw 2 e * pw 10 s)%Z in
  let den := (pw 2 (- e) * pw 10 (- s))%Z in
  let f := (num / den)%Z in
  let r := (num mod den)%Z in
  let up := (den <? 2 * r)%Z || ((den =? 2 * r)%Z && Z.odd f) in
  let first := if up then (f + 1)%Z else f in
  let second := if up then f else (f + 1)%Z in
  let reads_back c :=
    float_eqb (float_of_decimal false c (- s)) (Finite false m e) in
  let found c :=
    let digits := decimal c in
    (decimal (strip_zeros 20 c), (Z.of_nat (length digits) - s)%Z) in
  if reads_back first then found first
  else if reads_back second then found second
  else
    match fuel with
    | 0 => found first
    | S fuel' => shortest_digits fuel' (n + 1) m e decpt
    end.

Definition zeros (n : Z) : bytes := repeat x30 (Z.to_nat n).

(** [repr(x)] as [json.dumps] writes it. *)
Definition float_repr (x : float) : bytes :=
  match x with
  | Infinite false => encode "Infinity"
  | Infinite true => encode "-Infinity"
  | Finite negative m e =>
      (if negative then [x2d] else []) ++
      if (m =? 0)%Z then encode "0.0"
      else
        let '(digits, decpt) := shortest_digits 16 1 m e (decpt_of m e) in
        let n := Z.of_nat (length digits) in
        if (decpt <=? -4)%Z || (16 <? decpt)%Z then
          let exponent := (decpt - 1)%Z in
          firstn 1 digits
            ++ match skipn 1 digits with [] => [] | more => x2e :: more end
            ++ [x65; if (exponent <? 0)%Z then x2d else x2b]
            ++ (if (Z.abs exponent <? 10)%Z then [x30] else [])
            ++ decimal (Z.abs exponent)
        else if (decpt <=? 0)%Z then
          encode "0." ++ zeros (- decpt) ++ digits
        else if (n <=? decpt)%Z then
          digits ++ zeros (decpt - n) ++ encode ".0"
        else
          firstn (Z.to_nat decpt) digits ++ x2e :: skipn (Z.to_nat decpt) digits
  end.

(** The sign at the head of a literal. *)
Definition split_sign (s : bytes) : bool * bytes :=
  match s with
  | x2d :: r => (true, r)
  | _ => (false, s)
  end.

(** The value of the exponent part of a literal: [e] or [E], a sign or
    none, digits; 0 when there is no such part. *)
Definition exponent_value (s : bytes) : Z :=
  match s with
  | [] => 0%Z
  | _ :: r =>
      let '(negative, ds) := split_sign r in
      let ds := match ds with x2b :: ds' => ds' | _ => ds end in
      if negative then (- digits_value ds)%Z else digits_value ds
  end.

(** The number a JSON number literal denotes, as [json.dumps] writes it:
    an [int] when the literal has neither fraction nor exponent (with
    [max_digits], when it is not 0, the most digits [int] converts), else
    the [float]. [None]: the [ValueError] of [int]. *)
Definition number_repr (max_digits : nat) (literal : bytes) : option bytes :=
  let '(negative, s1) := split_sign literal in
  let '(int_part, s2) := span_digits s1 in
  match s2 with
  | [] =>
      if (0 <? max_digits) && (max_digits <? length int_part) then None
      else if (digits_value int_part =? 0)%Z then Some int_part
      else Some literal
  | _ =>
      let '(frac, s3) :=
        match s2 with x2e :: r => span_digits r | _ => ([], s2) end in
      Some (float_repr
              (float_of_decimal negative (digits_value (int_part ++ frac))
                 (exponent_value s3 - Z.of_nat (length frac))))
  end.

Definition strip_prefix (p s : bytes) : option bytes :=
  if is_prefix p s then Some (skipn (length p) s) else None.

Section Scanner.

(** [sys.get_int_max_str_digits()]. *)
Variable max_digits : nat.

(** A constant or a number at the head of [s]. *)
Definition scan_constant (s : bytes) : result (json * bytes) :=
  match strip_prefix (encode "null") s with
  | Some r => Ok (JNull, r)
  | None =>
  match strip_prefix (encode "true") s with
  | Some r => Ok (JBool true, r)
  | None =>
  match strip_prefix (encode "false") s with
  | Some r => Ok (JBool false, r)
  | None =>
  match scan_number s with
  | Some (lit, r) =>
      match number_repr max_digits lit with
      | Some repr => Ok (JNum (string_of_list_byte repr), r)
      | None => Raise (ValueError IntMaxStrDigits)
      end
  | None =>
  match strip_prefix (encode "NaN") s with
  | Some r => Ok (JNum "NaN", r)
  | None =>
  match strip_prefix (encode "Infinity") s with
  | Some r => Ok (JNum "Infinity", r)
  | None =>
  match strip_prefix (encode "-Infinity") s with
  | Some r => Ok (JNum "-Infinity", r)
  | None => Raise JSONDecodeError
  end end end end end end end.

(** The scanner: one value at the head of [s], and the rest. [depth] is
    the number of containers it can still enter: it raises
    [RecursionError] where it would enter one more. A text that is no JSON
    is a [JSONDecodeError]; the scanner reads from left to right and
    raises at the first of these it meets. [fuel] bounds the number of
    calls: of two calls that follow each other one reads a byte at least,
    so a text never needs more than twice the bytes it has (lemma
    [scan_fuel] below). *)
Fixpoint scan_once (fuel depth : nat) (s : bytes) : result (json * bytes) :=
  match fuel with
  | 0 => Raise JSONDecodeError
  | S fuel' =>
      match s with
      | x22 :: r =>
          match scan_string r with
          | Some (body, rest) => Ok (JStr (string_of_list_byte body), rest)
          | None => Raise JSONDecodeError
          end
      | x7b :: r =>
          match depth with
          | 0 => Raise RecursionError
          | S depth' =>
              match skip_ws r with
              | x7d :: rest => Ok (JDict [], rest)
              | r' => scan_members fuel' depth' r' []
              end
          end
      | x5b :: r =>
          match depth with
          | 0 => Raise RecursionError
          | S depth' =>
              match skip_ws r with
              | x5d :: rest => Ok (JList [], rest)
              | r' => scan_elements fuel' depth' r' []
              end
          end
      | _ => scan_constant s
      end
  end

with scan_members (fuel depth : nat) (s : bytes) (d : list (string * json))
  : result (json * bytes) :=
  match fuel with
  | 0 => Raise JSONDecodeError
  | S fuel' =>
      match s with
      | x22 :: r =>
          match scan_string r with
          | Some (key, r1) =>
              match skip_ws r1 with
              | x3a :: r2 =>
                  '(v, r3) <-r scan_once fuel' depth (skip_ws r2) ;;
                  let d' := dict_set d (string_of_list_byte key) v in
                  match skip_ws r3 with
                  | x7d :: rest => Ok (JDict d', rest)
                  | x2c :: r4 => scan_members fuel' depth (skip_ws r4) d'
                  | _ => Raise JSONDecodeError
                  end
              | _ => Raise JSONDecodeError
              end
          | None => Raise JSONDecodeError
          end
      | _ => Raise JSONDecodeError
      end
  end

with scan_elements (fuel depth : nat) (s : bytes) (acc : list json)
  : result (json * bytes) :=
  match fuel with
  | 0 => Raise JSONDecodeError
  | S fuel' =>
      '(v, r1) <-r scan_once fuel' depth s ;;
      match skip_ws r1 with
      | x5d :: rest => Ok (JList (acc ++ [v]), rest)
      | x2c :: r2 => scan_elements fuel' depth (skip_ws r2) (acc ++ [v])
      | _ => Raise JSONDecodeError
      end
  end.

End Scanner.

(** [json.loads(s)]: one value between optional whitespace, nothing else. *)
Definition json_loads (be : backend) (s : string) : result json :=
  let text := encode s in
  '(v, rest) <-r scan_once (int_max_str_digits be) (2 * length text + 2)
                   (recursion_limit be) (skip_ws text) ;;
  match skip_ws rest with
  | [] => Ok v
  | _ => Raise JSONDecodeError
  end.

(** ** base64 and binascii *)

Definition b64_alphabet : bytes :=
  encode "ABCDEFGHIJKLMNOPQRSTUVWXYZabcdefghijklmnopqrstuvwxyz0123456789+/".

Definition b64_char (n : nat) : byte := nth n b64_alphabet x3d.

(** [binascii.b2a_base64(data, newline=False)]. *)
Fixpoint b2a_base64 (data : bytes) : bytes :=
  match data with
  | [] => []
  | [a] =>
      let a := Byte.to_nat a in
      [b64_char (a / 4); b64_char (a mod 4 * 16); x3d; x3d]
  | [a; b] =>
      let a := Byte.to_nat a in
      let b := Byte.to_nat b in
      [b64_char (a / 4); b64_char (a mod 4 * 16 + b / 16);
       b64_char (b mod 16 * 4); x3d]
  | a :: b :: c :: rest =>
      let a := Byte.to_nat a in
      let b := Byte.to_nat b in
      let c := Byte.to_nat c in
      b64_char (a / 4) :: b64_char (a mod 4 * 16 + b / 16)
        :: b64_char (b mod 16 * 4 + c / 64) :: b64_char (c mod 64)
        :: b2a_base64 rest
  end.

(** [base64.b64encode(data).decode()]. *)
Definition b64encode (data : bytes) : string :=
  string_of_list_byte (b2a_base64 data).

(** [base64.urlsafe_b64encode(data).decode()]: [+] and [/] become [-] and [_]. *)
Definition urlsafe_b64encode (data : bytes) : string :=
  string_of_list_byte
    (map (fun b => match b with x2b => x2d | x2f => x5f | _ => b end)
         (b2a_base64 data)).

Fixpoint index_of (b : byte) (l : bytes) (i : nat) : option nat :=
  match l with
  | [] => None
  | x :: l' => if byte_eqb b x then Some i else index_of b l' (S i)
  end.

(** [binascii.a2b_base64(s)] with [strict_mode=False]: characters outside
    the alphabet are skipped, a complete pad sequence ends the input, and
    a quad that is left incomplete is an error. *)
Fixpoint a2b_base64 (s : bytes) (quad_pos pads leftchar : nat) : result bytes :=
  match s with
  | [] => if quad_pos =? 0 then Ok [] else Raise BinasciiError
  | ch :: r =>
      if byte_eqb ch x3d then
        if (2 <=? quad_pos) && (4 <=? quad_pos + S pads) then Ok []
        else a2b_base64 r quad_pos (if 2 <=? quad_pos then S pads else pads) leftchar
      else
        match index_of ch b64_alphabet 0 with
        | None => a2b_base64 r quad_pos pads leftchar
        | Some v =>
            match quad_pos with
            | 0 => a2b_base64 r 1 0 v
            | 1 => out <-r a2b_base64 r 2 0 (v mod 16) ;;
                   Ok (byte_of_nat (leftchar * 4 + v / 16) :: out)
            | 2 => out <-r a2b_base64 r 3 0 (v mod 4) ;;
                   Ok (byte_of_nat (leftchar * 16 + v / 4) :: out)
            | _ => out <-r a2b_base64 r 0 0 0 ;;
                   Ok (byte_of_nat (leftchar * 64 + v) :: out)
            end
        end
  end.

(** [base64.b64decode(s)] for a value read from JSON: a [str] is encoded
    as ASCII first, anything else is a [TypeError]. *)
Definition b64decode (v : json) : result bytes :=
  match v with
  | JStr s =>
      if forallb (byte_in 0 127) (encode s) then a2b_base64 (encode s) 0 0 0
      else Raise (ValueError NonAsciiString)
  | _ => Raise TypeError
  end.

Definition hex_pair (b : byte) : bytes :=
  [hex_digit (Byte.to_N b / 16); hex_digit (Byte.to_N b)].

(** [binascii.hexlify(data).decode('ascii')]. *)
Definition hexlify (data : bytes) : string :=
  string_of_list_byte (flat_map hex_pair data).

(** [int.from_bytes(data, byteorder='big')]. *)
Definition int_from_bytes (data : bytes) : N :=
  fold_left (fun acc b => (acc * 256 + Byte.to_N b)%N) data 0%N.

(** [n.to_bytes(4, byteorder='big')]. *)
Definition int_to_bytes4 (n : N) : result bytes :=
  if (n <? 4294967296)%N
  then Ok [byte_of_N (n / 16777216); byte_of_N (n / 65536); byte_of_N (n / 256);
           byte_of_N n]
  else Raise OverflowError.

(** ** str and re *)

(** [len(s)] for a [str]: the number of its code points. *)
Definition str_len (s : string) : Z := Z.of_nat (length (code_points s)).




(** How [re.IGNORECASE] compares a character of a [str] with an ASCII
    character of the pattern: both are taken to lower case, and the four
    letters outside ASCII whose case mapping leads to [i], [k] or [s]
    (U+0130, U+0131, U+212A, U+017F) count as these. *)
Definition ignorecase_fold (cp : N) : N :=
  if (65 <=? cp)%N && (cp <=? 90)%N then (cp + 32)%N
  else if (cp =? 304)%N || (cp =? 305)%N then 105%N
  else if (cp =? 8490)%N then 107%N
  else if (cp =? 383)%N then 115%N
  else cp.

Definition literal_matches (c cp : N) : bool :=
  (ignorecase_fold c =? ignorecase_fold cp)%N.

(** The literal [lit] matches at the head of [s]. *)
Fixpoint matches_at (lit s : list N) : bool :=
  match lit, s with
  | [], _ => true
  | c :: lit', x :: s' => literal_matches c x && matches_at lit' s'
  | _ :: _, [] => false
  end.

(** The literal matches at some position of [s]. *)
Fixpoint search_literal (lit s : list N) : bool :=
  matches_at lit s ||
  match s with
  | [] => false
  | _ :: s' => search_literal lit s'
  end.

(** The truth value of [re.search(pattern, text, re.IGNORECASE)] for a
    pattern that is a group of alternatives, each a string of escaped
    literal characters, such as [(youtube\.com|youtu\.be)]. *)
Definition re_search (alternatives : list string) (text : string) : bool :=
  existsb (fun lit => search_literal (code_points lit) (code_points text))
          alternatives.

(* ================================================================== *)
(** * The user interface *)
(* ================================================================== *)

(** A [QMessageBox] that a method shows. The text of [CriticalError] is
    the heading, a line break and [str(e)], the message of the exception
    that was caught, which the library that raised it words. *)
Inductive message_box :=
| Information (title text : string)
| Warning (title text : string)
| Critical (title text : string)
| CriticalError (title heading : string) (e : exn).

(** The answer of [QInputDialog.getText]: the text and the [ok] flag. *)
Record input_dialog := mkInput {
  dialog_text : string;
  dialog_ok : bool
}.

(** What a method did: the boxes it showed, in order, and the content of
    the file it wrote, if it opened one for writing. *)
Record effects := mkEffects {
  shown : list message_box;
  written : option bytes
}.

Definition nothing : effects := mkEffects [] None.
Definition show (b : message_box) : effects := mkEffects [b] None.

Definition nl : string := String (Ascii.ascii_of_nat 10) EmptyString.

(** Python's truth value of a [str]. *)
Definition truthy (s : string) : bool := negb (String.eqb s "").

Definition truthy_opt (s : option string) : bool :=
  match s with Some s' => truthy s' | None => false end.

(** The long-lived editor window of [durga.py] and [AI.py], reduced to the
    fields the encryption menu reads and writes. The text of the widget
    is known by what [toPlainText()] returns; after [setText(text)] that
    is [setText be text], Qt's reading of [text]. *)
Record editor := mkEditor {
  text_edit : string;                 (* self.text_edit.toPlainText() *)
  current_password : option string;   (* self.current_password *)
  recovery_key : json                 (* self.recovery_key, JNull for None *)
}.

(* ================================================================== *)
(** * durga.py *)
(* ================================================================== *)

Module durga.
Section Code.

Variable be : backend.

Definition generate_key (password : string) (salt : bytes) : M bytes :=
  let kdf := mkPBKDF2HMAC 32 salt 100000 in
  ret (derive be kdf (encode password)).

Definition encrypt_data (data : bytes) (password : string) : M bytes :=
  salt <- os_urandom 16 ;;
  key <- generate_key password salt ;;
  iv <- os_urandom 16 ;;
  cipher <- lift (Cipher (algorithms_AES key) (CFB iv)) ;;
  encrypted <- lift (encryptor_update_finalize be cipher data) ;;
  ret (salt ++ iv ++ encrypted).

Definition decrypt_data (encrypted_data : bytes) (password : string) : M bytes :=
  let salt := firstn 16 encrypted_data in
  let iv := firstn 16 (skipn 16 encrypted_data) in
  let data := skipn 32 encrypted_data in
  key <- generate_key password salt ;;
  cipher <- lift (Cipher (algorithms_AES key) (CFB iv)) ;;
  lift (decryptor_update_finalize be cipher data).

(** [secrets.token_hex(16)]. *)
Definition token_hex (n : nat) : M string :=
  raw <- os_urandom n ;;
  ret (hexlify raw).

Definition set_password (self : editor) (answer : input_dialog)
  : M (effects * editor) :=
  let password := dialog_text answer in
  if dialog_ok answer && truthy password then
    key <- token_hex 16 ;;
    ret (show (Information "Recovery Key"
                 ("Your recovery key is: " ++ key ++ nl ++ nl
                  ++ "Save this key in a safe place. "
                  ++ "You will need it if you forget your password.")),
         mkEditor (text_edit self) (Some password) (JStr key))
  else ret (nothing, self).

(** The three writes of [save_encrypted_file] into the opened file. *)
Definition write_container (recovery_info encrypted_data : bytes) : result bytes :=
  size <-r int_to_bytes4 (N.of_nat (length recovery_info)) ;;
  Ok (size ++ recovery_info ++ encrypted_data).

(** [path_chosen]: the save dialog returned a path. The editor is not
    changed. When [to_bytes] raises, the file was already opened for
    writing and stays empty. *)
Definition save_encrypted_file (self : editor) (path_chosen : bool) : M effects :=
  if negb (truthy_opt (current_password self)) then
    ret (show (Warning "Password Error" "Please set a password first."))
  else if negb path_chosen then ret nothing
  else
    let password := match current_password self with Some p => p | None => ""%string end in
    try_except
      (let text_data := encode (text_edit self) in
       encrypted_data <- encrypt_data text_data password ;;
       created_at <- time_time ;;
       let recovery_data :=
         JDict [("recovery_key"%string, recovery_key self);
                ("created_at"%string, JNum created_at)] in
       let recovery_info := encode (json_dumps recovery_data) in
       match write_container recovery_info encrypted_data with
       | Ok content =>
           ret (mkEffects
                  [Information "Encryption Successful"
                     "File encrypted and saved successfully."]
                  (Some content))
       | Raise e =>
           ret (mkEffects
                  [CriticalError "Encryption Error" "Error while encrypting file:" e]
                  (Some []))
       end)
      (fun e =>
         ret (show (CriticalError "Encryption Error"
                      "Error while encrypting file:" e))).

(** The header of a container file: the recovery data and what follows it. *)
Definition read_container (file : bytes) : result (json * bytes) :=
  let recovery_size := N.to_nat (int_from_bytes (firstn 4 file)) in
  let recovery_info := firstn recovery_size (skipn 4 file) in
  text <-r decode recovery_info ;;
  recovery_data <-r json_loads be text ;;
  stored_recovery_key <-r json_get recovery_data "recovery_key" ;;
  Ok (stored_recovery_key, skipn recovery_size (skipn 4 file)).

(** [recovery == stored_recovery_key]: a [str] equals only the same [str]. *)
Definition str_eq_json (s : string) (v : json) : bool :=
  match v with
  | JStr s' => String.eqb s s'
  | _ => false
  end.

(** The password attempt: [decrypt_data] and [decode('utf-8')]. *)
Definition decrypt_text (encrypted_data : bytes) (password : string) : M string :=
  decrypted_data <- decrypt_data encrypted_data password ;;
  lift (decode decrypted_data).

(** The answers of the dialogs [open_encrypted_file] may open, in order:
    the password, the question whether to use the recovery key, the
    recovery key, the new password. *)
Record open_answers := mkOpenAnswers {
  ask_password : input_dialog;
  ask_use_recovery : bool;
  ask_recovery : input_dialog;
  ask_new_password : input_dialog
}.

(** The condition [ok and recovery and recovery == stored_recovery_key]. *)
Definition recovery_accepted (answer : input_dialog) (stored_recovery_key : json)
  : bool :=
  dialog_ok answer && truthy (dialog_text answer)
  && str_eq_json (dialog_text answer) stored_recovery_key.

(** [file] is the content of the chosen file, [None] when the file dialog
    was cancelled. *)
Definition open_encrypted_file (self : editor) (file : option bytes)
    (answers : open_answers) : M (effects * editor) :=
  match file with
  | None => ret (nothing, self)
  | Some content =>
      try_except
        ('(stored_recovery_key, encrypted_data) <- lift (read_container content) ;;
         let password := dialog_text (ask_password answers) in
         if negb (dialog_ok (ask_password answers)) || negb (truthy password)
         then ret (nothing, self)
         else
           try_except
             (text <- decrypt_text encrypted_data password ;;
              ret (show (Information "Decryption Successful"
                           "File decrypted successfully."),
                   mkEditor (setText be text) (Some password) stored_recovery_key))
             (fun _ =>
                if ask_use_recovery answers then
                  if recovery_accepted (ask_recovery answers) stored_recovery_key
                  then
                    let new_password := dialog_text (ask_new_password answers) in
                    if dialog_ok (ask_new_password answers) && truthy new_password
                    then
                      text <- decrypt_text encrypted_data password ;;
                      ret (show (Information "Recovery Successful"
                                   "Recovery successful. New password set."),
                           mkEditor (setText be text) (Some new_password)
                             (recovery_key self))
                    else ret (nothing, self)
                  else
                    ret (show (Critical "Recovery Failed" "Invalid recovery key."),
                         self)
                else ret (nothing, self)))
        (fun e =>
           ret (show (CriticalError "Decryption Error"
                        "Error while opening encrypted file:" e),
                self))
  end.

End Code.

(** The table of [identify_platform], in the order the [dict] is written;
    each pattern is given by the alternatives of its group. *)
Definition domain_patterns : list (string * list string) :=
  [("youtube", ["youtube.com"; "youtu.be"]);
   ("facebook", ["facebook.com"; "fb.com"; "fb.watch"]);
   ("instagram", ["instagram.com"]);
   ("twitter", ["twitter.com"; "x.com"]);
   ("tiktok", ["tiktok.com"]);
   ("linkedin", ["linkedin.com"]);
   ("reddit", ["reddit.com"]);
   ("pinterest", ["pinterest.com"]);
   ("vimeo", ["vimeo.com"]);
   ("threads", ["threads.net"]);
   ("snapchat", ["snapchat.com"]);
   ("dailymotion", ["dailymotion.com"]);
   ("twitch", ["twitch.tv"]);
   ("soundcloud", ["soundcloud.com"]);
   ("spotify", ["spotify.com"]);
   ("discord", ["discord.com"])]%string.

(** The loop over the table returns at the first pattern that is found. *)
Definition identify_platform (url : string) : string :=
  match find (fun entry => re_search (snd entry) url) domain_patterns with
  | Some (platform, _) => platform
  | None => "generic"%string
  end.

(** A match of the grammar checker as the editor reads it: the keys
    [offset] and [length] (integers, [None] where the key is missing) and
    [replacements] (a list of dicts of which the key [value] is read). *)
Record replacement := mkReplacement {
  value : option string
}.

Record issue := mkIssue {
  offset : option Z;
  issue_length : option Z;
  replacements : option (list replacement)
}.

(** [d.get(key, default)]. *)
Definition get {A} (field : option A) (default : A) : A :=
  match field with Some v => v | None => default end.

(** [GrammarHighlighter.highlightBlock]: the calls of [setFormat], as
    pairs [(relative_start, length)], for the block of text [text] that
    starts at position [block_start] of the document. *)
Definition highlightBlock (grammar_issues : list issue) (block_start : Z)
    (text : string) : list (Z * Z) :=
  flat_map
    (fun issue =>
       let start := get (offset issue) 0%Z in
       let length := get (issue_length issue) 0%Z in
       if ((block_start <=? start) && (start <? block_start + str_len text))%Z
       then
         let relative_start := (start - block_start)%Z in
         let length :=
           if (str_len text <? relative_start + length)%Z
           then (str_len text - relative_start)%Z
           else length in
         if ((0 <=? relative_start) && (0 <? length))%Z
         then [(relative_start, length)]
         else []
       else [])
    grammar_issues.

(** What [show_context_menu] adds to the standard context menu. *)
Inductive menu_entry :=
| GrammarSuggestions (actions : list string)   (* the submenu *)
| NoSuggestionsAvailable                       (* a disabled action *)
| Ignore (target : issue).

(** The first issue that covers the position of the cursor. *)
Definition current_issue (issues : list issue) (cursor_pos : Z) : option issue :=
  find (fun issue =>
          let start := get (offset issue) 0%Z in
          let length := get (issue_length issue) 0%Z in
          ((start <=? cursor_pos) && (cursor_pos <? start + length))%Z)
       issues.

(** The actions of the submenu: the non-empty values of the first five
    replacements. *)
Definition suggestions (found : issue) : list string :=
  filter truthy
    (map (fun r => get (value r) ""%string)
         (firstn 5 (get (replacements found) []))).

Definition show_context_menu (issues : list issue) (cursor_pos : Z)
  : list menu_entry :=
  match current_issue issues cursor_pos with
  | None => []
  | Some found =>
      [match get (replacements found) [] with
       | [] => NoSuggestionsAvailable
       | _ :: _ => GrammarSuggestions (suggestions found)
       end;
       Ignore found]
  end.




Section Stream.

Variable be : backend.






End Stream.

End durga.

(* ================================================================== *)
(** * AI.py *)
(* ================================================================== *)

Module AI.
Section Code.

Variable be : backend.

Definition generate_key (password : string) (salt : bytes) : M bytes :=
  let kdf := mkPBKDF2HMAC 32 salt 100000 in
  ret (derive be kdf (encode password)).

Definition encrypt_data (data : bytes) (password : string) : M bytes :=
  salt <- os_urandom 16 ;;
  key <- generate_key password salt ;;
  iv <- os_urandom 16 ;;
  cipher <- lift (Cipher (algorithms_AES key) (CFB iv)) ;;
  encrypted <- lift (encryptor_update_finalize be cipher data) ;;
  ret (salt ++ iv ++ encrypted).

Definition decrypt_data (encrypted_data : bytes) (password : string) : M bytes :=
  let salt := firstn 16 encrypted_data in
  let iv := firstn 16 (skipn 16 encrypted_data) in
  let data := skipn 32 encrypted_data in
  key <- generate_key password salt ;;
  cipher <- lift (Cipher (algorithms_AES key) (CFB iv)) ;;
  lift (decryptor_update_finalize be cipher data).

Definition set_password (self : editor) (answer : input_dialog)
  : M (effects * editor) :=
  let password := dialog_text answer in
  if dialog_ok answer && truthy password then
    raw <- os_urandom 16 ;;
    let key := urlsafe_b64encode raw in
    ret (show (Information "Password Set" ("Recovery Key: " ++ key)),
         mkEditor (text_edit self) (Some password) (JStr key))
  else ret (nothing, self).

(** No [try] here: an exception would leave the method. *)
Definition save_encrypted_file (self : editor) (path_chosen : bool) : M effects :=
  if negb (truthy_opt (current_password self)) then
    ret (show (Warning "Password Required" "Set a password first."))
  else if negb path_chosen then ret nothing
  else
    let password := match current_password self with Some p => p | None => ""%string end in
    let data := encode (text_edit self) in
    encrypted <- encrypt_data data password ;;
    ret (mkEffects [] (Some encrypted)).

Definition open_encrypted_file (self : editor) (file : option bytes)
    (answer : input_dialog) : M (effects * editor) :=
  match file with
  | None => ret (nothing, self)
  | Some encrypted =>
      let password := dialog_text answer in
      if dialog_ok answer && truthy password then
        try_except
          (decrypted <- decrypt_data encrypted password ;;
           text <- lift (decode decrypted) ;;
           ret (nothing, mkEditor (setText be text) (Some password)
                           (recovery_key self)))
          (fun _ =>
             ret (show (Critical "Error" "Failed to decrypt. Invalid password?"),
                  self))
      else ret (nothing, self)
  end.

End Code.
End AI.

(* ================================================================== *)
(** * passward.py *)
(* ================================================================== *)

Module passward.
Section Code.

Variable be : backend.

Definition generate_key (password : string) (salt : bytes) : M bytes :=
  let kdf := mkPBKDF2HMAC 32 salt 390000 in
  ret (derive be kdf (encode password)).

(** Returns [(encrypted, iv)]. *)
Definition encrypt_data (data key : bytes) : M (bytes * bytes) :=
  iv <- os_urandom 16 ;;
  let padder0 := padder (PKCS7 128) in
  let '(head, padder1) := padder_update padder0 data in
  let padded_data := head ++ padder_finalize padder1 in
  cipher <- lift (Cipher (algorithms_AES key) (CBC iv)) ;;
  encrypted <- lift (encryptor_update_finalize be cipher padded_data) ;;
  ret (encrypted, iv).

Definition decrypt_data (encrypted key iv : bytes) : M bytes :=
  cipher <- lift (Cipher (algorithms_AES key) (CBC iv)) ;;
  decrypted_padded <- lift (decryptor_update_finalize be cipher encrypted) ;;
  let unpadder0 := unpadder (PKCS7 128) in
  let '(head, unpadder1) := unpadder_update unpadder0 decrypted_padded in
  tail <- lift (unpadder_finalize unpadder1) ;;
  ret (head ++ tail).

Definition generate_recovery_key : M string :=
  raw <- os_urandom 16 ;;
  ret (urlsafe_b64encode raw).

(** The values [encrypt_file] has computed when it opens the save dialog. *)
Record sealed := mkSealed {
  salt : bytes;
  key : bytes;
  iv : bytes;
  encrypted : bytes;
  recovery_key : string;
  recovery_salt : bytes;
  recovery_key_bytes : bytes;
  encrypted_key : bytes
}.

(** [encrypt_file] from the read of the input file to the save dialog. The
    padded key is the output of [update] on one fresh padder followed by
    the output of [finalize] on another fresh padder. *)
Definition seal (data : bytes) (password : string) : M sealed :=
  salt <- os_urandom 16 ;;
  key <- generate_key password salt ;;
  '(encrypted, iv) <- encrypt_data data key ;;
  recovery_key <- generate_recovery_key ;;
  recovery_salt <- os_urandom 16 ;;
  recovery_key_bytes <- generate_key recovery_key recovery_salt ;;
  recovery_cipher <- lift (Cipher (algorithms_AES recovery_key_bytes) (CBC iv)) ;;
  let padded_key :=
    fst (padder_update (padder (PKCS7 128)) key)
      ++ padder_finalize (padder (PKCS7 128)) in
  encrypted_key <- lift (encryptor_update_finalize be recovery_cipher padded_key) ;;
  ret (mkSealed salt key iv encrypted recovery_key recovery_salt
         recovery_key_bytes encrypted_key).

(** The dict [file_content] that is written as JSON. *)
Definition file_content (s : sealed) : json :=
  JDict [("salt"%string, JStr (b64encode (salt s)));
         ("iv"%string, JStr (b64encode (iv s)));
         ("encrypted_data"%string, JStr (b64encode (encrypted s)));
         ("recovery"%string,
          JDict [("salt"%string, JStr (b64encode (recovery_salt s)));
                 ("encrypted_key"%string, JStr (b64encode (encrypted_key s)))])].

(** [file]: the content of the chosen input file, [None] when the dialog
    was cancelled; [out_path_chosen]: the save dialog returned a path. *)
Definition encrypt_file (file : option bytes) (answer : input_dialog)
    (out_path_chosen : bool) : M effects :=
  match file with
  | None => ret nothing
  | Some data =>
      let password := dialog_text answer in
      if negb (dialog_ok answer) || negb (truthy password) then ret nothing
      else
        s <- seal data password ;;
        if negb out_path_chosen then ret nothing
        else
          ret (mkEffects
                 [Information "Success"
                    ("File encrypted!" ++ nl ++ nl ++ "Recovery Key:" ++ nl
                     ++ recovery_key s ++ nl ++ nl ++ "Save it safely!")]
                 (Some (encode (json_dumps (file_content s)))))
  end.

(** The item chosen in the [Decryption Method] dialog. *)
Inductive decryption_method := Password | RecoveryKey.

(** The body of the [try] of the password branch of [decrypt_file]. *)
Definition decrypt_with_password (salt iv encrypted_data : bytes) (password : string)
  : M bytes :=
  key <- generate_key password salt ;;
  decrypt_data encrypted_data key iv.

(** The body of the [try] of the recovery branch of [decrypt_file]. The key
    is the output of [update] on one fresh unpadder followed by the output
    of [finalize] on another fresh unpadder. *)
Definition decrypt_with_recovery_key (content : json) (iv encrypted_data : bytes)
    (recovery_key : string) : M bytes :=
  recovery <- lift (json_getitem content "recovery") ;;
  recovery_salt <- lift (v <-r json_getitem recovery "salt" ;; b64decode v) ;;
  recovery <- lift (json_getitem content "recovery") ;;
  encrypted_key <- lift (v <-r json_getitem recovery "encrypted_key" ;; b64decode v) ;;
  recovery_key_bytes <- generate_key recovery_key recovery_salt ;;
  cipher <- lift (Cipher (algorithms_AES recovery_key_bytes) (CBC iv)) ;;
  padded_key <- lift (decryptor_update_finalize be cipher encrypted_key) ;;
  let head := fst (unpadder_update (unpadder (PKCS7 128)) padded_key) in
  tail <- lift (unpadder_finalize (unpadder (PKCS7 128))) ;;
  let key := head ++ tail in
  decrypt_data encrypted_data key iv.

Record decrypt_answers := mkDecryptAnswers {
  ask_method : decryption_method;
  ask_method_ok : bool;
  ask_secret : input_dialog;       (* the password or the recovery key *)
  ask_save_path : bool
}.

(** [file]: the content of the chosen file, [None] when the dialog was
    cancelled. The parse of the file is outside any [try]. *)
Definition decrypt_file (file : option bytes) (answers : decrypt_answers)
  : M effects :=
  match file with
  | None => ret nothing
  | Some raw =>
      text <- lift (decode raw) ;;
      content <- lift (json_loads be text) ;;
      salt <- lift (v <-r json_getitem content "salt" ;; b64decode v) ;;
      iv <- lift (v <-r json_getitem content "iv" ;; b64decode v) ;;
      encrypted_data <-
        lift (v <-r json_getitem content "encrypted_data" ;; b64decode v) ;;
      if negb (ask_method_ok answers) then ret nothing
      else if negb (dialog_ok (ask_secret answers)) then ret nothing
      else
        let secret := dialog_text (ask_secret answers) in
        attempt <-
          match ask_method answers with
          | Password =>
              try_except
                (decrypted <- decrypt_with_password salt iv encrypted_data secret ;;
                 ret (inr decrypted))
                (fun _ =>
                   ret (inl (show (Critical "Error"
                                     "Wrong password or corrupted file."))))
          | RecoveryKey =>
              try_except
                (decrypted <-
                   decrypt_with_recovery_key content iv encrypted_data secret ;;
                 ret (inr decrypted))
                (fun _ =>
                   ret (inl (show (Critical "Error"
                                     "Invalid recovery key or file corrupted."))))
          end ;;
        match attempt with
        | inl failure => ret failure
        | inr decrypted =>
            if ask_save_path answers
            then ret (mkEffects
                        [Information "Success" "File decrypted successfully!"]
                        (Some decrypted))
            else ret nothing
        end
  end.

End Code.
End passward.

(* ================================================================== *)
(** * A small backend to run the code on *)
(* ================================================================== *)

(** A backend with the shapes of SHA-256 and AES-256 (a 32-byte digest, a
    16-byte block permutation under a 32-byte key) that evaluates inside
    Rocq, with a text widget for plain text. It is used to run the code on concrete inputs, and to show
    that the assumptions made on a backend can be met. *)
Module Toy.

(** A 32-byte checksum of the length, the first byte and the last two
    bytes of the message, spread over the positions of the digest. *)
Definition checksum (m : bytes) : N :=
  let first := Byte.to_N (hd x00 m) in
  let last1 := Byte.to_N (last m x00) in
  let last2 := Byte.to_N (last (removelast m) x00) in
  (N.of_nat (length m) + 7 * first + (last1 + 3) * (last2 + 5))%N.

Definition digest_byte (h : N) (i : N) : byte :=
  match Byte.of_N (N.land (N.shiftr ((h + 131 * i) * (2 * i + 3)) 2) 255) with
  | Some b => b
  | None => x00
  end.

Definition sha (m : bytes) : bytes :=
  let h := checksum m in
  map (digest_byte h)
      [0; 1; 2; 3; 4; 5; 6; 7; 8; 9; 10; 11; 12; 13; 14; 15; 16; 17; 18; 19; 20;
       21; 22; 23; 24; 25; 26; 27; 28; 29; 30; 31]%N.

Definition encrypt_block (key block : bytes) : bytes := xor_bytes block key.

Definition decrypt_block (key block : bytes) : bytes := xor_bytes block key.

(** A text widget that shows a text as it is given, as Qt does with the
    texts of the examples below: a line of letters and spaces, or
    nothing. *)
Definition show_as_given (text : string) : string := text.

(** The interpreter as it starts: [json.loads] enters 990 containers,
    and [int] converts 4300 digits. *)
Definition toy_backend : backend :=
  mkBackend sha encrypt_block decrypt_block show_as_given 990 4300
    (proj1 (Nat.leb_le 2 990) eq_refl).

(** An entropy source that counts up from [start]. *)
Definition counting (start : nat) : world :=
  mkWorld (fun i => byte_of_nat (start + i)) "1700000000.5".

End Toy.

(* ================================================================== *)
(** * Properties of the library model *)
(* ================================================================== *)

Lemma xor_bits_cancel (a b : bits8) : xor_bits (xor_bits a b) b = a.
Proof.
  destruct a as (a0 & a1 & a2 & a3 & a4 & a5 & a6 & a7).
  destruct b as (b0 & b1 & b2 & b3 & b4 & b5 & b6 & b7).
  cbn. repeat rewrite xorb_assoc, xorb_nilpotent, xorb_false_r. reflexivity.
Qed.

Lemma byte_xor_cancel (a b : byte) : byte_xor (byte_xor a b) b = a.
Proof.
  unfold byte_xor. rewrite Byte.to_bits_of_bits, xor_bits_cancel.
  apply Byte.of_bits_to_bits.
Qed.

Lemma xor_bits_comm (a b : bits8) : xor_bits a b = xor_bits b a.
Proof.
  destruct a as (a0 & a1 & a2 & a3 & a4 & a5 & a6 & a7).
  destruct b as (b0 & b1 & b2 & b3 & b4 & b5 & b6 & b7).
  cbn. rewrite (xorb_comm a0), (xorb_comm a1), (xorb_comm a2), (xorb_comm a3),
    (xorb_comm a4), (xorb_comm a5), (xorb_comm a6), (xorb_comm a7). reflexivity.
Qed.

Lemma xor_bits_assoc (a b c : bits8) :
  xor_bits (xor_bits a b) c = xor_bits a (xor_bits b c).
Proof.
  destruct a as (a0 & a1 & a2 & a3 & a4 & a5 & a6 & a7).
  destruct b as (b0 & b1 & b2 & b3 & b4 & b5 & b6 & b7).
  destruct c as (c0 & c1 & c2 & c3 & c4 & c5 & c6 & c7).
  cbn. rewrite !xorb_assoc. reflexivity.
Qed.

Lemma byte_xor_comm (a b : byte) : byte_xor a b = byte_xor b a.
Proof. unfold byte_xor. now rewrite xor_bits_comm. Qed.

Lemma byte_xor_assoc (a b c : byte) :
  byte_xor (byte_xor a b) c = byte_xor a (byte_xor b c).
Proof.
  unfold byte_xor. now rewrite !Byte.to_bits_of_bits, xor_bits_assoc.
Qed.

Lemma xor_bytes_length (a b : bytes) :
  length (xor_bytes a b) = Nat.min (length a) (length b).
Proof.
  revert b. induction a as [|x a IH]; intros [|y b]; cbn; auto.
Qed.

Lemma xor_bytes_cancel (a b : bytes) :
  length a <= length b -> xor_bytes (xor_bytes a b) b = a.
Proof.
  revert b. induction a as [|x a IH]; intros [|y b] H; cbn in *; try lia; auto.
  rewrite byte_xor_cancel, IH by lia. reflexivity.
Qed.

Lemma flat_map_length_const {A B} (f : A -> list B) (n : nat) (l : list A) :
  (forall x, length (f x) = n) -> length (flat_map f l) = length l * n.
Proof.
  intros H. induction l as [|x l IH]; cbn; auto.
  rewrite length_app, H, IH. reflexivity.
Qed.

Lemma byte_eqb_eq (a b : byte) : byte_eqb a b = true <-> a = b.
Proof.
  unfold byte_eqb. split.
  - apply Byte.byte_dec_bl.
  - apply Byte.byte_dec_lb.
Qed.

Section LibraryProperties.

Variable be : backend.

(** The digest of SHA-256 has 32 bytes. *)
Hypothesis SHA256_length : forall m, length (SHA256 be m) = 32.

Lemma HMAC_length key msg : length (HMAC be key msg) = 32.
Proof. unfold HMAC. apply SHA256_length. Qed.

Lemma pbkdf2_block_length password salt c i :
  length (pbkdf2_block be password salt c i) = 32.
Proof.
  unfold pbkdf2_block.
  set (u1 := HMAC be password (salt ++ int32_be i)).
  assert (Inv : length (fst (N.iter (c - 1) (pbkdf2_round be password) (u1, u1))) = 32
                /\ length (snd (N.iter (c - 1) (pbkdf2_round be password) (u1, u1))) = 32).
  { apply N.iter_invariant.
    - intros [u t] [Hu Ht]. cbn in *. split.
      + apply HMAC_length.
      + rewrite xor_bytes_length, HMAC_length, Ht. reflexivity.
    - cbn. split; apply HMAC_length. }
  apply Inv.
Qed.

(** PBKDF2 returns exactly the number of bytes asked for. *)
Lemma pbkdf2_length password salt c dkLen :
  length (pbkdf2_hmac_sha256 be password salt c dkLen) = dkLen.
Proof.
  unfold pbkdf2_hmac_sha256. rewrite length_firstn.
  rewrite flat_map_length_const with (n := 32)
    by (intros; apply pbkdf2_block_length).
  rewrite length_seq. unfold sha256_digest_size.
  assert (dkLen <= (dkLen + 32 - 1) / 32 * 32).
  { pose proof (Nat.div_mod_eq (dkLen + 32 - 1) 32) as E.
    pose proof (Nat.mod_upper_bound (dkLen + 32 - 1) 32 ltac:(lia)). lia. }
  lia.
Qed.

End LibraryProperties.

(** Proofs never run the key derivation: they use [pbkdf2_length] only. *)
#[global] Opaque pbkdf2_hmac_sha256.
#[global] Strategy opaque [pbkdf2_hmac_sha256].

Lemma draw_length n w : length (draw n w) = n.
Proof. unfold draw. now rewrite length_map, length_seq. Qed.

(** ** CFB: decryption inverts encryption, whatever the block function *)

Lemma cfb_stream_length be key d ks reg data :
  length (cfb_stream be key d ks reg data) = length data.
Proof.
  revert ks reg. induction data as [|x data IH]; intros; cbn; auto.
Qed.

Lemma cfb_round_trip be key ks reg data :
  cfb_stream be key true ks reg (cfb_stream be key false ks reg data) = data.
Proof.
  revert ks reg. induction data as [|x data IH]; intros; cbn; auto.
  rewrite byte_xor_cancel, IH. reflexivity.
Qed.

(** ** PKCS7: what the padder appends, and that the unpadder removes it *)

Definition pkcs7_pad_size (n : nat) : nat := 16 - n mod 16.

Lemma padder_output (data : bytes) :
  let '(head, ctx) := padder_update (padder (PKCS7 128)) data in
  head ++ padder_finalize ctx
  = data ++ repeat (byte_of_nat (pkcs7_pad_size (length data)))
                   (pkcs7_pad_size (length data)).
Proof.
  unfold padder_update, padder_finalize, padder, PKCS7, pkcs7_pad_size.
  change (128 / 8) with 16. cbn [pad_buffer pad_block_size app].
  rewrite app_assoc, firstn_skipn, length_skipn.
  pose proof (Nat.div_mod_eq (length data) 16).
  replace (length data - length data / 16 * 16) with (length data mod 16) by lia.
  reflexivity.
Qed.

Lemma byte_of_nat_to_nat n : n <= 255 -> Byte.to_nat (byte_of_nat n) = n.
Proof.
  intros H. unfold byte_of_nat. rewrite Nat.mod_small by lia.
  destruct (Byte.of_nat n) as [b|] eqn:E.
  - now apply Byte.to_of_nat.
  - apply Byte.of_nat_None_iff in E. lia.
Qed.

Lemma last_repeat {A} (x d : A) n : 0 < n -> last (repeat x n) d = x.
Proof.
  induction n as [|n IH]; intros H; [lia|].
  destruct n as [|n]; [reflexivity|].
  change (repeat x (S (S n))) with (x :: repeat x (S n)).
  change (last (x :: repeat x (S n)) d) with (last (repeat x (S n)) d).
  apply IH. lia.
Qed.

Lemma last_app_nonempty {A} (l1 l2 : list A) d :
  l2 <> [] -> last (l1 ++ l2) d = last l2 d.
Proof.
  intros H. induction l1 as [|x l1 IH]; cbn; auto.
  destruct (l1 ++ l2) eqn:E; [|exact IH].
  apply app_eq_nil in E. tauto.
Qed.

Lemma forallb_repeat (x : byte) n : forallb (byte_eqb x) (repeat x n) = true.
Proof.
  induction n; cbn; auto. rewrite IHn, andb_true_r. now apply byte_eqb_eq.
Qed.

(** A fresh unpadder fed with padded data gives the data back. *)
Lemma unpadder_output (data : bytes) :
  let padded := data ++ repeat (byte_of_nat (pkcs7_pad_size (length data)))
                               (pkcs7_pad_size (length data)) in
  let '(head, ctx) := unpadder_update (unpadder (PKCS7 128)) padded in
  exists tail, unpadder_finalize ctx = Ok tail /\ head ++ tail = data.
Proof.
  unfold unpadder_update, unpadder_finalize, unpadder, PKCS7, pkcs7_pad_size.
  change (128 / 8) with 16. cbn [pad_buffer pad_block_size app].
  set (n := length data). set (p := 16 - n mod 16).
  assert (Hp : 1 <= p <= 16) by (pose proof (Nat.mod_upper_bound n 16); lia).
  pose proof (Nat.div_mod_eq n 16) as Hn.
  set (q := n / 16) in *.
  assert (Hlen : length (data ++ repeat (byte_of_nat p) p) = (q + 1) * 16).
  { rewrite length_app, repeat_length. fold n. lia. }
  rewrite Hlen. replace ((q + 1) * 16 / 16 - 1) with q
    by (rewrite Nat.div_mul by lia; lia).
  assert (Hq : q * 16 <= length data) by (fold n; lia).
  rewrite firstn_app, skipn_app.
  replace (q * 16 - length data) with 0 by lia. cbn [firstn skipn].
  rewrite app_nil_r.
  set (buf := skipn (q * 16) data ++ repeat (byte_of_nat p) p).
  assert (Hbuf : length buf = 16).
  { unfold buf. rewrite length_app, length_skipn, repeat_length. fold n. lia. }
  assert (Hlast : last buf x00 = byte_of_nat p).
  { unfold buf. rewrite last_app_nonempty.
    - apply last_repeat. lia.
    - destruct p; [lia|discriminate]. }
  rewrite Hbuf, Nat.eqb_refl. cbn [negb].
  unfold check_pkcs7_padding. rewrite Hlast, Hbuf, byte_of_nat_to_nat by lia.
  assert (Hskip : skipn (16 - p) buf = repeat (byte_of_nat p) p).
  { unfold buf. rewrite skipn_app, length_skipn. fold n.
    replace (16 - p - (n - q * 16)) with 0 by lia.
    rewrite skipn_all2 by (rewrite length_skipn; fold n; lia). reflexivity. }
  rewrite Hskip, forallb_repeat.
  replace (p =? 0) with false by (symmetry; apply Nat.eqb_neq; lia).
  replace (p <=? 16) with true by (symmetry; apply Nat.leb_le; lia).
  cbn [negb andb].
  eexists. split; [reflexivity|].
  unfold buf. rewrite firstn_app, length_skipn. fold n.
  replace (16 - p - (n - q * 16)) with 0 by lia. cbn [firstn]. rewrite app_nil_r.
  rewrite (firstn_all2 (n := 16 - p)) by (rewrite length_skipn; fold n; lia).
  apply firstn_skipn.
Qed.

(* ================================================================== *)
(** * Properties of the application code *)
(* ================================================================== *)

Section Properties.

Variable be : backend.

(** The assumptions on the backend: SHA-256 returns 32 bytes; under a
    32-byte key the AES block functions map 16 bytes to 16 bytes, and block
    decryption inverts block encryption. *)
Hypothesis SHA256_length : forall m, length (SHA256 be m) = 32.
Hypothesis AES_encrypt_length :
  forall key block, length key = 32 -> length block = 16 ->
    length (AES_encrypt_block be key block) = 16.
Hypothesis AES_decrypt_length :
  forall key block, length key = 32 -> length block = 16 ->
    length (AES_decrypt_block be key block) = 16.
Hypothesis AES_decrypt_encrypt :
  forall key block, length key = 32 -> length block = 16 ->
    AES_decrypt_block be key (AES_encrypt_block be key block) = block.

(** ** Key derivation *)

Lemma derive_length kdf key_material :
  length (derive be kdf key_material) = kdf_length kdf.
Proof. unfold derive. now apply pbkdf2_length. Qed.

Lemma Cipher_CFB_ok key iv :
  length key = 32 -> length iv = 16 ->
  Cipher (algorithms_AES key) (CFB iv) = Ok (mkCipher key (CFB iv)).
Proof.
  intros Hk Hi. unfold Cipher, algorithms_AES. rewrite Hk. cbn. now rewrite Hi.
Qed.

Lemma Cipher_CBC_ok key iv :
  length key = 32 -> length iv = 16 ->
  Cipher (algorithms_AES key) (CBC iv) = Ok (mkCipher key (CBC iv)).
Proof.
  intros Hk Hi. unfold Cipher, algorithms_AES. rewrite Hk. cbn. now rewrite Hi.
Qed.

Lemma Cipher_short_iv key m :
  length key = 32 -> length (mode_iv m) <> 16 ->
  Cipher (algorithms_AES key) m = Raise (ValueError InvalidIVSize).
Proof.
  intros Hk Hi. unfold Cipher, algorithms_AES. rewrite Hk. cbn.
  apply Nat.eqb_neq in Hi. unfold aes_block_len. now rewrite Hi.
Qed.

(** ** CBC: decryption inverts encryption *)

Lemma cbc_encrypt_length key n prev data :
  length key = 32 -> length prev = 16 -> length data = n * 16 ->
  length (cbc_encrypt_blocks be key n prev data) = n * 16.
Proof.
  intros Hk. revert prev data.
  induction n as [|n IH]; intros prev data Hp Hd; cbn [cbc_encrypt_blocks]; auto.
  unfold aes_block_len.
  assert (Hx : length (xor_bytes (firstn 16 data) prev) = 16).
  { rewrite xor_bytes_length, length_firstn. lia. }
  rewrite length_app, AES_encrypt_length by assumption.
  rewrite IH; [lia| |].
  - now apply AES_encrypt_length.
  - rewrite length_skipn. lia.
Qed.

Lemma cbc_round_trip key n prev data :
  length key = 32 -> length prev = 16 -> length data = n * 16 ->
  cbc_decrypt_blocks be key n prev (cbc_encrypt_blocks be key n prev data) = data.
Proof.
  intros Hk. revert prev data.
  induction n as [|n IH]; intros prev data Hp Hd; cbn [cbc_encrypt_blocks cbc_decrypt_blocks].
  - destruct data; [reflexivity|discriminate].
  - unfold aes_block_len.
    assert (Hx : length (xor_bytes (firstn 16 data) prev) = 16).
    { rewrite xor_bytes_length, length_firstn. lia. }
    set (c := AES_encrypt_block be key (xor_bytes (firstn 16 data) prev)).
    assert (Hc : length c = 16) by now apply AES_encrypt_length.
    rewrite firstn_app, skipn_app, Hc, Nat.sub_diag, firstn_O, skipn_O.
    rewrite app_nil_r, firstn_all2, skipn_all2 by lia. cbn [app].
    unfold c at 1. rewrite AES_decrypt_encrypt by assumption.
    rewrite xor_bytes_cancel by (rewrite length_firstn; lia).
    rewrite IH; [apply firstn_skipn|assumption|].
    rewrite length_skipn. lia.
Qed.

(** ** The CFB variants ([durga.py], [AI.py]) *)

(** The key both CFB variants derive from a password and a salt. *)
Definition cfb_key (password : string) (salt : bytes) : bytes :=
  derive be (mkPBKDF2HMAC 32 salt 100000) (encode password).

(** The key [passward.py] derives. *)
Definition cbc_key (password : string) (salt : bytes) : bytes :=
  derive be (mkPBKDF2HMAC 32 salt 390000) (encode password).

Lemma cfb_key_length password salt : length (cfb_key password salt) = 32.
Proof. apply derive_length. Qed.

Lemma cbc_key_length password salt : length (cbc_key password salt) = 32.
Proof. apply derive_length. Qed.

Lemma durga_generate_key_run password salt w :
  durga.generate_key be password salt w = (Ok (cfb_key password salt), w).
Proof. unfold durga.generate_key, ret, cfb_key. reflexivity. Qed.

Lemma passward_generate_key_run password salt w :
  passward.generate_key be password salt w = (Ok (cbc_key password salt), w).
Proof. unfold passward.generate_key, ret, cbc_key. reflexivity. Qed.

(** The container [encrypt_data] returns in world [w]: it draws the salt,
    then the IV, and returns [salt + iv + ciphertext]. *)
Definition cfb_container (data : bytes) (password : string) (w : world) : bytes :=
  let salt := draw 16 w in
  let iv := draw 16 (advance 16 w) in
  salt ++ iv ++ cfb_stream be (cfb_key password salt) false [] iv data.

Lemma durga_encrypt_data_run data password w :
  durga.encrypt_data be data password w =
  (Ok (cfb_container data password w), advance 16 (advance 16 w)).
Proof.
  unfold durga.encrypt_data, bind, os_urandom.
  rewrite durga_generate_key_run. unfold lift, ret.
  rewrite Cipher_CFB_ok by (apply cfb_key_length || apply draw_length).
  reflexivity.
Qed.

Lemma cfb_container_length data password w :
  length (cfb_container data password w) = 32 + length data.
Proof.
  unfold cfb_container. rewrite !length_app, !draw_length, cfb_stream_length. lia.
Qed.

Lemma durga_decrypt_data_run encrypted_data password w :
  32 <= length encrypted_data ->
  durga.decrypt_data be encrypted_data password w =
  (Ok (cfb_stream be (cfb_key password (firstn 16 encrypted_data)) true []
         (firstn 16 (skipn 16 encrypted_data)) (skipn 32 encrypted_data)),
   w).
Proof.
  intros H.
  unfold durga.decrypt_data, bind.
  rewrite durga_generate_key_run. unfold lift.
  rewrite Cipher_CFB_ok; [reflexivity|apply cfb_key_length|].
  rewrite length_firstn, length_skipn. lia.
Qed.

(** A container shorter than 32 bytes has no full IV: the [Cipher]
    constructor raises. *)
Lemma durga_decrypt_data_short encrypted_data password w :
  length encrypted_data < 32 ->
  durga.decrypt_data be encrypted_data password w
  = (Raise (ValueError InvalidIVSize), w).
Proof.
  intros H.
  unfold durga.decrypt_data, bind.
  rewrite durga_generate_key_run. unfold lift.
  rewrite Cipher_short_iv; [reflexivity|apply cfb_key_length|].
  cbn [mode_iv]. rewrite length_firstn, length_skipn. lia.
Qed.

(** [AI.py] has the same three functions as [durga.py]. *)
Lemma AI_is_durga_encrypt : AI.encrypt_data be = durga.encrypt_data be.
Proof.
  unfold AI.encrypt_data, durga.encrypt_data, AI.generate_key, durga.generate_key.
  reflexivity.
Qed.

Lemma AI_is_durga_decrypt : AI.decrypt_data be = durga.decrypt_data be.
Proof.
  unfold AI.decrypt_data, durga.decrypt_data, AI.generate_key, durga.generate_key.
  reflexivity.
Qed.

Lemma split_container (salt iv body : bytes) :
  length salt = 16 -> length iv = 16 ->
  firstn 16 (salt ++ iv ++ body) = salt
  /\ firstn 16 (skipn 16 (salt ++ iv ++ body)) = iv
  /\ skipn 32 (salt ++ iv ++ body) = body.
Proof.
  intros Hs Hi. repeat split.
  - rewrite firstn_app, Hs, Nat.sub_diag, firstn_O, app_nil_r.
    apply firstn_all2. lia.
  - rewrite skipn_app, Hs, Nat.sub_diag, skipn_O, skipn_all2 by lia. cbn [app].
    rewrite firstn_app, Hi, Nat.sub_diag, firstn_O, app_nil_r.
    apply firstn_all2. lia.
  - rewrite skipn_app, Hs. rewrite skipn_all2 by lia. cbn [app].
    change (32 - 16) with 16.
    rewrite skipn_app, Hi, Nat.sub_diag, skipn_O, skipn_all2 by lia. reflexivity.
Qed.

(** What [decrypt_data] returns on the output of [encrypt_data] under any
    password [password2]: the salt and the IV are read back, the body is
    run through the CFB stream of the key derived from [password2]. *)
Lemma durga_decrypt_sealed data password password2 w w2 :
  let salt := draw 16 w in
  let iv := draw 16 (advance 16 w) in
  durga.decrypt_data be (cfb_container data password w) password2 w2 =
  (Ok (cfb_stream be (cfb_key password2 salt) true [] iv
         (cfb_stream be (cfb_key password salt) false [] iv data)), w2).
Proof.
  intros salt iv.
  rewrite durga_decrypt_data_run by (rewrite cfb_container_length; lia).
  unfold cfb_container. fold salt iv.
  destruct (split_container salt iv
              (cfb_stream be (cfb_key password salt) false [] iv data))
    as (E1 & E2 & E3); try apply draw_length.
  now rewrite E1, E2, E3.
Qed.

(** ** The CBC variant ([passward.py]) *)

(** PKCS7 padding to blocks of 16 bytes. *)
Definition pkcs7_pad (data : bytes) : bytes :=
  data ++ repeat (byte_of_nat (pkcs7_pad_size (length data)))
                 (pkcs7_pad_size (length data)).

Lemma pkcs7_pad_length data :
  length (pkcs7_pad data) = (length data / 16 + 1) * 16.
Proof.
  unfold pkcs7_pad, pkcs7_pad_size. rewrite length_app, repeat_length.
  pose proof (Nat.div_mod_eq (length data) 16).
  pose proof (Nat.mod_upper_bound (length data) 16). lia.
Qed.

Lemma pkcs7_pad_blocks data :
  length (pkcs7_pad data) mod 16 = 0
  /\ length (pkcs7_pad data) / 16 = length data / 16 + 1.
Proof.
  rewrite pkcs7_pad_length. split.
  - apply Nat.Div0.mod_mul.
  - apply Nat.div_mul. lia.
Qed.

(** AES-CBC of the padded data. *)
Definition cbc_encrypt (key iv data : bytes) : bytes :=
  cbc_encrypt_blocks be key (length data / 16 + 1) iv (pkcs7_pad data).

Lemma cbc_encrypt_total_length key iv data :
  length key = 32 -> length iv = 16 ->
  length (cbc_encrypt key iv data) = (length data / 16 + 1) * 16.
Proof.
  intros. unfold cbc_encrypt. apply cbc_encrypt_length; auto.
  apply pkcs7_pad_length.
Qed.

Lemma passward_encrypt_data_run data key w :
  length key = 32 ->
  passward.encrypt_data be data key w =
  (Ok (cbc_encrypt key (draw 16 w) data, draw 16 w), advance 16 w).
Proof.
  intros Hk. unfold passward.encrypt_data, bind, os_urandom.
  pose proof (padder_output data) as Hp.
  destruct (padder_update (padder (PKCS7 128)) data) as [head ctx].
  rewrite Hp. fold (pkcs7_pad data). unfold lift.
  rewrite Cipher_CBC_ok by (assumption || apply draw_length).
  unfold encryptor_update_finalize. cbn [cipher_mode cipher_key].
  destruct (pkcs7_pad_blocks data) as [Hm Hd].
  unfold aes_block_len. rewrite Hm, Hd. reflexivity.
Qed.

(** [decrypt_data] on a ciphertext made by [encrypt_data] under the same
    key and IV returns the data. *)
Lemma passward_decrypt_data_run data key iv w :
  length key = 32 -> length iv = 16 ->
  passward.decrypt_data be (cbc_encrypt key iv data) key iv w = (Ok data, w).
Proof.
  intros Hk Hi. unfold passward.decrypt_data, bind, lift.
  rewrite Cipher_CBC_ok by assumption.
  unfold decryptor_update_finalize. cbn [cipher_mode cipher_key].
  rewrite cbc_encrypt_total_length by assumption.
  unfold aes_block_len. rewrite Nat.Div0.mod_mul, Nat.div_mul by lia.
  cbn [Nat.eqb]. unfold cbc_encrypt.
  rewrite cbc_round_trip by (auto; apply pkcs7_pad_length).
  pose proof (unpadder_output data) as Hu. cbv zeta in Hu.
  fold (pkcs7_pad data) in Hu.
  destruct (unpadder_update (unpadder (PKCS7 128)) (pkcs7_pad data)) as [head ctx].
  destruct Hu as (tail & -> & <-). reflexivity.
Qed.

(** Two fresh padders, [update] on the first and [finalize] on the second,
    happen to pad a 32-byte key correctly: the key is a whole number of
    blocks. *)
Lemma padded_key_is_pkcs7 (key : bytes) :
  length key = 32 ->
  fst (padder_update (padder (PKCS7 128)) key) ++ padder_finalize (padder (PKCS7 128))
  = pkcs7_pad key.
Proof.
  intros Hk. unfold padder_update, padder_finalize, padder, PKCS7, pkcs7_pad,
    pkcs7_pad_size.
  change (128 / 8) with 16. cbn [pad_buffer pad_block_size app fst length].
  rewrite Hk. change (32 / 16 * 16) with 32. change (16 - 32 mod 16) with 16.
  rewrite firstn_all2 by lia. reflexivity.
Qed.

(** The values [seal] computes in world [w]: four draws of 16 bytes, in the
    order salt, IV, recovery key, recovery salt. *)
Definition sealed_in (data : bytes) (password : string) (w : world)
  : passward.sealed :=
  let salt := draw 16 w in
  let key := cbc_key password salt in
  let iv := draw 16 (advance 16 w) in
  let recovery_key := urlsafe_b64encode (draw 16 (advance 16 (advance 16 w))) in
  let recovery_salt := draw 16 (advance 16 (advance 16 (advance 16 w))) in
  let recovery_key_bytes := cbc_key recovery_key recovery_salt in
  passward.mkSealed salt key iv (cbc_encrypt key iv data)
    recovery_key recovery_salt recovery_key_bytes
    (cbc_encrypt recovery_key_bytes iv key).

Lemma passward_seal_run data password w :
  passward.seal be data password w =
  (Ok (sealed_in data password w),
   advance 16 (advance 16 (advance 16 (advance 16 w)))).
Proof.
  unfold passward.seal. unfold bind at 1. unfold os_urandom at 1.
  unfold bind at 1. rewrite passward_generate_key_run.
  unfold bind at 1. rewrite passward_encrypt_data_run by apply cbc_key_length.
  unfold bind at 1. unfold passward.generate_recovery_key, bind at 1, os_urandom at 1, ret at 1.
  unfold bind at 1, os_urandom at 1.
  unfold bind at 1. rewrite passward_generate_key_run.
  unfold bind at 1, lift at 1.
  rewrite Cipher_CBC_ok by (apply cbc_key_length || apply draw_length).
  rewrite padded_key_is_pkcs7 by apply cbc_key_length.
  unfold bind, lift, ret, encryptor_update_finalize. cbn [cipher_mode cipher_key].
  destruct (pkcs7_pad_blocks (cbc_key password (draw 16 w))) as [Hm Hd].
  unfold aes_block_len. rewrite Hm, Hd. reflexivity.
Qed.

(* ================================================================== *)
(** * The claims *)
(* ================================================================== *)

(** C7. Key derivation is a deterministic function of the password and the
    salt, and its result has exactly 32 bytes: in each variant
    [generate_key] returns, in every world and without changing it (no
    randomness is drawn, nothing is raised), one and the same 32-byte key.
    The two CFB variants share their key (100000 iterations), [passward.py]
    has its own (390000 iterations). The salt may have any length, 16
    bytes included. *)
Theorem generate_key_deterministic (password : string) (salt : bytes) :
  (exists key, length key = 32
     /\ (forall w, durga.generate_key be password salt w = (Ok key, w))
     /\ (forall w, AI.generate_key be password salt w = (Ok key, w)))
  /\ (exists key, length key = 32
     /\ (forall w, passward.generate_key be password salt w = (Ok key, w))).
Proof.
  split.
  - exists (cfb_key password salt). split; [apply cfb_key_length|].
    split; intros w; [apply durga_generate_key_run|].
    unfold AI.generate_key, ret, cfb_key. reflexivity.
  - exists (cbc_key password salt). split; [apply cbc_key_length|].
    intros w. apply passward_generate_key_run.
Qed.

Lemma durga_decrypt_text_run encrypted_data password w :
  32 <= length encrypted_data ->
  durga.decrypt_text be encrypted_data password w =
  (decode (cfb_stream be (cfb_key password (firstn 16 encrypted_data)) true []
             (firstn 16 (skipn 16 encrypted_data)) (skipn 32 encrypted_data)),
   w).
Proof.
  intros H. unfold durga.decrypt_text, bind.
  rewrite durga_decrypt_data_run by assumption. reflexivity.
Qed.

(** C10. In the CFB variants [decrypt_data] is total on input of at least
    32 bytes: for every password it returns a byte string (32 bytes
    shorter than the input) and raises nothing, in [durga.py] and in
    [AI.py] alike. A wrong key is not detected there: the only step of the
    caller's attempt that can fail is the UTF-8 decoding of the result. *)
Theorem cfb_decrypt_data_total (encrypted_data : bytes) (password : string)
    (w : world) :
  32 <= length encrypted_data ->
  exists out,
    length out = length encrypted_data - 32
    /\ durga.decrypt_data be encrypted_data password w = (Ok out, w)
    /\ AI.decrypt_data be encrypted_data password w = (Ok out, w)
    /\ durga.decrypt_text be encrypted_data password w = (decode out, w).
Proof.
  intros H. eexists. split; [|split; [|split]].
  2: apply durga_decrypt_data_run; assumption.
  2: rewrite AI_is_durga_decrypt; apply durga_decrypt_data_run; assumption.
  2: apply durga_decrypt_text_run; assumption.
  rewrite cfb_stream_length, length_skipn. reflexivity.
Qed.

(** C1. Password round trip. In the CFB variants ([durga.py], [AI.py]),
    [encrypt_data] returns a container in every world, and [decrypt_data]
    with the same password returns the plaintext from it, at any later
    time. In [passward.py], [seal] (the computation of [encrypt_file])
    returns its values in every world, and the password branch of
    [decrypt_file] run on the stored salt, IV and ciphertext with the same
    password returns the plaintext. This holds for every byte string and
    every password. *)
Theorem password_round_trip (data : bytes) (password : string) (w : world) :
  (exists container w',
     durga.encrypt_data be data password w = (Ok container, w')
     /\ AI.encrypt_data be data password w = (Ok container, w')
     /\ forall w2,
          durga.decrypt_data be container password w2 = (Ok data, w2)
          /\ AI.decrypt_data be container password w2 = (Ok data, w2))
  /\ (exists s w',
     passward.seal be data password w = (Ok s, w')
     /\ forall w2,
          passward.decrypt_with_password be
            (passward.salt s) (passward.iv s) (passward.encrypted s) password w2
          = (Ok data, w2)).
Proof.
  split.
  - exists (cfb_container data password w), (advance 16 (advance 16 w)).
    split; [apply durga_encrypt_data_run|].
    split; [rewrite AI_is_durga_encrypt; apply durga_encrypt_data_run|].
    intros w2. rewrite AI_is_durga_decrypt.
    rewrite durga_decrypt_sealed. cbv zeta. rewrite cfb_round_trip. auto.
  - exists (sealed_in data password w),
      (advance 16 (advance 16 (advance 16 (advance 16 w)))).
    split; [apply passward_seal_run|].
    intros w2. unfold sealed_in. cbn [passward.salt passward.iv passward.encrypted].
    unfold passward.decrypt_with_password, bind.
    rewrite passward_generate_key_run.
    apply passward_decrypt_data_run; [apply cbc_key_length|apply draw_length].
Qed.

(** ** The recovery paths *)

(** The password attempt of [durga.py] is a function of the container and
    the password alone: the same attempt has the same result, whenever it
    is made. No assumption on the backend is needed. *)
Lemma durga_decrypt_text_pure encrypted_data password :
  exists r, forall w, durga.decrypt_text be encrypted_data password w = (r, w).
Proof.
  unfold durga.decrypt_text, durga.decrypt_data, durga.generate_key, bind, ret, lift.
  destruct (Cipher _ _) as [c|e]; [|eexists; intros; reflexivity].
  destruct (decryptor_update_finalize be c _); eexists; intros; reflexivity.
Qed.

Lemma durga_decrypt_data_pure encrypted_data password :
  exists r, forall w, durga.decrypt_data be encrypted_data password w = (r, w).
Proof.
  unfold durga.decrypt_data, durga.generate_key, bind, ret, lift.
  destruct (Cipher _ _) as [c|e]; eexists; intros; reflexivity.
Qed.

Definition decryption_successful : message_box :=
  Information "Decryption Successful" "File decrypted successfully.".

Definition recovery_failed : message_box :=
  Critical "Recovery Failed" "Invalid recovery key.".

Definition decryption_error (e : exn) : message_box :=
  CriticalError "Decryption Error" "Error while opening encrypted file:" e.

(** Every run of [open_encrypted_file] of [durga.py] ends in one of four
    ways: the password attempt succeeded; nothing happened; the recovery
    key was refused; an error box. After an accepted recovery key the
    second [decrypt_data] runs with the password that has just failed and
    fails again. *)
Lemma durga_open_outcomes self file answers w :
  exists eff self' w',
    durga.open_encrypted_file be self file answers w = (Ok (eff, self'), w')
    /\ (eff = show decryption_successful
        \/ self' = self
           /\ (eff = nothing \/ eff = show recovery_failed
               \/ exists e, eff = show (decryption_error e))).
Proof.
  unfold durga.open_encrypted_file.
  destruct file as [content|]; [|do 3 eexists; split; [reflexivity|auto]].
  unfold try_except at 1, bind at 1, lift at 1.
  destruct (durga.read_container be content) as [[stored encrypted_data]|e].
  2: { do 3 eexists. split; [reflexivity|]. right. split; [reflexivity|].
       right. right. eexists. reflexivity. }
  destruct (negb (dialog_ok (durga.ask_password answers))
            || negb (truthy (dialog_text (durga.ask_password answers)))).
  { do 3 eexists. split; [reflexivity|auto]. }
  destruct (durga_decrypt_text_pure encrypted_data
              (dialog_text (durga.ask_password answers))) as [r Hr].
  unfold try_except, bind. rewrite Hr.
  destruct r as [text|e].
  { do 3 eexists. split; [reflexivity|auto]. }
  destruct (durga.ask_use_recovery answers).
  2: { do 3 eexists. split; [reflexivity|auto]. }
  destruct (durga.recovery_accepted _ _).
  2: { do 3 eexists. split; [reflexivity|auto]. }
  destruct (dialog_ok (durga.ask_new_password answers)
            && truthy (dialog_text (durga.ask_new_password answers))).
  2: { do 3 eexists. split; [reflexivity|auto]. }
  rewrite Hr. do 3 eexists. split; [reflexivity|]. right. split; [reflexivity|].
  right. right. eexists. reflexivity.
Qed.

(** A fresh unpadder holds no data: its [finalize] raises. *)
Lemma fresh_unpadder_finalize :
  unpadder_finalize (unpadder (PKCS7 128)) = Raise (ValueError InvalidPaddingBytes).
Proof. reflexivity. Qed.

(** The recovery branch of [decrypt_file] of [passward.py] raises on every
    input: whatever comes before, [finalize] is called on a fresh
    unpadder. *)
Lemma passward_recovery_branch_raises content iv encrypted_data recovery_key w :
  exists e,
    passward.decrypt_with_recovery_key be content iv encrypted_data recovery_key w
    = (Raise e, w).
Proof.
  unfold passward.decrypt_with_recovery_key, passward.generate_key, bind, lift, ret.
  destruct (json_getitem content "recovery") as [recovery|e]; [|eauto].
  destruct (v <-r json_getitem recovery "salt" ;; b64decode v) as [rs|e]; [|eauto].
  destruct (v <-r json_getitem recovery "encrypted_key" ;; b64decode v)
    as [ek|e]; [|eauto].
  destruct (Cipher _ _) as [c|e]; [|eauto].
  destruct (decryptor_update_finalize be c ek) as [pk|e]; [|eauto].
  rewrite fresh_unpadder_finalize. eauto.
Qed.

Definition invalid_recovery_key : message_box :=
  Critical "Error" "Invalid recovery key or file corrupted.".

(** With the method [Recovery Key], [decrypt_file] writes no file: it
    leaves by an exception of the parse, does nothing, or shows the error
    box. *)
Lemma passward_recovery_outcomes file ok secret save_path w :
  let answers := passward.mkDecryptAnswers passward.RecoveryKey ok secret save_path in
  exists r, passward.decrypt_file be file answers w = (r, w)
    /\ ((exists e, r = Raise e) \/ r = Ok nothing \/ r = Ok (show invalid_recovery_key)).
Proof.
  cbv zeta. unfold passward.decrypt_file.
  destruct file as [raw|]; [|eexists; split; [reflexivity|auto]].
  unfold bind at 1, lift at 1. destruct (decode raw) as [text|e].
  2: { eexists; split; [reflexivity|eauto]. }
  unfold bind at 1, lift at 1. destruct (json_loads be text) as [content|e].
  2: { eexists; split; [reflexivity|eauto]. }
  unfold bind at 1, lift at 1.
  destruct (v <-r json_getitem content "salt" ;; b64decode v) as [salt|e].
  2: { eexists; split; [reflexivity|eauto]. }
  unfold bind at 1, lift at 1.
  destruct (v <-r json_getitem content "iv" ;; b64decode v) as [iv|e].
  2: { eexists; split; [reflexivity|eauto]. }
  unfold bind at 1, lift at 1.
  destruct (v <-r json_getitem content "encrypted_data" ;; b64decode v) as [enc|e].
  2: { eexists; split; [reflexivity|eauto]. }
  cbn [passward.ask_method_ok passward.ask_secret passward.ask_method
       passward.ask_save_path].
  destruct ok; cbn [negb]; [|eexists; split; [reflexivity|auto]].
  destruct (dialog_ok secret); cbn [negb]; [|eexists; split; [reflexivity|auto]].
  destruct (passward_recovery_branch_raises content iv enc (dialog_text secret) w)
    as [e He].
  unfold bind at 1, try_except at 1. unfold bind at 1. rewrite He.
  eexists; split; [reflexivity|auto].
Qed.

(** C2. The recovery round trip does not hold in the code. In [passward.py],
    [decrypt_file] with the method [Recovery Key] never writes decrypted
    data, whatever file and recovery key it is given, the container and
    recovery key of one [encrypt_file] included. In [durga.py],
    [open_encrypted_file] never reaches [Recovery Successful]: the editor
    changes only when the password attempt itself succeeds. *)
Theorem recovery_path_never_returns_plaintext :
  (forall file ok secret save_path w,
     exists r,
       passward.decrypt_file be file
         (passward.mkDecryptAnswers passward.RecoveryKey ok secret save_path) w
       = (r, w)
       /\ ((exists e, r = Raise e) \/ r = Ok nothing
           \/ r = Ok (show invalid_recovery_key)))
  /\ (forall self file answers w,
     exists eff self' w',
       durga.open_encrypted_file be self file answers w = (Ok (eff, self'), w')
       /\ (eff = show decryption_successful
           \/ self' = self
              /\ (eff = nothing \/ eff = show recovery_failed
                  \/ exists e, eff = show (decryption_error e)))).
Proof.
  split.
  - intros. apply passward_recovery_outcomes.
  - intros. apply durga_open_outcomes.
Qed.

(** ** The recovery key of [durga.py] *)

Lemma truthy_iff (s : string) : truthy s = true <-> s <> ""%string.
Proof.
  unfold truthy. rewrite negb_true_iff. split.
  - intros H ->. discriminate.
  - intros H. destruct s; [contradiction|reflexivity].
Qed.

Lemma str_eq_json_iff (s : string) (v : json) :
  durga.str_eq_json s v = true <-> v = JStr s.
Proof.
  unfold durga.str_eq_json. destruct v; try (split; [discriminate|congruence]).
  rewrite String.eqb_eq. split; congruence.
Qed.

(** The condition of the recovery branch: the dialog was confirmed, the
    text is not empty, and the stored value is that very string. *)
Lemma recovery_accepted_iff (answer : input_dialog) (stored : json) :
  durga.recovery_accepted answer stored = true
  <-> dialog_ok answer = true
      /\ dialog_text answer <> ""%string
      /\ stored = JStr (dialog_text answer).
Proof.
  unfold durga.recovery_accepted.
  rewrite !andb_true_iff, truthy_iff, str_eq_json_iff. tauto.
Qed.

(** C9, as amended. In [durga.py], once the password attempt has failed
    and the user chose to use the recovery key, the candidate is refused
    (the box [Recovery Failed]) exactly when it is not the case that the
    dialog was confirmed with a non-empty text that is string-equal to
    the [recovery_key] field read from the header. The field is read by
    [read_container], which takes the bytes of the file and nothing else
    (but the limits of [json.loads]): no key and no decryption take
    part. An empty candidate is refused whatever the field holds. *)
Theorem recovery_key_acceptance (self : editor) (content : bytes)
    (answers : durga.open_answers) (w : world)
    (stored : json) (encrypted_data : bytes) (e : exn) :
  durga.read_container be content = Ok (stored, encrypted_data) ->
  dialog_ok (durga.ask_password answers) = true ->
  dialog_text (durga.ask_password answers) <> ""%string ->
  fst (durga.decrypt_text be encrypted_data
         (dialog_text (durga.ask_password answers)) w) = Raise e ->
  durga.ask_use_recovery answers = true ->
  (durga.open_encrypted_file be self (Some content) answers w
     = (Ok (show recovery_failed, self), w)
   <-> ~ (dialog_ok (durga.ask_recovery answers) = true
          /\ dialog_text (durga.ask_recovery answers) <> ""%string
          /\ stored = JStr (dialog_text (durga.ask_recovery answers)))).
Proof.
  intros Hread Hok Hpw Hfail Huse.
  rewrite <- recovery_accepted_iff.
  unfold durga.open_encrypted_file, try_except at 1, bind at 1, lift at 1.
  rewrite Hread, Hok. apply truthy_iff in Hpw. rewrite Hpw. cbn [negb orb].
  destruct (durga_decrypt_text_pure encrypted_data
              (dialog_text (durga.ask_password answers))) as [r Hr].
  rewrite Hr in Hfail. cbn [fst] in Hfail. subst r.
  unfold try_except, bind. rewrite Hr, Huse.
  destruct (durga.recovery_accepted (durga.ask_recovery answers) stored).
  - split; [|intros H; exfalso; now apply H].
    destruct (dialog_ok (durga.ask_new_password answers)
              && truthy (dialog_text (durga.ask_new_password answers)));
      [rewrite Hr|]; unfold ret; intros H; discriminate H.
  - split; [intros _ H; discriminate H|reflexivity].
Qed.

(** ** Saving and the state of the editor *)

Lemma encode_json_dumps (obj : json) : encode (json_dumps obj) = json_dumps_bytes obj.
Proof. apply list_byte_of_string_of_list_byte. Qed.

(** The header [save_encrypted_file] of [durga.py] writes for an editor. *)
Definition durga_header (self : editor) (w : world) : bytes :=
  json_dumps_bytes
    (JDict [("recovery_key"%string, recovery_key self);
            ("created_at"%string, JNum (clock w))]).

Definition encryption_successful : message_box :=
  Information "Encryption Successful" "File encrypted and saved successfully.".

Definition encryption_error (e : exn) : message_box :=
  CriticalError "Encryption Error" "Error while encrypting file:" e.

(** With a password on the editor and a path chosen, [save_encrypted_file]
    encrypts the text under the stored password and writes the length of
    the header, the header (which holds the stored recovery key) and the
    container. *)
Lemma durga_save_run (self : editor) (password : string) (w : world) :
  current_password self = Some password -> password <> ""%string ->
  durga.save_encrypted_file be self true w =
  (Ok (match durga.write_container (durga_header self w)
               (cfb_container (encode (text_edit self)) password w) with
       | Ok content => mkEffects [encryption_successful] (Some content)
       | Raise e => mkEffects [encryption_error e] (Some [])
       end),
   advance 16 (advance 16 w)).
Proof.
  intros Hp Hne. apply truthy_iff in Hne.
  unfold durga.save_encrypted_file. rewrite Hp. cbn [truthy_opt]. rewrite Hne.
  cbn [negb]. unfold try_except, bind at 1.
  rewrite durga_encrypt_data_run. unfold bind, time_time, ret.
  cbn [clock advance]. rewrite encode_json_dumps. fold (durga_header self w).
  destruct (durga.write_container _ _); reflexivity.
Qed.

(** The same for [AI.py], whose file is the container alone. *)
Lemma AI_save_run (self : editor) (password : string) (w : world) :
  current_password self = Some password -> password <> ""%string ->
  AI.save_encrypted_file be self true w =
  (Ok (mkEffects [] (Some (cfb_container (encode (text_edit self)) password w))),
   advance 16 (advance 16 w)).
Proof.
  intros Hp Hne. apply truthy_iff in Hne.
  unfold AI.save_encrypted_file. rewrite Hp. cbn [truthy_opt]. rewrite Hne.
  cbn [negb]. unfold bind. rewrite AI_is_durga_encrypt, durga_encrypt_data_run.
  reflexivity.
Qed.

(** Without a password on the editor nothing is encrypted. *)
Lemma durga_save_without_password (self : editor) (path_chosen : bool) (w : world) :
  current_password self = None ->
  durga.save_encrypted_file be self path_chosen w =
  (Ok (show (Warning "Password Error" "Please set a password first.")), w).
Proof. intros H. unfold durga.save_encrypted_file. now rewrite H. Qed.

Lemma durga_set_password_run (self : editor) (password : string) (w : world) :
  password <> ""%string ->
  exists box,
    durga.set_password self (mkInput password true) w =
    (Ok (show box, mkEditor (text_edit self) (Some password)
                            (JStr (hexlify (draw 16 w)))),
     advance 16 w).
Proof.
  intros Hne. apply truthy_iff in Hne.
  unfold durga.set_password. cbn [dialog_ok dialog_text andb]. rewrite Hne.
  eexists. reflexivity.
Qed.

Lemma AI_set_password_run (self : editor) (password : string) (w : world) :
  password <> ""%string ->
  exists box,
    AI.set_password self (mkInput password true) w =
    (Ok (show box, mkEditor (text_edit self) (Some password)
                            (JStr (urlsafe_b64encode (draw 16 w)))),
     advance 16 w).
Proof.
  intros Hne. apply truthy_iff in Hne.
  unfold AI.set_password. cbn [dialog_ok dialog_text andb]. rewrite Hne.
  eexists. reflexivity.
Qed.

(** A successful password attempt of [open_encrypted_file] stores the
    password and the recovery key of the file on the editor. *)
Lemma durga_open_success (self : editor) (content : bytes) (answers : durga.open_answers)
    (w : world) (stored : json) (encrypted_data : bytes) (text : string) :
  durga.read_container be content = Ok (stored, encrypted_data) ->
  dialog_ok (durga.ask_password answers) = true ->
  dialog_text (durga.ask_password answers) <> ""%string ->
  durga.decrypt_text be encrypted_data (dialog_text (durga.ask_password answers)) w
    = (Ok text, w) ->
  durga.open_encrypted_file be self (Some content) answers w =
  (Ok (show decryption_successful,
       mkEditor (setText be text)
         (Some (dialog_text (durga.ask_password answers))) stored), w).
Proof.
  intros Hread Hok Hpw Hdec. apply truthy_iff in Hpw.
  unfold durga.open_encrypted_file, try_except at 1, bind at 1, lift at 1.
  rewrite Hread, Hok, Hpw. cbn [negb orb].
  unfold try_except, bind. rewrite Hdec. reflexivity.
Qed.

(** ** What a container holds *)

Lemma is_prefix_app (x rest : bytes) : is_prefix x (x ++ rest) = true.
Proof.
  induction x as [|b x IH]; cbn; auto.
  rewrite IH, andb_true_r. now apply byte_eqb_eq.
Qed.

Lemma occurs_in_here (x rest : bytes) : occurs_in x (x ++ rest) = true.
Proof.
  destruct (x ++ rest) eqn:E; cbn; rewrite <- E, is_prefix_app; reflexivity.
Qed.

Lemma occurs_in_app_r (x pre l : bytes) :
  occurs_in x l = true -> occurs_in x (pre ++ l) = true.
Proof.
  intros H. induction pre as [|b pre IH]; cbn [app]; auto.
  cbn [occurs_in]. rewrite IH. apply orb_true_r.
Qed.

Lemma occurs_in_middle (x pre post : bytes) : occurs_in x (pre ++ x ++ post) = true.
Proof. apply occurs_in_app_r, occurs_in_here. Qed.

Lemma is_prefix_split (x l : bytes) :
  is_prefix x l = true -> exists post, l = x ++ post.
Proof.
  revert l. induction x as [|b x IH]; intros l H; [now exists l|].
  destruct l as [|c l]; [discriminate|]. cbn [is_prefix] in H.
  apply andb_true_iff in H as [Hb Hl]. apply byte_eqb_eq in Hb as ->.
  destruct (IH l Hl) as [post ->]. now exists post.
Qed.

(** [occurs_in] is the substring relation. *)
Lemma occurs_in_iff (x l : bytes) :
  occurs_in x l = true <-> exists pre post, l = pre ++ x ++ post.
Proof.
  split.
  - induction l as [|c l IH]; cbn [occurs_in]; rewrite orb_true_iff.
    + intros [H|H]; [|discriminate].
      apply is_prefix_split in H as [post ->]. now exists [], post.
    + intros [H|H].
      * apply is_prefix_split in H as [post ->]. now exists [], post.
      * destruct (IH H) as (pre & post & ->). now exists (c :: pre), post.
  - intros (pre & post & ->). apply occurs_in_middle.
Qed.

(** The header of [durga.py] spells out the stored recovery key. *)
Lemma durga_header_holds_key (self : editor) (w : world) :
  exists pre post,
    durga_header self w = pre ++ json_dumps_bytes (recovery_key self) ++ post.
Proof.
  unfold durga_header. cbn [json_dumps_bytes].
  exists (x7b :: json_dumps_str "recovery_key" ++ encode ": "),
         (encode ", " ++ (json_dumps_str "created_at" ++ encode ": "
                          ++ json_dumps_bytes (JNum (clock w))) ++ [x7d]).
  cbn [app]. f_equal. rewrite <- !app_assoc. reflexivity.
Qed.

(** Bytes that [json.dumps] writes as they are: printable ASCII other
    than the quote and the backslash. *)
Definition json_plain (b : byte) : bool :=
  byte_in 32 126 b && negb (byte_eqb b x22) && negb (byte_eqb b x5c).

Lemma json_plain_code_points (l : bytes) :
  forallb json_plain l = true -> utf8_code_points l = Some (map Byte.to_N l).
Proof.
  induction l as [|b l IH]; cbn [forallb map]; [reflexivity|].
  rewrite andb_true_iff. intros [Hb Hl]. cbn [utf8_code_points].
  rewrite IH by assumption.
  replace (Byte.to_N b <? 128)%N with true; [reflexivity|].
  symmetry. apply N.ltb_lt. unfold json_plain, byte_in in Hb.
  rewrite !andb_true_iff in Hb. destruct Hb as [[[_ Hb] _] _].
  apply N.leb_le in Hb. clear - Hb. lia.
Qed.

Lemma json_plain_str_code_points (l : bytes) :
  forallb json_plain l = true -> str_code_points l = Some (map Byte.to_N l).
Proof.
  induction l as [|b l IH]; cbn [forallb map]; [reflexivity|].
  rewrite andb_true_iff. intros [Hb Hl]. cbn [str_code_points].
  rewrite IH by assumption.
  replace (Byte.to_N b <? 128)%N with true; [reflexivity|].
  symmetry. apply N.ltb_lt. unfold json_plain, byte_in in Hb.
  rewrite !andb_true_iff in Hb. destruct Hb as [[[_ Hb] _] _].
  apply N.leb_le in Hb. clear - Hb. lia.
Qed.

Lemma json_plain_escape (b : byte) :
  json_plain b = true -> json_escape_code_point (Byte.to_N b) = [b].
Proof. destruct b; intros H; try discriminate H; reflexivity. Qed.

Lemma json_dumps_plain (s : bytes) :
  forallb json_plain s = true ->
  json_dumps_str (string_of_list_byte s) = x22 :: s ++ [x22].
Proof.
  intros H. unfold json_dumps_str, code_points, encode.
  rewrite list_byte_of_string_of_list_byte, json_plain_str_code_points by assumption.
  f_equal. f_equal. induction s as [|b s IH]; cbn [map flat_map]; [reflexivity|].
  cbn [forallb] in H. apply andb_true_iff in H as [Hb Hs].
  rewrite json_plain_escape, IH by assumption. reflexivity.
Qed.

Lemma hex_digit_plain (n : N) : json_plain (hex_digit n) = true.
Proof.
  unfold hex_digit.
  assert (H : forallb json_plain (encode "0123456789abcdef") = true) by reflexivity.
  rewrite forallb_forall in H. apply H.
  apply nth_In. change (length (encode "0123456789abcdef")) with 16.
  pose proof (N.mod_upper_bound n 16). lia.
Qed.

Lemma hexlify_plain (raw : bytes) :
  forallb json_plain (flat_map hex_pair raw) = true.
Proof.
  induction raw as [|b raw IH]; cbn [flat_map]; [reflexivity|].
  unfold hex_pair at 1. cbn [app forallb].
  now rewrite !hex_digit_plain, IH.
Qed.

(** A recovery key made by [token_hex] is written between quotes, digit by
    digit. *)
Lemma json_dumps_token_hex (raw : bytes) :
  json_dumps_bytes (JStr (hexlify raw)) = x22 :: encode (hexlify raw) ++ [x22].
Proof.
  cbn [json_dumps_bytes]. unfold hexlify.
  rewrite json_dumps_plain by apply hexlify_plain.
  unfold encode. now rewrite list_byte_of_string_of_list_byte.
Qed.

Definition durga_recovery_key_box (key : string) : message_box :=
  Information "Recovery Key"
    ("Your recovery key is: " ++ key ++ nl ++ nl
     ++ "Save this key in a safe place. "
     ++ "You will need it if you forget your password.").

Definition passward_success_box (recovery_key : string) : message_box :=
  Information "Success"
    ("File encrypted!" ++ nl ++ nl ++ "Recovery Key:" ++ nl
     ++ recovery_key ++ nl ++ nl ++ "Save it safely!").

(** The five values [passward.py] persists, as the JSON text written. *)
Definition passward_container (salt iv encrypted recovery_salt encrypted_key : bytes)
  : bytes :=
  json_dumps_bytes
    (JDict [("salt"%string, JStr (b64encode salt));
            ("iv"%string, JStr (b64encode iv));
            ("encrypted_data"%string, JStr (b64encode encrypted));
            ("recovery"%string,
             JDict [("salt"%string, JStr (b64encode recovery_salt));
                    ("encrypted_key"%string, JStr (b64encode encrypted_key))])]).

Lemma passward_encrypt_file_run (data : bytes) (password : string) (w : world) :
  password <> ""%string ->
  let s := sealed_in data password w in
  passward.encrypt_file be (Some data) (mkInput password true) true w =
  (Ok (mkEffects
         [passward_success_box (passward.recovery_key s)]
         (Some (passward_container (passward.salt s) (passward.iv s)
                  (passward.encrypted s) (passward.recovery_salt s)
                  (passward.encrypted_key s)))),
   advance 16 (advance 16 (advance 16 (advance 16 w)))).
Proof.
  intros Hne s. apply truthy_iff in Hne.
  unfold passward.encrypt_file. cbn [dialog_ok dialog_text negb orb].
  rewrite Hne. cbn [negb]. unfold bind. rewrite passward_seal_run.
  cbn [negb]. unfold ret. rewrite encode_json_dumps. reflexivity.
Qed.

Lemma durga_saved_file_holds_key (self : editor) (encrypted_data content : bytes)
    (w : world) :
  durga.write_container (durga_header self w) encrypted_data = Ok content ->
  occurs_in (json_dumps_bytes (recovery_key self)) content = true.
Proof.
  unfold durga.write_container.
  destruct (int_to_bytes4 _) as [size|e]; cbn [rbind]; [|discriminate].
  intros E.
  assert (Hc : content = size ++ durga_header self w ++ encrypted_data)
    by congruence.
  clear E. subst content.
  destruct (durga_header_holds_key self w) as (pre & post & Hh).
  apply occurs_in_iff. exists (size ++ pre), (post ++ encrypted_data).
  rewrite Hh, <- !app_assoc. reflexivity.
Qed.

(** C3, as amended. In [passward.py] the recovery key is shown once, in
    the success box of [encrypt_file], and the file written holds the
    salt, the IV, the ciphertext, the recovery salt and the wrapped
    content key, and nothing else. In [durga.py] the recovery key that
    [set_password] generates and shows is kept on the editor, and every
    container that [save_encrypted_file] then writes spells it out in its
    plaintext header, in the form shown to the user. *)
Theorem container_contents (data : bytes) (text password : string) (w w1 : world) :
  password <> ""%string ->
  (let s := sealed_in data password w in
   passward.encrypt_file be (Some data) (mkInput password true) true w =
   (Ok (mkEffects
          [passward_success_box (passward.recovery_key s)]
          (Some (passward_container (passward.salt s) (passward.iv s)
                   (passward.encrypted s) (passward.recovery_salt s)
                   (passward.encrypted_key s)))),
    advance 16 (advance 16 (advance 16 (advance 16 w)))))
  /\ (let key := hexlify (draw 16 w) in
      let self := mkEditor text (Some password) (JStr key) in
      durga.set_password (mkEditor text None JNull) (mkInput password true) w
        = (Ok (show (durga_recovery_key_box key), self), advance 16 w)
      /\ exists eff,
           durga.save_encrypted_file be self true w1
             = (Ok eff, advance 16 (advance 16 w1))
           /\ forall content,
                eff = mkEffects [encryption_successful] (Some content) ->
                occurs_in (encode key) content = true).
Proof.
  intros Hne. split; [now apply passward_encrypt_file_run|].
  cbv zeta. split.
  - unfold durga.set_password. cbn [dialog_ok dialog_text andb].
    apply truthy_iff in Hne. rewrite Hne. reflexivity.
  - eexists. split; [apply durga_save_run; [reflexivity|assumption]|].
    intros content.
    destruct (durga.write_container _ _) as [c|e] eqn:E; intros [= <-].
    apply durga_saved_file_holds_key in E. cbn [recovery_key] in E.
    rewrite json_dumps_token_hex in E.
    apply occurs_in_iff in E as (pre & post & ->). apply occurs_in_iff.
    exists (pre ++ [x22]), ([x22] ++ post).
    cbn [app]. rewrite <- !app_assoc. reflexivity.
Qed.

(** ** Wrong passwords and modified ciphertexts *)

(** The run of a fresh unpadder over padded data: [update], then
    [finalize]. *)
Definition pkcs7_unpad (padded : bytes) : result bytes :=
  let '(head, ctx) := unpadder_update (unpadder (PKCS7 128)) padded in
  tail <-r unpadder_finalize ctx ;;
  Ok (head ++ tail).

Lemma passward_decrypt_data_any_key encrypted key iv w :
  length key = 32 -> length iv = 16 -> length encrypted mod 16 = 0 ->
  passward.decrypt_data be encrypted key iv w =
  (pkcs7_unpad (cbc_decrypt_blocks be key (length encrypted / 16) iv encrypted), w).
Proof.
  intros Hk Hi Hm. unfold passward.decrypt_data, bind, lift.
  rewrite Cipher_CBC_ok by assumption.
  unfold decryptor_update_finalize. cbn [cipher_mode cipher_key].
  unfold aes_block_len. rewrite Hm. cbn [Nat.eqb].
  unfold pkcs7_unpad.
  destruct (unpadder_update _ _) as [head ctx].
  destruct (unpadder_finalize ctx); reflexivity.
Qed.

Lemma durga_decrypt_text_of encrypted_data password w out :
  durga.decrypt_data be encrypted_data password w = (Ok out, w) ->
  durga.decrypt_text be encrypted_data password w = (decode out, w).
Proof. intros H. unfold durga.decrypt_text, bind. now rewrite H. Qed.

Lemma AI_open_run (self : editor) (container : bytes) (password : string)
    (w : world) (out : bytes) :
  password <> ""%string ->
  durga.decrypt_data be container password w = (Ok out, w) ->
  AI.open_encrypted_file be self (Some container) (mkInput password true) w =
  (Ok (if utf8_valid out
       then (nothing, mkEditor (setText be (string_of_list_byte out))
                        (Some password) (recovery_key self))
       else (show (Critical "Error" "Failed to decrypt. Invalid password?"), self)),
   w).
Proof.
  intros Hne Hd. apply truthy_iff in Hne.
  unfold AI.open_encrypted_file. cbn [dialog_ok dialog_text andb]. rewrite Hne.
  unfold try_except, bind. rewrite AI_is_durga_decrypt, Hd.
  unfold lift, decode. destruct (utf8_valid out); reflexivity.
Qed.

(** C4, as amended. No password is rejected by a check of its own. In the
    CFB variants, [decrypt_data] on a sealed container returns, for every
    password, a byte string as long as the plaintext, and the attempt of
    the caller fails exactly when these bytes are no valid UTF-8: the
    empty document opens under every password. In [passward.py] the
    attempt fails exactly when the PKCS7 padding of the CBC decryption
    under the key of the password given is invalid. *)
Theorem wrong_password_is_not_detected (self : editor) (data : bytes)
    (password password2 : string) (w w2 : world) :
  password2 <> ""%string ->
  (exists container w' out,
     durga.encrypt_data be data password w = (Ok container, w')
     /\ length out = length data
     /\ durga.decrypt_data be container password2 w2 = (Ok out, w2)
     /\ durga.decrypt_text be container password2 w2 = (decode out, w2)
     /\ AI.open_encrypted_file be self (Some container) (mkInput password2 true) w2
        = (Ok (if utf8_valid out
               then (nothing, mkEditor (setText be (string_of_list_byte out))
                                (Some password2) (recovery_key self))
               else (show (Critical "Error" "Failed to decrypt. Invalid password?"),
                     self)), w2)
     /\ (data = [] -> out = []))
  /\ (exists s w',
     passward.seal be data password w = (Ok s, w')
     /\ passward.decrypt_with_password be (passward.salt s) (passward.iv s)
          (passward.encrypted s) password2 w2
        = (pkcs7_unpad
             (cbc_decrypt_blocks be (cbc_key password2 (passward.salt s))
                (length (passward.encrypted s) / 16) (passward.iv s)
                (passward.encrypted s)), w2)).
Proof.
  intros Hne. split.
  - exists (cfb_container data password w), (advance 16 (advance 16 w)).
    eexists. split; [apply durga_encrypt_data_run|].
    pose proof (durga_decrypt_sealed data password password2 w w2) as Hd.
    cbv zeta in Hd.
    split; [|split; [exact Hd|]].
    + now rewrite !cfb_stream_length.
    + split; [now apply durga_decrypt_text_of|].
      split; [now apply AI_open_run|].
      intros ->. reflexivity.
  - exists (sealed_in data password w),
      (advance 16 (advance 16 (advance 16 (advance 16 w)))).
    split; [apply passward_seal_run|].
    unfold sealed_in. cbn [passward.salt passward.iv passward.encrypted].
    unfold passward.decrypt_with_password, bind.
    rewrite passward_generate_key_run.
    apply passward_decrypt_data_any_key;
      [apply cbc_key_length|apply draw_length|].
    rewrite cbc_encrypt_total_length by (apply cbc_key_length || apply draw_length).
    apply Nat.Div0.mod_mul.
Qed.

(** The byte at position [i] replaced by its xor with [delta]: every
    change of one byte is of this form, with [delta] not zero. *)
Fixpoint xor_at (i : nat) (delta : byte) (l : bytes) : bytes :=
  match l, i with
  | [], _ => []
  | b :: r, 0 => byte_xor b delta :: r
  | b :: r, S i' => b :: xor_at i' delta r
  end.

Lemma xor_at_app (a b : bytes) (i : nat) (delta : byte) :
  xor_at (length a + i) delta (a ++ b) = a ++ xor_at i delta b.
Proof. induction a as [|x a IH]; cbn; [reflexivity|now rewrite IH]. Qed.

Lemma byte_xor_zero (x delta : byte) : byte_xor x delta = x -> delta = x00.
Proof.
  intros H.
  assert (E : byte_xor (byte_xor x delta) x = byte_xor x x) by now rewrite H.
  rewrite (byte_xor_comm x delta), byte_xor_cancel in E.
  rewrite E. clear. destruct x; reflexivity.
Qed.

(** CFB is malleable: changing byte [i] of the ciphertext by [delta]
    leaves the plaintext before [i] as it was and changes byte [i] of the
    plaintext by [delta]. *)
Lemma cfb_malleable key delta data :
  forall ks reg i, i < length data ->
  let out := cfb_stream be key true ks reg
               (xor_at i delta (cfb_stream be key false ks reg data)) in
  length out = length data
  /\ firstn i out = firstn i data
  /\ nth i out x00 = byte_xor (nth i data x00) delta.
Proof.
  induction data as [|x data IH]; intros ks reg i Hi; [cbn in Hi; lia|].
  cbv zeta. destruct i as [|i].
  - cbn [cfb_stream xor_at firstn nth]. repeat split.
    + cbn [length]. now rewrite !cfb_stream_length.
    + set (k := hd x00 _).
      rewrite byte_xor_assoc, (byte_xor_comm delta k), <- byte_xor_assoc.
      now rewrite byte_xor_cancel.
  - cbn [cfb_stream xor_at]. rewrite byte_xor_cancel.
    set (ks1 := tl _). set (reg1 := _ ++ [_]).
    cbn [length] in Hi.
    destruct (IH ks1 reg1 i ltac:(lia)) as (H1 & H2 & H3). cbv zeta in H1, H2, H3.
    cbn [length firstn nth]. rewrite H1, H2. auto.
Qed.

(** ** CBC with a modified first block *)

Lemma xor_at_length (i : nat) (delta : byte) (l : bytes) :
  length (xor_at i delta l) = length l.
Proof.
  revert i. induction l as [|b l IH]; intros [|i]; cbn; auto.
Qed.

Lemma xor_at_app_l (a b : bytes) (i : nat) (delta : byte) :
  i < length a -> xor_at i delta (a ++ b) = xor_at i delta a ++ b.
Proof.
  revert i. induction a as [|x a IH]; intros i Hi; cbn in Hi; [lia|].
  destruct i as [|i]; cbn; [reflexivity|]. rewrite IH by lia. reflexivity.
Qed.

Lemma nth_xor_at (i : nat) (delta : byte) (l : bytes) :
  i < length l -> nth i (xor_at i delta l) x00 = byte_xor (nth i l x00) delta.
Proof.
  revert i. induction l as [|b l IH]; intros i Hi; cbn in Hi; [lia|].
  destruct i as [|i]; cbn; [reflexivity|]. apply IH. lia.
Qed.

(** Decrypting a CBC block against a modified previous block: the
    modification shows in the plaintext block, at the same position. *)
Lemma xor_bytes_xor_at (p c : bytes) (i : nat) (delta : byte) :
  length p <= length c ->
  xor_bytes (xor_bytes p c) (xor_at i delta c) = xor_at i delta p.
Proof.
  revert c i. induction p as [|x p IH]; intros c i H.
  { destruct i; reflexivity. }
  destruct c as [|y c]; cbn in H; [lia|].
  destruct i as [|i]; cbn.
  - rewrite xor_bytes_cancel by lia.
    rewrite byte_xor_assoc, <- (byte_xor_assoc y y delta).
    replace (byte_xor (byte_xor y y) delta) with delta; [reflexivity|].
    rewrite byte_xor_comm, <- byte_xor_assoc, byte_xor_cancel. reflexivity.
  - rewrite byte_xor_cancel, IH by lia. reflexivity.
Qed.

Lemma cbc_decrypt_step key n prev c rest :
  length c = 16 ->
  cbc_decrypt_blocks be key (S n) prev (c ++ rest)
  = xor_bytes (AES_decrypt_block be key c) prev ++ cbc_decrypt_blocks be key n c rest.
Proof.
  intros Hc. cbn [cbc_decrypt_blocks]. unfold aes_block_len.
  rewrite firstn_app, skipn_app, Hc, Nat.sub_diag, firstn_O, skipn_O, app_nil_r.
  rewrite firstn_all2, skipn_all2 by lia. reflexivity.
Qed.

(** Three blocks or more, a byte of the first ciphertext block modified:
    the first plaintext block is whatever the block function makes of the
    modified block, the second carries the modification, the rest is
    unchanged. *)
Lemma cbc_modified_first_block key m iv data i delta :
  length key = 32 -> length iv = 16 -> length data = S (S m) * 16 -> i < 16 ->
  exists garbage,
    length garbage = 16
    /\ cbc_decrypt_blocks be key (S (S m)) iv
         (xor_at i delta (cbc_encrypt_blocks be key (S (S m)) iv data))
       = garbage ++ xor_at i delta (firstn 16 (skipn 16 data)) ++ skipn 32 data.
Proof.
  intros Hk Hi Hd Hlt.
  cbn [cbc_encrypt_blocks]. unfold aes_block_len.
  set (p0 := firstn 16 data). set (p1 := firstn 16 (skipn 16 data)).
  set (c0 := AES_encrypt_block be key (xor_bytes p0 iv)).
  set (c1 := AES_encrypt_block be key (xor_bytes p1 c0)).
  set (rest := cbc_encrypt_blocks be key m c1 (skipn 16 (skipn 16 data))).
  assert (Hp0 : length p0 = 16) by (unfold p0; rewrite length_firstn; lia).
  assert (Hp1 : length p1 = 16)
    by (unfold p1; rewrite length_firstn, length_skipn; lia).
  assert (Hc0 : length c0 = 16)
    by (apply AES_encrypt_length; [assumption|rewrite xor_bytes_length; lia]).
  assert (Hc1 : length c1 = 16)
    by (apply AES_encrypt_length; [assumption|rewrite xor_bytes_length; lia]).
  rewrite xor_at_app_l by lia.
  set (c0' := xor_at i delta c0).
  assert (Hc0' : length c0' = 16) by (unfold c0'; now rewrite xor_at_length).
  exists (xor_bytes (AES_decrypt_block be key c0') iv). split.
  { rewrite xor_bytes_length, AES_decrypt_length by assumption. lia. }
  rewrite cbc_decrypt_step by assumption. f_equal.
  rewrite cbc_decrypt_step by assumption. unfold c1 at 1.
  rewrite AES_decrypt_encrypt by (assumption || (rewrite xor_bytes_length; lia)).
  unfold c0'. rewrite xor_bytes_xor_at by lia. f_equal.
  unfold rest. rewrite cbc_round_trip; [now rewrite skipn_skipn|assumption|assumption|].
  rewrite !length_skipn. lia.
Qed.

(** In front of at least one block, 32 more bytes do not change what the
    unpadder checks and cuts off. *)
Lemma pkcs7_unpad_app (front back : bytes) :
  length front = 32 -> 16 <= length back -> length back mod 16 = 0 ->
  pkcs7_unpad (front ++ back) = (d <-r pkcs7_unpad back ;; Ok (front ++ d)).
Proof.
  intros Hf Hb Hm. unfold pkcs7_unpad, unpadder_update, unpadder, PKCS7.
  change (128 / 8) with 16. cbn [pad_buffer pad_block_size app].
  pose proof (Nat.div_mod_eq (length back) 16) as Hdiv. rewrite Hm in Hdiv.
  set (t := length back / 16) in *.
  rewrite length_app, Hf.
  replace ((32 + length back) / 16 - 1) with (t + 1).
  2: { replace (32 + length back) with ((t + 2) * 16) by lia.
       rewrite Nat.div_mul by lia. lia. }
  rewrite firstn_app, skipn_app, Hf.
  replace ((t + 1) * 16 - 32) with ((t - 1) * 16) by lia.
  rewrite firstn_all2, skipn_all2 by lia. cbn [app].
  destruct (unpadder_finalize _) as [tail|e]; cbn [rbind]; [|reflexivity].
  now rewrite app_assoc.
Qed.

Lemma pkcs7_unpad_pad (data : bytes) : pkcs7_unpad (pkcs7_pad data) = Ok data.
Proof.
  pose proof (unpadder_output data) as H. cbv zeta in H.
  fold (pkcs7_pad data) in H. unfold pkcs7_unpad.
  destruct (unpadder_update _ _) as [head ctx].
  destruct H as (tail & -> & <-). reflexivity.
Qed.

(** [decrypt_data] of [passward.py] on a ciphertext of at least three
    blocks whose first block was modified. *)
Lemma passward_decrypt_modified key iv data i delta w :
  length key = 32 -> length iv = 16 -> 32 <= length data -> i < 16 ->
  exists garbage,
    length garbage = 16
    /\ passward.decrypt_data be (xor_at i delta (cbc_encrypt key iv data)) key iv w
       = (Ok (garbage ++ xor_at i delta (firstn 16 (skipn 16 data)) ++ skipn 32 data),
          w).
Proof.
  intros Hk Hi Hd Hlt.
  pose proof (pkcs7_pad_length data) as Hpl.
  assert (Hn : exists m, length data / 16 + 1 = S (S (S m))).
  { assert (2 <= length data / 16) by (apply Nat.div_le_lower_bound; lia).
    exists (length data / 16 - 2). lia. }
  destruct Hn as [m Hn].
  destruct (cbc_modified_first_block key (S m) iv (pkcs7_pad data) i delta)
    as (garbage & Hg & Hdec); try assumption.
  { rewrite Hpl, Hn. reflexivity. }
  exists garbage. split; [assumption|].
  rewrite passward_decrypt_data_any_key; try assumption.
  2: { rewrite xor_at_length, cbc_encrypt_total_length by assumption.
       apply Nat.Div0.mod_mul. }
  rewrite xor_at_length, cbc_encrypt_total_length by assumption.
  rewrite Nat.div_mul by lia. unfold cbc_encrypt. rewrite Hn, Hdec.
  f_equal.
  assert (Hpad : pkcs7_pad data
                 = firstn 32 data ++ skipn 32 (pkcs7_pad data)).
  { rewrite <- (firstn_skipn 32 (pkcs7_pad data)) at 1. f_equal.
    unfold pkcs7_pad. rewrite firstn_app.
    replace (32 - length data) with 0 by lia. now rewrite firstn_O, app_nil_r. }
  assert (Hback : 16 <= length (skipn 32 (pkcs7_pad data))
                  /\ length (skipn 32 (pkcs7_pad data)) mod 16 = 0).
  { rewrite length_skipn, Hpl, Hn. split; [lia|].
    replace (S (S (S m)) * 16 - 32) with (S m * 16) by lia.
    apply Nat.Div0.mod_mul. }
  destruct Hback as [Hb1 Hb2].
  pose proof (pkcs7_unpad_pad data) as Hu. rewrite Hpad in Hu.
  rewrite pkcs7_unpad_app in Hu
    by (assumption || (rewrite length_firstn; lia)).
  destruct (pkcs7_unpad (skipn 32 (pkcs7_pad data))) as [d|e] eqn:Ed;
    cbn [rbind] in Hu; [|discriminate].
  assert (Hd32 : d = skipn 32 data).
  { assert (E : firstn 32 data ++ d = data) by congruence.
    rewrite <- E at 1. rewrite skipn_app, length_firstn.
    replace (32 - Nat.min 32 (length data)) with 0 by lia.
    rewrite skipn_O, skipn_all2 by (rewrite length_firstn; lia). reflexivity. }
  assert (Hskip : skipn 16 (pkcs7_pad data) = skipn 16 data ++ skipn (16 - length data) (repeat (byte_of_nat (pkcs7_pad_size (length data))) (pkcs7_pad_size (length data)))).
  { unfold pkcs7_pad. now rewrite skipn_app. }
  assert (Hp1 : firstn 16 (skipn 16 (pkcs7_pad data)) = firstn 16 (skipn 16 data)).
  { rewrite Hskip, firstn_app, length_skipn.
    replace (16 - (length data - 16)) with 0 by lia.
    now rewrite firstn_O, app_nil_r. }
  rewrite Hp1.
  replace (garbage ++ xor_at i delta (firstn 16 (skipn 16 data))
             ++ skipn 32 (pkcs7_pad data))
    with ((garbage ++ xor_at i delta (firstn 16 (skipn 16 data)))
            ++ skipn 32 (pkcs7_pad data)) by now rewrite app_assoc.
  rewrite pkcs7_unpad_app, Ed; try assumption.
  - cbn [rbind]. now rewrite Hd32, app_assoc.
  - rewrite length_app, xor_at_length, length_firstn, length_skipn. lia.
Qed.

Lemma cfb_modified_container (data : bytes) (password : string) (w w2 : world)
    (i : nat) (delta : byte) :
  i < length data -> delta <> x00 ->
  exists out,
    durga.decrypt_data be (xor_at (32 + i) delta (cfb_container data password w))
      password w2 = (Ok out, w2)
    /\ length out = length data
    /\ firstn i out = firstn i data
    /\ nth i out x00 = byte_xor (nth i data x00) delta
    /\ out <> data.
Proof.
  intros Hi Hd.
  set (salt := draw 16 w). set (iv := draw 16 (advance 16 w)).
  set (body := cfb_stream be (cfb_key password salt) false [] iv data).
  assert (Hc : xor_at (32 + i) delta (cfb_container data password w)
               = salt ++ iv ++ xor_at i delta body).
  { unfold cfb_container. fold salt iv body.
    replace (32 + i) with (length salt + (length iv + i))
      by (unfold salt, iv; rewrite !draw_length; lia).
    now rewrite !xor_at_app. }
  destruct (split_container salt iv (xor_at i delta body))
    as (E1 & E2 & E3); try apply draw_length.
  destruct (cfb_malleable (cfb_key password salt) delta data [] iv i Hi)
    as (H1 & H2 & H3).
  fold body in H1, H2, H3.
  eexists. split.
  { rewrite Hc, durga_decrypt_data_run.
    - rewrite E1, E2, E3. reflexivity.
    - rewrite !length_app. unfold salt, iv. rewrite !draw_length. lia. }
  split; [exact H1|]. split; [exact H2|]. split; [exact H3|].
  intros E. rewrite E in H3. symmetry in H3. apply byte_xor_zero in H3.
  contradiction.
Qed.

Lemma passward_modified_ciphertext (data : bytes) (password : string) (w w2 : world)
    (i : nat) (delta : byte) :
  32 <= length data -> i < 16 -> delta <> x00 ->
  let s := sealed_in data password w in
  exists out,
    passward.decrypt_with_password be (passward.salt s) (passward.iv s)
      (xor_at i delta (passward.encrypted s)) password w2 = (Ok out, w2)
    /\ length out = length data
    /\ skipn 32 out = skipn 32 data
    /\ nth (16 + i) out x00 = byte_xor (nth (16 + i) data x00) delta
    /\ out <> data.
Proof.
  intros Hlen Hi Hd. cbv zeta. unfold sealed_in.
  cbn [passward.salt passward.iv passward.encrypted].
  set (key := cbc_key password (draw 16 w)). set (iv := draw 16 (advance 16 w)).
  destruct (passward_decrypt_modified key iv data i delta w2)
    as (garbage & Hg & Hdec);
    [apply cbc_key_length|apply draw_length|assumption|assumption|].
  eexists. split.
  { unfold passward.decrypt_with_password, bind.
    rewrite passward_generate_key_run. fold key. exact Hdec. }
  assert (Hp1 : length (firstn 16 (skipn 16 data)) = 16)
    by (rewrite length_firstn, length_skipn; lia).
  assert (Hnth : nth (16 + i)
                   (garbage ++ xor_at i delta (firstn 16 (skipn 16 data))
                      ++ skipn 32 data) x00
                 = byte_xor (nth (16 + i) data x00) delta).
  { rewrite <- Hg at 1. rewrite app_nth2_plus, app_nth1
      by (rewrite xor_at_length; lia).
    rewrite nth_xor_at by lia. f_equal.
    rewrite nth_firstn. replace (i <? 16) with true
      by (symmetry; apply Nat.ltb_lt; lia).
    now rewrite nth_skipn. }
  split; [|split; [|split; [exact Hnth|]]].
  - rewrite !length_app, xor_at_length, Hg, Hp1, length_skipn. lia.
  - rewrite app_assoc, skipn_app, length_app, xor_at_length, Hg, Hp1.
    rewrite skipn_all2 by (rewrite length_app, xor_at_length; lia).
    reflexivity.
  - intros E. rewrite E in Hnth. symmetry in Hnth. apply byte_xor_zero in Hnth.
    contradiction.
Qed.

(** C5, as amended. A change of one byte of the ciphertext is not
    detected. In the CFB variants [decrypt_data] on the modified container
    returns a byte string as long as the plaintext, equal to it before the
    modified position and different from it at that position (by the same
    xor difference), whatever the backend; the attempt of the caller fails
    only if that byte string is no valid UTF-8. In [passward.py], when the
    plaintext has at least 32 bytes and the modified byte lies in the first
    block of the ciphertext, [decrypt_data] returns a byte string as long
    as the plaintext that differs from it in the second block, at the
    position of the modified byte, and equals it from the third block on:
    the padding is checked and nothing else. *)
Theorem ciphertext_is_malleable (data : bytes) (password : string) (w w2 : world)
    (i : nat) (delta : byte) :
  i < length data -> delta <> x00 ->
  (exists container w' out,
     durga.encrypt_data be data password w = (Ok container, w')
     /\ AI.encrypt_data be data password w = (Ok container, w')
     /\ durga.decrypt_data be (xor_at (32 + i) delta container) password w2
        = (Ok out, w2)
     /\ AI.decrypt_data be (xor_at (32 + i) delta container) password w2
        = (Ok out, w2)
     /\ durga.decrypt_text be (xor_at (32 + i) delta container) password w2
        = (decode out, w2)
     /\ length out = length data
     /\ firstn i out = firstn i data
     /\ nth i out x00 = byte_xor (nth i data x00) delta
     /\ out <> data)
  /\ (32 <= length data -> i < 16 ->
      exists s w' out,
        passward.seal be data password w = (Ok s, w')
        /\ passward.decrypt_with_password be (passward.salt s) (passward.iv s)
             (xor_at i delta (passward.encrypted s)) password w2 = (Ok out, w2)
        /\ length out = length data
        /\ skipn 32 out = skipn 32 data
        /\ nth (16 + i) out x00 = byte_xor (nth (16 + i) data x00) delta
        /\ out <> data).
Proof.
  intros Hi Hd. split.
  - destruct (cfb_modified_container data password w w2 i delta Hi Hd)
      as (out & Hrun & H1 & H2 & H3 & H4).
    exists (cfb_container data password w), (advance 16 (advance 16 w)), out.
    split; [apply durga_encrypt_data_run|].
    split; [rewrite AI_is_durga_encrypt; apply durga_encrypt_data_run|].
    split; [exact Hrun|].
    split; [rewrite AI_is_durga_decrypt; exact Hrun|].
    split; [now apply durga_decrypt_text_of|]. auto.
  - intros Hlen Hi16.
    destruct (passward_modified_ciphertext data password w w2 i delta Hlen Hi16 Hd)
      as (out & Hrun & H).
    exists (sealed_in data password w),
      (advance 16 (advance 16 (advance 16 (advance 16 w)))), out.
    split; [apply passward_seal_run|]. split; [exact Hrun|exact H].
Qed.

(** ** The escrow step of [passward.py] *)

Lemma xor_bytes_comm (a b : bytes) : xor_bytes a b = xor_bytes b a.
Proof.
  revert b. induction a as [|x a IH]; intros [|y b]; cbn; auto.
  now rewrite byte_xor_comm, IH.
Qed.

(** Under one key and for one plaintext, the first ciphertext block of CBC
    determines the IV. *)
Lemma cbc_encrypt_iv_unique key n iv iv' data :
  length key = 32 -> length iv = 16 -> length iv' = 16 -> 16 <= length data ->
  cbc_encrypt_blocks be key (S n) iv data = cbc_encrypt_blocks be key (S n) iv' data ->
  iv = iv'.
Proof.
  intros Hk Hi Hi' Hd E. cbn [cbc_encrypt_blocks] in E. unfold aes_block_len in E.
  set (p := firstn 16 data) in *.
  assert (Hp : length p = 16) by (unfold p; rewrite length_firstn; lia).
  assert (Hx : length (xor_bytes p iv) = 16) by (rewrite xor_bytes_length; lia).
  assert (Hx' : length (xor_bytes p iv') = 16) by (rewrite xor_bytes_length; lia).
  assert (Hblock : AES_encrypt_block be key (xor_bytes p iv)
                   = AES_encrypt_block be key (xor_bytes p iv')).
  { apply (f_equal (firstn 16)) in E.
    rewrite !firstn_app, !AES_encrypt_length, Nat.sub_diag, firstn_O, !app_nil_r
      in E by assumption.
    now rewrite !firstn_all2 in E by (rewrite AES_encrypt_length; auto). }
  apply (f_equal (AES_decrypt_block be key)) in Hblock.
  rewrite !AES_decrypt_encrypt in Hblock by assumption.
  apply (f_equal (fun l => xor_bytes l p)) in Hblock.
  rewrite (xor_bytes_comm p iv), (xor_bytes_comm p iv') in Hblock.
  now rewrite !xor_bytes_cancel in Hblock by lia.
Qed.

Lemma cbc_encrypt_key (k iv key : bytes) :
  length key = 32 ->
  cbc_encrypt k iv key = cbc_encrypt_blocks be k 3 iv (key ++ repeat x10 16).
Proof.
  intros Hk. unfold cbc_encrypt, pkcs7_pad, pkcs7_pad_size. rewrite Hk. reflexivity.
Qed.

(** C6, as amended. In the escrow step of [passward.py] the recovery key is
    derived by [generate_key] from the recovery secret and a recovery salt
    of 16 bytes drawn for it (the fourth draw; the content salt is the
    first), and the 32-byte content key, with one block of padding, is
    encrypted under that recovery key in CBC mode with the IV of the
    content ciphertext. [seal] draws four times 16 bytes (salt, IV,
    recovery secret, recovery salt) and no IV for the wrap, and the
    wrapped key is the encryption under no other IV than the content
    IV. *)
Theorem escrow_reuses_content_iv (data : bytes) (password : string) (w : world) :
  exists s w',
    passward.seal be data password w = (Ok s, w')
    /\ w' = advance 16 (advance 16 (advance 16 (advance 16 w)))
    /\ passward.salt s = draw 16 w
    /\ passward.iv s = draw 16 (advance 16 w)
    /\ passward.recovery_key s
       = urlsafe_b64encode (draw 16 (advance 16 (advance 16 w)))
    /\ passward.recovery_salt s = draw 16 (advance 16 (advance 16 (advance 16 w)))
    /\ (forall w2,
          passward.generate_key be (passward.recovery_key s)
            (passward.recovery_salt s) w2
          = (Ok (passward.recovery_key_bytes s), w2))
    /\ length (passward.key s) = 32
    /\ passward.encrypted_key s
       = cbc_encrypt_blocks be (passward.recovery_key_bytes s) 3 (passward.iv s)
           (passward.key s ++ repeat x10 16)
    /\ (forall iv',
          length iv' = 16 ->
          passward.encrypted_key s
          = cbc_encrypt_blocks be (passward.recovery_key_bytes s) 3 iv'
              (passward.key s ++ repeat x10 16) ->
          iv' = passward.iv s).
Proof.
  exists (sealed_in data password w),
    (advance 16 (advance 16 (advance 16 (advance 16 w)))).
  split; [apply passward_seal_run|]. split; [reflexivity|].
  unfold sealed_in.
  cbn [passward.salt passward.iv passward.recovery_key passward.recovery_salt
       passward.recovery_key_bytes passward.key passward.encrypted_key].
  do 4 (split; [reflexivity|]).
  split; [intros w2; apply passward_generate_key_run|].
  split; [apply cbc_key_length|].
  rewrite cbc_encrypt_key by apply cbc_key_length.
  split; [reflexivity|].
  intros iv' Hi' E. symmetry.
  eapply cbc_encrypt_iv_unique; [| | | |exact E];
    first [apply cbc_key_length | apply draw_length | assumption
          | rewrite length_app, cbc_key_length; lia].
Qed.

End Properties.

(* ================================================================== *)
(** * The assumptions can be met, and the code run *)
(* ================================================================== *)

Lemma toy_sha_length (m : bytes) : length (SHA256 Toy.toy_backend m) = 32.
Proof. cbn [SHA256 Toy.toy_backend]. unfold Toy.sha. now rewrite length_map. Qed.

Lemma toy_encrypt_length (key block : bytes) :
  length key = 32 -> length block = 16 ->
  length (AES_encrypt_block Toy.toy_backend key block) = 16.
Proof.
  intros Hk Hb. cbn [AES_encrypt_block Toy.toy_backend]. unfold Toy.encrypt_block.
  rewrite xor_bytes_length. lia.
Qed.

Lemma toy_decrypt_length (key block : bytes) :
  length key = 32 -> length block = 16 ->
  length (AES_decrypt_block Toy.toy_backend key block) = 16.
Proof.
  intros Hk Hb. cbn [AES_decrypt_block Toy.toy_backend]. unfold Toy.decrypt_block.
  rewrite xor_bytes_length. lia.
Qed.

Lemma toy_decrypt_encrypt (key block : bytes) :
  length key = 32 -> length block = 16 ->
  AES_decrypt_block Toy.toy_backend key (AES_encrypt_block Toy.toy_backend key block)
  = block.
Proof.
  intros Hk Hb. cbn [AES_decrypt_block AES_encrypt_block Toy.toy_backend].
  unfold Toy.encrypt_block, Toy.decrypt_block. apply xor_bytes_cancel. lia.
Qed.

(** Concrete inputs. *)
Module Sample.

Definition w0 : world := Toy.counting 0.

(** A file of [durga.py] with the header [{"recovery_key": "abc"}] and no
    container behind it. *)
Definition header_only : bytes :=
  [x00; x00; x00; x17]
    ++ json_dumps_bytes (JDict [("recovery_key"%string, JStr "abc")]).

(** The same with an empty recovery key in the header. *)
Definition empty_key_header : bytes :=
  [x00; x00; x00; x14]
    ++ json_dumps_bytes (JDict [("recovery_key"%string, JStr "")]).

(** The editor after [set_password] in world [w0], holding a document. *)
Definition editor_with_password (text : string) : editor :=
  mkEditor text (Some "correct-horse"%string)
    (JStr "000102030405060708090a0b0c0d0e0f").

Definition answers_with_recovery (password recovery : string) : durga.open_answers :=
  durga.mkOpenAnswers (mkInput password true) true (mkInput recovery true)
    (mkInput "new-password" true).

End Sample.

Lemma generate_key_deterministic_witness :
  (forall m, length (SHA256 Toy.toy_backend m) = 32)
  /\ (exists key, length key = 32
        /\ (forall w, durga.generate_key Toy.toy_backend "correct-horse"
                        (repeat x01 16) w = (Ok key, w))
        /\ (forall w, AI.generate_key Toy.toy_backend "correct-horse"
                        (repeat x01 16) w = (Ok key, w)))
  /\ (exists key, length key = 32
        /\ (forall w, passward.generate_key Toy.toy_backend "correct-horse"
                        (repeat x01 16) w = (Ok key, w))).
Proof.
  split; [exact toy_sha_length|].
  exact (generate_key_deterministic Toy.toy_backend toy_sha_length
           "correct-horse" (repeat x01 16)).
Defined.

Lemma cfb_decrypt_data_total_witness :
  32 <= length (repeat x00 32 ++ encode "abc")
  /\ exists out,
       length out = length (repeat x00 32 ++ encode "abc") - 32
       /\ durga.decrypt_data Toy.toy_backend (repeat x00 32 ++ encode "abc")
            "not-the-password" Sample.w0 = (Ok out, Sample.w0)
       /\ AI.decrypt_data Toy.toy_backend (repeat x00 32 ++ encode "abc")
            "not-the-password" Sample.w0 = (Ok out, Sample.w0)
       /\ durga.decrypt_text Toy.toy_backend (repeat x00 32 ++ encode "abc")
            "not-the-password" Sample.w0 = (decode out, Sample.w0).
Proof.
  assert (H : 32 <= length (repeat x00 32 ++ encode "abc")) by (cbn; lia).
  split; [exact H|].
  exact (cfb_decrypt_data_total Toy.toy_backend toy_sha_length
           (repeat x00 32 ++ encode "abc") "not-the-password" Sample.w0 H).
Defined.

Lemma password_round_trip_witness :
  (exists container w',
     durga.encrypt_data Toy.toy_backend (encode "hello world") "correct-horse"
       Sample.w0 = (Ok container, w')
     /\ AI.encrypt_data Toy.toy_backend (encode "hello world") "correct-horse"
          Sample.w0 = (Ok container, w')
     /\ forall w2,
          durga.decrypt_data Toy.toy_backend container "correct-horse" w2
          = (Ok (encode "hello world"), w2)
          /\ AI.decrypt_data Toy.toy_backend container "correct-horse" w2
             = (Ok (encode "hello world"), w2))
  /\ (exists s w',
     passward.seal Toy.toy_backend (encode "hello world") "correct-horse"
       Sample.w0 = (Ok s, w')
     /\ forall w2,
          passward.decrypt_with_password Toy.toy_backend
            (passward.salt s) (passward.iv s) (passward.encrypted s)
            "correct-horse" w2
          = (Ok (encode "hello world"), w2)).
Proof.
  exact (password_round_trip Toy.toy_backend toy_sha_length toy_encrypt_length
           toy_decrypt_encrypt (encode "hello world") "correct-horse" Sample.w0).
Defined.

Lemma durga_decrypt_text_short (be : backend) (encrypted_data : bytes)
    (password : string) (w : world) :
  (forall m, length (SHA256 be m) = 32) ->
  length encrypted_data < 32 ->
  durga.decrypt_text be encrypted_data password w
  = (Raise (ValueError InvalidIVSize), w).
Proof.
  intros Hsha Hlen. unfold durga.decrypt_text, bind.
  now rewrite durga_decrypt_data_short.
Qed.

(** The run of [open_encrypted_file] after a failed password attempt, when
    the user asks for the recovery path and the condition on the recovery
    key does not hold. *)
Lemma durga_open_recovery_refused (be : backend) (self : editor) (content : bytes)
    (answers : durga.open_answers) (w : world) (stored : json)
    (encrypted_data : bytes) (e : exn) :
  durga.read_container be content = Ok (stored, encrypted_data) ->
  dialog_ok (durga.ask_password answers) = true ->
  dialog_text (durga.ask_password answers) <> ""%string ->
  durga.decrypt_text be encrypted_data (dialog_text (durga.ask_password answers)) w
    = (Raise e, w) ->
  durga.ask_use_recovery answers = true ->
  durga.recovery_accepted (durga.ask_recovery answers) stored = false ->
  durga.open_encrypted_file be self (Some content) answers w
  = (Ok (show recovery_failed, self), w).
Proof.
  intros Hread Hok Hpw Hfail Huse Hacc. apply truthy_iff in Hpw.
  unfold durga.open_encrypted_file, try_except at 1, bind at 1, lift at 1.
  rewrite Hread, Hok, Hpw. cbn [negb orb].
  unfold try_except, bind. rewrite Hfail, Huse, Hacc. reflexivity.
Qed.

Lemma recovery_key_acceptance_witness :
  durga.read_container Toy.toy_backend Sample.header_only = Ok (JStr "abc", [])
  /\ fst (durga.decrypt_text Toy.toy_backend [] "forgotten" Sample.w0)
     = Raise (ValueError InvalidIVSize)
  /\ (durga.open_encrypted_file Toy.toy_backend (mkEditor "" None JNull)
        (Some Sample.header_only)
        (Sample.answers_with_recovery "forgotten" "abd") Sample.w0
      = (Ok (show recovery_failed, mkEditor "" None JNull), Sample.w0)
      <-> ~ (true = true /\ "abd"%string <> ""%string /\ JStr "abc" = JStr "abd")).
Proof.
  assert (Hread : durga.read_container Toy.toy_backend Sample.header_only = Ok (JStr "abc", []))
    by (vm_compute; reflexivity).
  assert (Hfail : fst (durga.decrypt_text Toy.toy_backend [] "forgotten" Sample.w0)
                  = Raise (ValueError InvalidIVSize)).
  { rewrite (durga_decrypt_text_short Toy.toy_backend [] "forgotten" Sample.w0
               toy_sha_length); [reflexivity|cbn; lia]. }
  split; [exact Hread|]. split; [exact Hfail|].
  exact (recovery_key_acceptance Toy.toy_backend (mkEditor "" None JNull)
           Sample.header_only (Sample.answers_with_recovery "forgotten" "abd")
           Sample.w0 (JStr "abc") [] (ValueError InvalidIVSize)
           Hread eq_refl ltac:(discriminate) Hfail eq_refl).
Defined.

(** C9, counterexample. The header holds the empty string as its recovery
    key; the password attempt fails (there is no container); the user
    confirms the recovery dialog with the empty string. The candidate is
    string-equal to the stored field, and it is refused. *)
Lemma empty_recovery_key_is_refused :
  durga.read_container Toy.toy_backend Sample.empty_key_header = Ok (JStr "", [])
  /\ durga.str_eq_json "" (JStr "") = true
  /\ durga.open_encrypted_file Toy.toy_backend (mkEditor "" None JNull)
       (Some Sample.empty_key_header)
       (Sample.answers_with_recovery "forgotten" "") Sample.w0
     = (Ok (show recovery_failed, mkEditor "" None JNull), Sample.w0).
Proof.
  assert (Hread : durga.read_container Toy.toy_backend Sample.empty_key_header = Ok (JStr "", []))
    by (vm_compute; reflexivity).
  split; [exact Hread|]. split; [reflexivity|].
  apply durga_open_recovery_refused
    with (stored := JStr "") (encrypted_data := []) (e := ValueError InvalidIVSize).
  - exact Hread.
  - reflexivity.
  - discriminate.
  - apply durga_decrypt_text_short; [exact toy_sha_length|cbn; lia].
  - reflexivity.
  - reflexivity.
Qed.

(** The file [save_encrypted_file] of [durga.py] writes for the example
    editor: the length of the header, the header, the container. *)
Lemma example_save (text : string) (w : world) :
  clock w = "1700000000.5"%string ->
  durga.save_encrypted_file Toy.toy_backend (Sample.editor_with_password text) true w
  = (Ok (mkEffects [encryption_successful]
           (Some ([x00; x00; x00; x50]
                  ++ durga_header (Sample.editor_with_password text) w
                  ++ cfb_container Toy.toy_backend (encode text) "correct-horse" w))),
     advance 16 (advance 16 w)).
Proof.
  intros Hclock.
  rewrite (durga_save_run Toy.toy_backend toy_sha_length
             (Sample.editor_with_password text) "correct-horse"%string w eq_refl)
    by discriminate.
  unfold durga.write_container.
  assert (Hsize : int_to_bytes4
                    (N.of_nat (length (durga_header (Sample.editor_with_password text) w)))
                  = Ok [x00; x00; x00; x50]).
  { unfold durga_header. rewrite Hclock. vm_compute. reflexivity. }
  rewrite Hsize. reflexivity.
Qed.

(** C8, counterexample. [save_encrypted_file] is called twice with the same
    argument in the same world, on editors that differ in the stored
    password only: once it refuses, once it writes an encrypted file. The
    stored password and recovery key are those [set_password] left on the
    editor in an earlier call. *)
Lemma save_depends_on_the_editor :
  durga.save_encrypted_file Toy.toy_backend (mkEditor "hello world" None JNull)
    true Sample.w0
  = (Ok (show (Warning "Password Error" "Please set a password first.")), Sample.w0)
  /\ (exists file w',
        durga.save_encrypted_file Toy.toy_backend
          (Sample.editor_with_password "hello world") true Sample.w0
        = (Ok (mkEffects [encryption_successful] (Some file)), w'))
  /\ (exists box w',
        durga.set_password (mkEditor "hello world" None JNull)
          (mkInput "correct-horse" true) Sample.w0
        = (Ok (show box, Sample.editor_with_password "hello world"), w')).
Proof.
  split; [|split].
  - now apply durga_save_without_password.
  - do 2 eexists. now apply example_save.
  - do 2 eexists. vm_compute. reflexivity.
Qed.

Lemma occurs_in_inner (pre x post l : bytes) :
  occurs_in (pre ++ x ++ post) l = true -> occurs_in x l = true.
Proof.
  intros H. apply occurs_in_iff in H as (a & b & ->). apply occurs_in_iff.
  exists (a ++ pre), (post ++ b). now rewrite <- !app_assoc.
Qed.

Lemma container_contents_witness :
  "correct-horse"%string <> ""%string
  /\ exists eff,
       durga.save_encrypted_file Toy.toy_backend
         (mkEditor "hello world" (Some "correct-horse"%string)
            (JStr (hexlify (draw 16 Sample.w0)))) true (advance 16 Sample.w0)
       = (Ok eff, advance 16 (advance 16 (advance 16 Sample.w0)))
       /\ forall content,
            eff = mkEffects [encryption_successful] (Some content) ->
            occurs_in (encode (hexlify (draw 16 Sample.w0))) content = true.
Proof.
  assert (H : "correct-horse"%string <> ""%string) by discriminate.
  split; [exact H|].
  exact (proj2 (proj2 (container_contents Toy.toy_backend toy_sha_length
                         (encode "hello world")
                         "hello world"%string "correct-horse"%string
                         Sample.w0 (advance 16 Sample.w0) H))).
Defined.

(** C3, counterexample. The editor holds the recovery key that
    [set_password] generated in world [w0]; the file that
    [save_encrypted_file] of [durga.py] writes contains that key, as it was
    shown to the user. *)
Lemma durga_container_holds_recovery_key :
  exists file w',
    durga.save_encrypted_file Toy.toy_backend
      (Sample.editor_with_password "hello world") true (advance 16 Sample.w0)
    = (Ok (mkEffects [encryption_successful] (Some file)), w')
    /\ occurs_in (encode "000102030405060708090a0b0c0d0e0f") file = true.
Proof.
  do 2 eexists. split; [now apply example_save|].
  generalize (cfb_container Toy.toy_backend (encode "hello world") "correct-horse"
                (advance 16 Sample.w0)).
  intros container.
  apply occurs_in_app_r.
  apply occurs_in_inner with (pre := [x22]) (post := [x22]).
  destruct (durga_header_holds_key (Sample.editor_with_password "hello world")
              (advance 16 Sample.w0)) as (pre & post & Hh).
  apply occurs_in_iff. exists pre, (post ++ container).
  rewrite Hh, <- !app_assoc. reflexivity.
Qed.

Lemma wrong_password_is_not_detected_witness :
  "wrong"%string <> ""%string
  /\ exists container w' out,
       durga.encrypt_data Toy.toy_backend (encode "hello world") "correct-horse"
         Sample.w0 = (Ok container, w')
       /\ length out = length (encode "hello world")
       /\ durga.decrypt_data Toy.toy_backend container "wrong" Sample.w0
          = (Ok out, Sample.w0)
       /\ durga.decrypt_text Toy.toy_backend container "wrong" Sample.w0
          = (decode out, Sample.w0)
       /\ AI.open_encrypted_file Toy.toy_backend (mkEditor "" None JNull)
            (Some container) (mkInput "wrong" true) Sample.w0
          = (Ok (if utf8_valid out
                 then (nothing, mkEditor (setText Toy.toy_backend
                                            (string_of_list_byte out))
                                  (Some "wrong"%string)
                                  (recovery_key (mkEditor "" None JNull)))
                 else (show (Critical "Error" "Failed to decrypt. Invalid password?"),
                       mkEditor "" None JNull)), Sample.w0)
       /\ (encode "hello world" = [] -> out = []).
Proof.
  assert (H : "wrong"%string <> ""%string) by discriminate.
  split; [exact H|].
  exact (proj1 (wrong_password_is_not_detected Toy.toy_backend toy_sha_length
                  toy_encrypt_length (mkEditor "" None JNull) (encode "hello world")
                  "correct-horse"%string "wrong"%string Sample.w0 Sample.w0 H)).
Defined.

(** C4, counterexample. An empty document is sealed under one password and
    opened under another: [open_encrypted_file] of [AI.py] puts the empty
    text into the editor and stores the wrong password, and the password
    attempt of [durga.py] returns the empty text. Nothing is raised. *)
Lemma wrong_password_opens_empty_document :
  exists container w',
    AI.encrypt_data Toy.toy_backend [] "correct-horse" Sample.w0 = (Ok container, w')
    /\ AI.open_encrypted_file Toy.toy_backend (mkEditor "draft" None JNull)
         (Some container) (mkInput "wrong" true) w'
       = (Ok (nothing, mkEditor "" (Some "wrong"%string) JNull), w')
    /\ durga.decrypt_text Toy.toy_backend container "wrong" w' = (Ok ""%string, w').
Proof.
  exists (cfb_container Toy.toy_backend [] "correct-horse" Sample.w0),
    (advance 16 (advance 16 Sample.w0)).
  assert (Hd : durga.decrypt_data Toy.toy_backend
                 (cfb_container Toy.toy_backend [] "correct-horse" Sample.w0)
                 "wrong" (advance 16 (advance 16 Sample.w0))
               = (Ok [], advance 16 (advance 16 Sample.w0))).
  { now rewrite (durga_decrypt_sealed Toy.toy_backend toy_sha_length). }
  split; [|split].
  - rewrite AI_is_durga_encrypt.
    apply (durga_encrypt_data_run Toy.toy_backend toy_sha_length).
  - assert (Hne : "wrong"%string <> ""%string) by discriminate.
    rewrite (AI_open_run Toy.toy_backend (mkEditor "draft" None JNull) _
               "wrong"%string _ [] Hne Hd).
    reflexivity.
  - rewrite (durga_decrypt_text_of Toy.toy_backend _ "wrong"%string _ [] Hd).
    reflexivity.
Qed.

Lemma ciphertext_is_malleable_witness :
  3 < length (encode "0123456789abcdef0123456789abcdefXYZ") /\ x01 <> x00
  /\ 32 <= length (encode "0123456789abcdef0123456789abcdefXYZ") /\ 3 < 16
  /\ (exists container w' out,
        durga.encrypt_data Toy.toy_backend
          (encode "0123456789abcdef0123456789abcdefXYZ") "correct-horse" Sample.w0
        = (Ok container, w')
        /\ durga.decrypt_data Toy.toy_backend (xor_at (32 + 3) x01 container)
             "correct-horse" Sample.w0 = (Ok out, Sample.w0)
        /\ out <> encode "0123456789abcdef0123456789abcdefXYZ")
  /\ (exists s w' out,
        passward.seal Toy.toy_backend
          (encode "0123456789abcdef0123456789abcdefXYZ") "correct-horse" Sample.w0
        = (Ok s, w')
        /\ passward.decrypt_with_password Toy.toy_backend (passward.salt s)
             (passward.iv s) (xor_at 3 x01 (passward.encrypted s))
             "correct-horse" Sample.w0 = (Ok out, Sample.w0)
        /\ out <> encode "0123456789abcdef0123456789abcdefXYZ").
Proof.
  assert (Hi : 3 < length (encode "0123456789abcdef0123456789abcdefXYZ"))
    by (cbn; lia).
  assert (Hd : x01 <> x00) by discriminate.
  assert (Hlen : 32 <= length (encode "0123456789abcdef0123456789abcdefXYZ"))
    by (cbn; lia).
  assert (Hi16 : 3 < 16) by lia.
  split; [exact Hi|]. split; [exact Hd|]. split; [exact Hlen|]. split; [exact Hi16|].
  destruct (ciphertext_is_malleable Toy.toy_backend toy_sha_length toy_encrypt_length
              toy_decrypt_length toy_decrypt_encrypt
              (encode "0123456789abcdef0123456789abcdefXYZ") "correct-horse"%string
              Sample.w0 Sample.w0 3 x01 Hi Hd) as [Hcfb Hcbc].
  split.
  - destruct Hcfb as (container & w' & out & H1 & _ & H3 & _ & _ & _ & _ & _ & H9).
    exists container, w', out. auto.
  - destruct (Hcbc Hlen Hi16) as (s & w' & out & H1 & H2 & _ & _ & _ & H6).
    exists s, w', out. auto.
Defined.

(** C5, counterexample. The document [a] is sealed; the one byte of its
    ciphertext (position 32 of the container) has its lowest bit flipped;
    the password attempt of [durga.py] with the right password raises
    nothing and returns another document. *)
Lemma modified_ciphertext_is_accepted :
  exists container w',
    durga.encrypt_data Toy.toy_backend (encode "a") "correct-horse" Sample.w0
    = (Ok container, w')
    /\ durga.decrypt_text Toy.toy_backend (xor_at 32 x01 container) "correct-horse" w'
       = (Ok "`"%string, w').
Proof.
  exists (cfb_container Toy.toy_backend (encode "a") "correct-horse" Sample.w0),
    (advance 16 (advance 16 Sample.w0)).
  split; [apply (durga_encrypt_data_run Toy.toy_backend toy_sha_length)|].
  apply durga_decrypt_text_of with (out := encode "`").
  set (salt := draw 16 Sample.w0). set (iv := draw 16 (advance 16 Sample.w0)).
  set (key := cfb_key Toy.toy_backend "correct-horse" salt).
  set (k := hd x00 (AES_encrypt_block Toy.toy_backend key iv)).
  assert (Hc : xor_at 32 x01
                 (cfb_container Toy.toy_backend (encode "a") "correct-horse" Sample.w0)
               = salt ++ iv ++ [byte_xor (byte_xor "a" k) x01]).
  { unfold cfb_container. fold salt iv key.
    change 32 with (length salt + (length iv + 0)).
    now rewrite !xor_at_app. }
  rewrite Hc.
  rewrite (durga_decrypt_data_run Toy.toy_backend toy_sha_length)
    by (rewrite !length_app; cbn; lia).
  destruct (split_container salt iv [byte_xor (byte_xor "a" k) x01])
    as (E1 & E2 & E3); [apply draw_length|apply draw_length|].
  rewrite E1, E2, E3. fold key. cbn [cfb_stream]. fold k.
  clearbody k. clear.
  rewrite byte_xor_assoc, (byte_xor_comm x01 k), <- byte_xor_assoc, byte_xor_cancel.
  reflexivity.
Qed.

Lemma escrow_reuses_content_iv_witness :
  exists s w',
    passward.seal Toy.toy_backend (encode "hello world") "correct-horse" Sample.w0
    = (Ok s, w')
    /\ w' = advance 16 (advance 16 (advance 16 (advance 16 Sample.w0)))
    /\ passward.salt s = draw 16 Sample.w0
    /\ passward.iv s = draw 16 (advance 16 Sample.w0)
    /\ passward.recovery_key s
       = urlsafe_b64encode (draw 16 (advance 16 (advance 16 Sample.w0)))
    /\ passward.recovery_salt s
       = draw 16 (advance 16 (advance 16 (advance 16 Sample.w0)))
    /\ (forall w2,
          passward.generate_key Toy.toy_backend (passward.recovery_key s)
            (passward.recovery_salt s) w2
          = (Ok (passward.recovery_key_bytes s), w2))
    /\ length (passward.key s) = 32
    /\ passward.encrypted_key s
       = cbc_encrypt_blocks Toy.toy_backend (passward.recovery_key_bytes s) 3
           (passward.iv s) (passward.key s ++ repeat x10 16)
    /\ (forall iv',
          length iv' = 16 ->
          passward.encrypted_key s
          = cbc_encrypt_blocks Toy.toy_backend (passward.recovery_key_bytes s) 3 iv'
              (passward.key s ++ repeat x10 16) ->
          iv' = passward.iv s).
Proof.
  exact (escrow_reuses_content_iv Toy.toy_backend toy_sha_length toy_encrypt_length
           toy_decrypt_encrypt (encode "hello world") "correct-horse"%string
           Sample.w0).
Defined.

(** C6, counterexample. [seal] is run on a document: it draws 64 bytes
    (salt, IV, recovery secret, recovery salt), and the wrapped key is the
    CBC encryption of the padded content key under the IV that is stored
    with the content ciphertext. No second IV exists. *)
Lemma wrap_uses_the_content_iv :
  exists s w',
    passward.seal Toy.toy_backend (encode "hello world") "correct-horse" Sample.w0
    = (Ok s, w')
    /\ w' = advance 16 (advance 16 (advance 16 (advance 16 Sample.w0)))
    /\ passward.iv s = draw 16 (advance 16 Sample.w0)
    /\ passward.encrypted_key s
       = cbc_encrypt_blocks Toy.toy_backend (passward.recovery_key_bytes s) 3
           (passward.iv s) (passward.key s ++ repeat x10 16).
Proof.
  exists (sealed_in Toy.toy_backend (encode "hello world") "correct-horse" Sample.w0),
    (advance 16 (advance 16 (advance 16 (advance 16 Sample.w0)))).
  split; [apply (passward_seal_run Toy.toy_backend toy_sha_length)|].
  split; [reflexivity|]. split; [reflexivity|].
  unfold sealed_in.
  cbn [passward.iv passward.key passward.recovery_key_bytes passward.encrypted_key].
  apply cbc_encrypt_key. apply (cbc_key_length Toy.toy_backend toy_sha_length).
Qed.


(* ================================================================== *)
(** * Files, keys and menus: more of the code *)
(* ================================================================== *)

(** ** Text, integers and base64 *)

Lemma json_plain_ascii (b : byte) : json_plain b = true -> byte_in 0 127 b = true.
Proof. destruct b; intros H; try discriminate H; reflexivity. Qed.

Lemma ascii_code_points (l : bytes) :
  forallb (byte_in 0 127) l = true -> utf8_code_points l = Some (map Byte.to_N l).
Proof.
  induction l as [|b l IH]; cbn [forallb map]; [reflexivity|].
  rewrite andb_true_iff. intros [Hb Hl]. cbn [utf8_code_points].
  rewrite IH by assumption.
  replace (Byte.to_N b <? 128)%N with true; [reflexivity|].
  symmetry. apply N.ltb_lt. unfold byte_in in Hb.
  apply andb_true_iff in Hb as [_ Hb]. apply N.leb_le in Hb. lia.
Qed.

Lemma decode_ascii (l : bytes) :
  forallb (byte_in 0 127) l = true -> decode l = Ok (string_of_list_byte l).
Proof.
  intros H. unfold decode, utf8_valid. now rewrite ascii_code_points.
Qed.

Lemma scan_string_plain (s rest : bytes) :
  forallb json_plain s = true -> scan_string (s ++ x22 :: rest) = Some (s, rest).
Proof.
  induction s as [|b s IH]; cbn [forallb app]; [reflexivity|].
  rewrite andb_true_iff. intros [Hb Hs]. specialize (IH Hs).
  destruct b; try discriminate Hb; cbn [scan_string]; rewrite IH; reflexivity.
Qed.

Lemma byte_of_N_to_N (n : N) : Byte.to_N (byte_of_N n) = (n mod 256)%N.
Proof.
  unfold byte_of_N.
  destruct (Byte.of_N (n mod 256)) as [b|] eqn:E.
  - now apply Byte.to_of_N.
  - apply Byte.of_N_None_iff in E. pose proof (N.mod_upper_bound n 256). lia.
Qed.

Lemma int_from_bytes4 (a b c d : byte) :
  int_from_bytes [a; b; c; d]
  = (((Byte.to_N a * 256 + Byte.to_N b) * 256 + Byte.to_N c) * 256 + Byte.to_N d)%N.
Proof. reflexivity. Qed.

Lemma int_bytes_round_trip (n : N) :
  (n < 4294967296)%N ->
  exists size, int_to_bytes4 n = Ok size /\ length size = 4 /\ int_from_bytes size = n.
Proof.
  intros H. unfold int_to_bytes4.
  replace (n <? 4294967296)%N with true by (symmetry; now apply N.ltb_lt).
  eexists. split; [reflexivity|]. split; [reflexivity|].
  rewrite int_from_bytes4, !byte_of_N_to_N.
  clear - H. zify. Z.to_euclidean_division_equations. lia.
Qed.

Lemma byte_of_nat_of_byte (x : byte) : byte_of_nat (Byte.to_nat x) = x.
Proof.
  unfold byte_of_nat. pose proof (Byte.to_nat_bounded x).
  rewrite Nat.mod_small by lia. now rewrite Byte.of_to_nat.
Qed.

Definition b64_char_ok (n : nat) : bool :=
  match index_of (b64_char n) b64_alphabet 0 with
  | Some m => n =? m
  | None => false
  end && negb (byte_eqb (b64_char n) x3d) && json_plain (b64_char n).

Lemma b64_chars_ok : forallb b64_char_ok (seq 0 64) = true.
Proof. vm_compute. reflexivity. Qed.

Lemma b64_char_spec (n : nat) :
  n < 64 ->
  index_of (b64_char n) b64_alphabet 0 = Some n
  /\ byte_eqb (b64_char n) x3d = false
  /\ json_plain (b64_char n) = true.
Proof.
  intros H. pose proof b64_chars_ok as Hall. rewrite forallb_forall in Hall.
  specialize (Hall n). unfold b64_char_ok in Hall.
  rewrite !andb_true_iff in Hall.
  destruct Hall as [[H1 H2] H3]; [apply in_seq; lia|].
  destruct (index_of (b64_char n) b64_alphabet 0) as [m|]; [|discriminate].
  apply Nat.eqb_eq in H1. subst m. apply negb_true_iff in H2. auto.
Qed.

(** One character of the alphabet read by [a2b_base64]. *)
Lemma a2b_base64_char (v : nat) (r : bytes) (quad_pos pads leftchar : nat) :
  v < 64 ->
  a2b_base64 (b64_char v :: r) quad_pos pads leftchar =
  match quad_pos with
  | 0 => a2b_base64 r 1 0 v
  | 1 => out <-r a2b_base64 r 2 0 (v mod 16) ;;
         Ok (byte_of_nat (leftchar * 4 + v / 16) :: out)
  | 2 => out <-r a2b_base64 r 3 0 (v mod 4) ;;
         Ok (byte_of_nat (leftchar * 16 + v / 4) :: out)
  | _ => out <-r a2b_base64 r 0 0 0 ;;
         Ok (byte_of_nat (leftchar * 64 + v) :: out)
  end.
Proof.
  intros H. destruct (b64_char_spec v H) as (Hi & He & _).
  cbn [a2b_base64]. rewrite He, Hi. reflexivity.
Qed.

Lemma b64_quad_arith (a b c : nat) :
  a < 256 -> b < 256 -> c < 256 ->
  a / 4 * 4 + (a mod 4 * 16 + b / 16) / 16 = a
  /\ (a mod 4 * 16 + b / 16) mod 16 * 16 + (b mod 16 * 4 + c / 64) / 4 = b
  /\ (b mod 16 * 4 + c / 64) mod 4 * 64 + c mod 64 = c
  /\ a / 4 < 64 /\ a mod 4 * 16 + b / 16 < 64
  /\ b mod 16 * 4 + c / 64 < 64 /\ c mod 64 < 64.
Proof.
  intros Ha Hb Hc.
  assert (Hb16 : b / 16 < 16) by (apply Nat.Div0.div_lt_upper_bound; lia).
  assert (Hc64 : c / 64 < 4) by (apply Nat.Div0.div_lt_upper_bound; lia).
  assert (Ha4 : a / 4 < 64) by (apply Nat.Div0.div_lt_upper_bound; lia).
  pose proof (Nat.mod_upper_bound a 4 ltac:(lia)) as Ham.
  pose proof (Nat.mod_upper_bound b 16 ltac:(lia)) as Hbm.
  pose proof (Nat.mod_upper_bound c 64 ltac:(lia)) as Hcm.
  pose proof (Nat.div_mod_eq a 4) as Ea.
  pose proof (Nat.div_mod_eq b 16) as Eb.
  pose proof (Nat.div_mod_eq c 64) as Ec.
  assert (E1 : (a mod 4 * 16 + b / 16) / 16 = a mod 4).
  { rewrite Nat.div_add_l by lia. rewrite (Nat.div_small (b / 16)) by lia. lia. }
  assert (E2 : (a mod 4 * 16 + b / 16) mod 16 = b / 16).
  { rewrite Nat.add_comm, Nat.Div0.mod_add. apply Nat.mod_small. lia. }
  assert (E3 : (b mod 16 * 4 + c / 64) / 4 = b mod 16).
  { rewrite Nat.div_add_l by lia. rewrite (Nat.div_small (c / 64)) by lia. lia. }
  assert (E4 : (b mod 16 * 4 + c / 64) mod 4 = c / 64).
  { rewrite Nat.add_comm, Nat.Div0.mod_add. apply Nat.mod_small. lia. }
  rewrite E1, E2, E3, E4. repeat split; lia.
Qed.

Lemma b64_quad (a b c : byte) :
  let x := Byte.to_nat a in
  let y := Byte.to_nat b in
  let z := Byte.to_nat c in
  byte_of_nat (x / 4 * 4 + (x mod 4 * 16 + y / 16) / 16) = a
  /\ byte_of_nat ((x mod 4 * 16 + y / 16) mod 16 * 16 + (y mod 16 * 4 + z / 64) / 4) = b
  /\ byte_of_nat ((y mod 16 * 4 + z / 64) mod 4 * 64 + z mod 64) = c
  /\ x / 4 < 64 /\ x mod 4 * 16 + y / 16 < 64
  /\ y mod 16 * 4 + z / 64 < 64 /\ z mod 64 < 64.
Proof.
  intros x y z.
  pose proof (Byte.to_nat_bounded a) as Ha. pose proof (Byte.to_nat_bounded b) as Hb.
  pose proof (Byte.to_nat_bounded c) as Hc.
  pose proof (b64_quad_arith x y z ltac:(unfold x; lia) ltac:(unfold y; lia)
                ltac:(unfold z; lia)) as (E1 & E2 & E3 & H).
  rewrite E1, E2, E3. unfold x, y, z. rewrite !byte_of_nat_of_byte. auto.
Qed.

(** [a2b_base64] inverts [b2a_base64]. *)
Lemma a2b_b2a_base64 (data : bytes) : a2b_base64 (b2a_base64 data) 0 0 0 = Ok data.
Proof.
  assert (H : forall n data, length data <= n ->
                             a2b_base64 (b2a_base64 data) 0 0 0 = Ok data).
  { clear data. induction n as [|n IH]; intros data Hn.
    - destruct data; [reflexivity|cbn in Hn; lia].
    - destruct data as [|a [|b [|c rest]]].
      + reflexivity.
      + destruct (b64_quad a x00 x00) as (E1 & _ & _ & H1 & H2 & _).
        cbv zeta in *. change (Byte.to_nat x00) with 0 in *.
        rewrite Nat.add_0_r in H2.
        change (0 / 16) with 0 in E1. rewrite Nat.add_0_r in E1.
        cbn [b2a_base64].
        rewrite a2b_base64_char by assumption.
        rewrite a2b_base64_char by assumption.
        cbn [a2b_base64 byte_eqb Byte.eqb Nat.leb andb Nat.add rbind].
        now rewrite E1.
      + destruct (b64_quad a b x00) as (E1 & E2 & _ & H1 & H2 & H3 & _).
        cbv zeta in *. change (Byte.to_nat x00) with 0 in *.
        change (0 / 64) with 0 in *. rewrite Nat.add_0_r in H3, E2.
        cbn [b2a_base64].
        rewrite !a2b_base64_char by assumption.
        cbn [a2b_base64 byte_eqb Byte.eqb Nat.leb andb Nat.add rbind].
        now rewrite E1, E2.
      + destruct (b64_quad a b c) as (E1 & E2 & E3 & H1 & H2 & H3 & H4).
        cbv zeta in *.
        cbn [b2a_base64].
        rewrite !a2b_base64_char by assumption.
        rewrite IH by (cbn [length] in Hn; lia).
        cbn [rbind]. now rewrite E1, E2, E3. }
  apply (H (length data)). lia.
Qed.

Lemma b2a_base64_plain (data : bytes) : forallb json_plain (b2a_base64 data) = true.
Proof.
  assert (H : forall n data, length data <= n ->
                             forallb json_plain (b2a_base64 data) = true).
  { clear data. induction n as [|n IH]; intros data Hn.
    - destruct data; [reflexivity|cbn in Hn; lia].
    - destruct data as [|a [|b [|c rest]]].
      + reflexivity.
      + destruct (b64_quad a x00 x00) as (_ & _ & _ & H1 & H2 & _).
        cbv zeta in *. change (Byte.to_nat x00) with 0 in *.
        rewrite Nat.add_0_r in H2.
        cbn [b2a_base64 forallb].
        destruct (b64_char_spec _ H1) as (_ & _ & ->).
        destruct (b64_char_spec _ H2) as (_ & _ & ->). reflexivity.
      + destruct (b64_quad a b x00) as (_ & _ & _ & H1 & H2 & H3 & _).
        cbv zeta in *. change (Byte.to_nat x00) with 0 in *.
        change (0 / 64) with 0 in *. rewrite Nat.add_0_r in H3.
        cbn [b2a_base64 forallb].
        destruct (b64_char_spec _ H1) as (_ & _ & ->).
        destruct (b64_char_spec _ H2) as (_ & _ & ->).
        destruct (b64_char_spec _ H3) as (_ & _ & ->). reflexivity.
      + destruct (b64_quad a b c) as (_ & _ & _ & H1 & H2 & H3 & H4).
        cbv zeta in *.
        cbn [b2a_base64 forallb].
        destruct (b64_char_spec _ H1) as (_ & _ & ->).
        destruct (b64_char_spec _ H2) as (_ & _ & ->).
        destruct (b64_char_spec _ H3) as (_ & _ & ->).
        destruct (b64_char_spec _ H4) as (_ & _ & ->).
        rewrite IH by (cbn [length] in Hn; lia). reflexivity. }
  apply (H (length data)). lia.
Qed.

(** ** JSON written and read back *)

Lemma encode_string_of_bytes (l : bytes) : encode (string_of_list_byte l) = l.
Proof. apply list_byte_of_string_of_list_byte. Qed.

Lemma forallb_impl {A} (p q : A -> bool) (l : list A) :
  (forall x, p x = true -> q x = true) -> forallb p l = true -> forallb q l = true.
Proof.
  intros Hpq. induction l as [|x l IH]; cbn [forallb]; [reflexivity|].
  rewrite !andb_true_iff. intros [Hx Hl]. auto.
Qed.

Lemma b64decode_b64encode (data : bytes) : b64decode (JStr (b64encode data)) = Ok data.
Proof.
  unfold b64decode, b64encode. rewrite encode_string_of_bytes.
  rewrite (forallb_impl json_plain (byte_in 0 127))
    by (apply json_plain_ascii || apply b2a_base64_plain).
  apply a2b_b2a_base64.
Qed.

(** ** The fuel of the scanner *)

Lemma skip_ws_length (s : bytes) : length (skip_ws s) <= length s.
Proof.
  induction s as [|b s IH]; cbn [skip_ws]; [lia|].
  destruct (is_ws b); cbn [length]; lia.
Qed.

Lemma prepend_rest (p : bytes) (r : option (bytes * bytes)) (body rest : bytes) :
  prepend p r = Some (body, rest) -> exists body', r = Some (body', rest).
Proof.
  destruct r as [[b' r']|]; cbn [prepend]; [|discriminate].
  intros [= _ <-]. eauto.
Qed.

(** A string ends with its closing quote: what follows it is shorter. *)
Lemma scan_string_rest_bounded (n : nat) (s body rest : bytes) :
  length s <= n ->
  scan_string s = Some (body, rest) -> length rest < length s.
Proof.
  revert s body rest.
  induction n as [|n IH]; intros s body rest Hle.
  - destruct s; [discriminate|cbn [length] in Hle; lia].
  - destruct s as [|b r]; [discriminate|]. cbn [length] in Hle.
    assert (Hstep : forall p r' body rest,
               length r' <= n ->
               prepend p (scan_string r') = Some (body, rest) ->
               length rest < S (length r')).
    { intros p r' body0 rest0 Hr' H. apply prepend_rest in H as [body' H].
      apply IH in H; lia. }
    destruct b;
      try (cbn [scan_string];
           match goal with
           | |- context [if ?c then None else _] =>
               destruct c; [discriminate|];
               intros H; apply Hstep in H; cbn [length]; lia
           end).
    + (* the closing quote *)
      cbn [scan_string]. intros [= _ <-]. cbn [length]. lia.
    + (* an escape *)
      cbn [scan_string].
      destruct r as [|c r']; [discriminate|]. cbn [length] in *.
      destruct c; try discriminate;
        try (intros H; apply Hstep in H; cbn [length]; lia).
      destruct r' as [|a1 [|a2 [|a3 [|a4 r'']]]]; try discriminate.
      cbn [length] in *.
      destruct (hex4 a1 a2 a3 a4) as [u|]; [|discriminate].
      destruct (if is_high_surrogate u then low_surrogate_ahead r'' else None).
      * destruct r'' as [|b1 [|b2 [|b3 [|b4 [|b5 [|b6 r3]]]]]];
          intros H; apply Hstep in H; cbn [length] in *; lia.
      * intros H; apply Hstep in H; cbn [length] in *; lia.
Qed.

Lemma scan_string_rest (s body rest : bytes) :
  scan_string s = Some (body, rest) -> length rest < length s.
Proof. now apply (scan_string_rest_bounded (length s)). Qed.

Lemma span_digits_rest (s : bytes) : length (snd (span_digits s)) <= length s.
Proof.
  induction s as [|b s IH]; cbn [span_digits]; [cbn; lia|].
  destruct (is_digit b); [|cbn; lia].
  destruct (span_digits s) as [ds rest]. cbn [snd length] in *. lia.
Qed.

(** A number has one digit at least: what follows it is shorter. *)
Lemma scan_number_rest (s lit rest : bytes) :
  scan_number s = Some (lit, rest) -> length rest < length s.
Proof.
  unfold scan_number.
  match goal with
  | |- context [let '(_, _) := ?sg in _] =>
      assert (Hsg : length (snd sg) <= length s)
        by (destruct s as [|b r]; [cbn; lia|]; destruct b; cbn; lia);
      destruct sg as [sign s1]
  end.
  cbn [snd] in Hsg. destruct s1 as [|d r1]; [discriminate|].
  destruct (negb (is_digit d)); [discriminate|].
  match goal with
  | |- context [let '(_, _) := ?ip in _] =>
      assert (Hip : length (snd ip) <= length r1)
        by (destruct (byte_eqb d x30); [cbn; lia|apply span_digits_rest]);
      destruct ip as [int_rest s2]
  end.
  cbn [snd] in Hip.
  match goal with
  | |- context [let '(_, _) := ?fp in _] =>
      assert (Hfp : length (snd fp) <= length s2);
      [|destruct fp as [frac s3]]
  end.
  { destruct s2 as [|c r2]; [cbn; lia|].
    pose proof (span_digits_rest r2) as H2.
    destruct c; try (cbn; lia).
    destruct (span_digits r2) as [ds r3]. destruct ds; cbn [snd length] in *; lia. }
  cbn [snd] in Hfp.
  match goal with
  | |- context [let '(_, _) := ?ep in _] =>
      assert (Hep : length (snd ep) <= length s3);
      [|destruct ep as [exp s4]]
  end.
  { destruct s3 as [|e r4]; [cbn; lia|].
    destruct (byte_eqb e x65 || byte_eqb e x45); [|cbn; lia].
    match goal with
    | |- context [let '(_, _) := ?sp in _] =>
        assert (Hsp : length (snd sp) <= length r4)
          by (destruct r4 as [|b r]; [cbn; lia|]; destruct b; cbn; lia);
        destruct sp as [sg r5]
    end.
    cbn [snd] in Hsp. pose proof (span_digits_rest r5) as H5.
    destruct (span_digits r5) as [ds r6]. destruct ds; cbn [snd length] in *; lia. }
  cbn [snd] in Hep. intros [= _ <-]. cbn [length] in *. lia.
Qed.

Lemma strip_prefix_rest (p s rest : bytes) :
  p <> [] -> strip_prefix p s = Some rest -> length rest < length s.
Proof.
  intros Hp. unfold strip_prefix. destruct (is_prefix p s) eqn:E; [|discriminate].
  intros [= <-]. apply is_prefix_split in E as [post ->].
  rewrite skipn_app, Nat.sub_diag, skipn_O.
  rewrite skipn_all2 by (unfold length; lia).
  cbn [app]. rewrite length_app. destruct p; [contradiction|]. cbn [length]. lia.
Qed.

Lemma scan_constant_rest (m : nat) (s : bytes) (v : json) (rest : bytes) :
  scan_constant m s = Ok (v, rest) -> length rest < length s.
Proof.
  unfold scan_constant.
  destruct (strip_prefix (encode "null") s) eqn:E1;
    [intros [= _ <-]; now apply strip_prefix_rest in E1|].
  destruct (strip_prefix (encode "true") s) eqn:E2;
    [intros [= _ <-]; now apply strip_prefix_rest in E2|].
  destruct (strip_prefix (encode "false") s) eqn:E3;
    [intros [= _ <-]; now apply strip_prefix_rest in E3|].
  destruct (scan_number s) as [[lit r]|] eqn:E4.
  { apply scan_number_rest in E4.
    destruct (number_repr m lit); [|discriminate]. now intros [= _ <-]. }
  destruct (strip_prefix (encode "NaN") s) eqn:E5;
    [intros [= _ <-]; now apply strip_prefix_rest in E5|].
  destruct (strip_prefix (encode "Infinity") s) eqn:E6;
    [intros [= _ <-]; now apply strip_prefix_rest in E6|].
  destruct (strip_prefix (encode "-Infinity") s) eqn:E7;
    [intros [= _ <-]; now apply strip_prefix_rest in E7|].
  discriminate.
Qed.

(** Every value the scanner reads is made of one byte at least. *)
Lemma scan_rest (m fuel : nat) :
  (forall depth s v rest,
     scan_once m fuel depth s = Ok (v, rest) -> length rest < length s)
  /\ (forall depth s d v rest,
        scan_members m fuel depth s d = Ok (v, rest) -> length rest < length s)
  /\ (forall depth s acc v rest,
        scan_elements m fuel depth s acc = Ok (v, rest) -> length rest < length s).
Proof.
  induction fuel as [|fuel (IHo & IHm & IHe)];
    [split; [|split]; intros; discriminate|].
  split; [|split].
  - intros depth s v rest. cbn [scan_once].
    destruct s as [|b r]; [apply scan_constant_rest|].
    destruct b; try apply scan_constant_rest.
    + destruct (scan_string r) as [[body rest']|] eqn:E; [|discriminate].
      intros [= _ <-]. apply scan_string_rest in E. cbn [length]. lia.
    + destruct depth; [discriminate|]. pose proof (skip_ws_length r) as Hr.
      destruct (skip_ws r) as [|c r']; [intros H; apply IHe in H; cbn in *; lia|].
      destruct c; try (intros H; apply IHe in H; cbn [length] in *; lia).
      intros [= _ <-]. cbn [length] in *. lia.
    + destruct depth; [discriminate|]. pose proof (skip_ws_length r) as Hr.
      destruct (skip_ws r) as [|c r']; [intros H; apply IHm in H; cbn in *; lia|].
      destruct c; try (intros H; apply IHm in H; cbn [length] in *; lia).
      intros [= _ <-]. cbn [length] in *. lia.
  - intros depth s d v rest. cbn [scan_members].
    destruct s as [|b r]; [discriminate|]. destruct b; try discriminate.
    destruct (scan_string r) as [[key r1]|] eqn:Ek; [|discriminate].
    apply scan_string_rest in Ek. pose proof (skip_ws_length r1) as H1.
    destruct (skip_ws r1) as [|c r2]; [discriminate|]. destruct c; try discriminate.
    pose proof (skip_ws_length r2) as H2.
    destruct (scan_once m fuel depth (skip_ws r2)) as [[v0 r3]|e] eqn:Ev;
      cbn [rbind]; [|discriminate].
    apply IHo in Ev. pose proof (skip_ws_length r3) as H3.
    destruct (skip_ws r3) as [|c r4]; [discriminate|]. destruct c; try discriminate.
    + pose proof (skip_ws_length r4) as H4. intros H. apply IHm in H.
      cbn [length] in *. lia.
    + intros [= _ <-]. cbn [length] in *. lia.
  - intros depth s acc v rest. cbn [scan_elements].
    destruct (scan_once m fuel depth s) as [[v0 r1]|e] eqn:Ev;
      cbn [rbind]; [|discriminate].
    apply IHo in Ev. pose proof (skip_ws_length r1) as H1.
    destruct (skip_ws r1) as [|c r2]; [discriminate|]. destruct c; try discriminate.
    + pose proof (skip_ws_length r2) as H2. intros H. apply IHe in H.
      cbn [length] in *. lia.
    + intros [= _ <-]. cbn [length] in *. lia.
Qed.

(** Twice the bytes of the text are fuel enough: more fuel changes
    nothing. *)
Lemma scan_fuel (m fuel : nat) :
  (forall fuel' depth s,
     2 * length s + 1 <= fuel -> fuel <= fuel' ->
     scan_once m fuel depth s = scan_once m fuel' depth s)
  /\ (forall fuel' depth s d,
        2 * length s + 2 <= fuel -> fuel <= fuel' ->
        scan_members m fuel depth s d = scan_members m fuel' depth s d)
  /\ (forall fuel' depth s acc,
        2 * length s + 2 <= fuel -> fuel <= fuel' ->
        scan_elements m fuel depth s acc = scan_elements m fuel' depth s acc).
Proof.
  induction fuel as [|fuel (IHo & IHm & IHe)];
    [split; [|split]; intros; lia|].
  split; [|split].
  - intros fuel' depth s Hs Hf. destruct fuel' as [|fuel']; [lia|].
    cbn [scan_once]. destruct s as [|b r]; [reflexivity|].
    cbn [length] in Hs. destruct b; try reflexivity.
    + destruct depth; [reflexivity|]. pose proof (skip_ws_length r) as Hr.
      destruct (skip_ws r) as [|c r']; [apply IHe; cbn [length] in *; lia|].
      destruct c; try (apply IHe; cbn [length] in *; lia). reflexivity.
    + destruct depth; [reflexivity|]. pose proof (skip_ws_length r) as Hr.
      destruct (skip_ws r) as [|c r']; [apply IHm; cbn [length] in *; lia|].
      destruct c; try (apply IHm; cbn [length] in *; lia). reflexivity.
  - intros fuel' depth s d Hs Hf. destruct fuel' as [|fuel']; [lia|].
    cbn [scan_members]. destruct s as [|b r]; [reflexivity|].
    cbn [length] in Hs. destruct b; try reflexivity.
    destruct (scan_string r) as [[key r1]|] eqn:Ek; [|reflexivity].
    apply scan_string_rest in Ek. pose proof (skip_ws_length r1) as H1.
    destruct (skip_ws r1) as [|c r2]; [reflexivity|]. destruct c; try reflexivity.
    pose proof (skip_ws_length r2) as H2. cbn [length] in H1.
    rewrite (IHo fuel' depth (skip_ws r2)) by lia.
    destruct (scan_once m fuel' depth (skip_ws r2)) as [[v0 r3]|e] eqn:Ev;
      cbn [rbind]; [|reflexivity].
    apply (scan_rest m fuel') in Ev. pose proof (skip_ws_length r3) as H3.
    destruct (skip_ws r3) as [|c r4]; [reflexivity|]. destruct c; try reflexivity.
    pose proof (skip_ws_length r4) as H4. apply IHm; cbn [length] in *; lia.
  - intros fuel' depth s acc Hs Hf. destruct fuel' as [|fuel']; [lia|].
    cbn [scan_elements]. rewrite (IHo fuel' depth s) by lia.
    destruct (scan_once m fuel' depth s) as [[v0 r1]|e] eqn:Ev;
      cbn [rbind]; [|reflexivity].
    apply (scan_rest m fuel') in Ev. pose proof (skip_ws_length r1) as H1.
    destruct (skip_ws r1) as [|c r2]; [reflexivity|]. destruct c; try reflexivity.
    pose proof (skip_ws_length r2) as H2. apply IHe; cbn [length] in *; lia.
Qed.

(** [json.loads] has the fuel it needs: with more fuel the scanner gives
    the same result. *)
Lemma json_loads_fuel (be : backend) (s : string) (fuel : nat) :
  2 * length (encode s) + 2 <= fuel ->
  scan_once (int_max_str_digits be) fuel (recursion_limit be) (skip_ws (encode s))
  = scan_once (int_max_str_digits be) (2 * length (encode s) + 2)
      (recursion_limit be) (skip_ws (encode s)).
Proof.
  intros H. symmetry. apply scan_fuel; [|assumption].
  pose proof (skip_ws_length (encode s)). lia.
Qed.

(** ** Scanning what [json.dumps] wrote *)

(** The interpreter leaves the depth the files of the programs need. *)
Lemma recursion_limit_two (be : backend) :
  exists depth, recursion_limit be = S (S depth).
Proof.
  pose proof (recursion_limit_ok be) as H.
  destruct (recursion_limit be) as [|[|depth]]; [lia|lia|eauto].
Qed.

Lemma scan_once_plain_string (m fuel depth : nat) (s rest : bytes) :
  forallb json_plain s = true ->
  scan_once m (S fuel) depth (x22 :: s ++ x22 :: rest)
  = Ok (JStr (string_of_list_byte s), rest).
Proof.
  intros H. cbn [scan_once]. now rewrite scan_string_plain.
Qed.

(** A member [key: value] of an object, the value not yet scanned. *)
Lemma scan_members_key (m fuel depth : nat) (key : bytes) (c : byte) (r : bytes)
    (d : list (string * json)) :
  forallb json_plain key = true -> is_ws c = false ->
  scan_members m (S fuel) depth (x22 :: key ++ x22 :: x3a :: x20 :: c :: r) d =
  ('(v, r3) <-r scan_once m fuel depth (c :: r) ;;
   let d' := dict_set d (string_of_list_byte key) v in
   match skip_ws r3 with
   | x7d :: rest => Ok (JDict d', rest)
   | x2c :: r4 => scan_members m fuel depth (skip_ws r4) d'
   | _ => Raise JSONDecodeError
   end).
Proof.
  intros Hk Hc. cbn [scan_members]. rewrite scan_string_plain by assumption.
  cbn [skip_ws is_ws]. rewrite Hc. reflexivity.
Qed.

(** The [repr] of a float as [time.time()] returns it: digits, a point,
    digits, with no leading zero before other digits. *)
Definition decimal_repr (t : bytes) : bool :=
  match span_digits t with
  | (d :: ds, x2e :: frac) =>
      (negb (byte_eqb d x30) || match ds with [] => true | _ => false end)
      && match frac with [] => false | _ => true end
      && forallb is_digit frac
  | _ => false
  end.

Lemma span_digits_spec (s : bytes) :
  let '(ds, rest) := span_digits s in
  s = ds ++ rest /\ forallb is_digit ds = true
  /\ match rest with [] => True | b :: _ => is_digit b = false end.
Proof.
  induction s as [|b s IH]; cbn [span_digits]; [now auto|].
  destruct (is_digit b) eqn:Hb.
  - destruct (span_digits s) as [ds rest]. destruct IH as (-> & Hd & Hr).
    cbn [app forallb]. rewrite Hb, Hd. auto.
  - cbn [app forallb]. auto.
Qed.

Lemma span_digits_app (ds rest : bytes) :
  forallb is_digit ds = true ->
  match rest with [] => True | b :: _ => is_digit b = false end ->
  span_digits (ds ++ rest) = (ds, rest).
Proof.
  intros Hd Hr. induction ds as [|b ds IH]; cbn [app].
  - destruct rest as [|b rest]; cbn [span_digits]; [reflexivity|now rewrite Hr].
  - cbn [forallb] in Hd. apply andb_true_iff in Hd as [Hb Hd].
    cbn [span_digits]. rewrite Hb, IH by assumption. reflexivity.
Qed.

Lemma is_digit_ascii (b : byte) : is_digit b = true -> byte_in 0 127 b = true.
Proof. destruct b; intros H; try discriminate H; reflexivity. Qed.

Lemma decimal_repr_ascii (t : bytes) :
  decimal_repr t = true -> forallb (byte_in 0 127) t = true.
Proof.
  unfold decimal_repr. pose proof (span_digits_spec t) as H.
  destruct (span_digits t) as [ds rest]. destruct H as (-> & Hd & _).
  destruct ds as [|d ds]; [discriminate|].
  destruct rest as [|p frac]; [discriminate|].
  destruct p; try discriminate.
  rewrite !andb_true_iff. intros [_ Hf].
  apply (forallb_impl _ _ _ is_digit_ascii) in Hd, Hf.
  rewrite forallb_app, Hd. cbn [forallb]. now rewrite Hf.
Qed.

(** A literal with a fraction denotes a [float]: no limit on its digits
    applies. *)
Lemma number_repr_float (m : nat) (ds frac : bytes) :
  ds <> [] -> forallb is_digit ds = true ->
  exists repr, number_repr m (ds ++ x2e :: frac) = Some repr.
Proof.
  intros Hne Hd.
  assert (Hs : span_digits (ds ++ x2e :: frac) = (ds, x2e :: frac))
    by (apply span_digits_app; [assumption|reflexivity]).
  destruct ds as [|d ds]; [contradiction|].
  assert (Hd0 : is_digit d = true)
    by (cbn [forallb] in Hd; now apply andb_true_iff in Hd as [Hd0 _]).
  unfold number_repr.
  replace (split_sign ((d :: ds) ++ x2e :: frac))
    with (false, (d :: ds) ++ x2e :: frac)
    by (destruct d; try discriminate Hd0; reflexivity).
  cbv beta iota zeta. rewrite Hs. cbv beta iota zeta.
  destruct (span_digits frac) as [fr s3]. eexists. reflexivity.
Qed.

(** A number written by [json.dumps] as the last member of an object. *)
Lemma scan_once_decimal (m fuel depth : nat) (t rest : bytes) :
  decimal_repr t = true ->
  exists c r repr, t ++ x7d :: rest = c :: r /\ is_ws c = false
    /\ scan_once m (S fuel) depth (c :: r) = Ok (JNum repr, x7d :: rest).
Proof.
  unfold decimal_repr. pose proof (span_digits_spec t) as H.
  destruct (span_digits t) as [ds s2] eqn:Et. destruct H as (-> & Hd & _).
  destruct ds as [|d ds]; [discriminate|].
  destruct s2 as [|p frac]; [discriminate|].
  destruct p; try discriminate.
  rewrite !andb_true_iff. intros [[Hz Hne] Hf].
  destruct (number_repr_float m (d :: ds) frac ltac:(discriminate) Hd)
    as [repr Hrepr].
  cbn [forallb] in Hd. apply andb_true_iff in Hd as [Hd0 Hds].
  exists d, ((ds ++ x2e :: frac) ++ x7d :: rest), (string_of_list_byte repr).
  split; [reflexivity|]. split; [destruct d; try discriminate Hd0; reflexivity|].
  assert (Hint : (if byte_eqb d x30 then ([], (ds ++ x2e :: frac) ++ x7d :: rest)
                  else span_digits ((ds ++ x2e :: frac) ++ x7d :: rest))
                 = (ds, x2e :: frac ++ x7d :: rest)).
  { rewrite <- app_assoc. cbn [app].
    destruct (byte_eqb d x30) eqn:E0.
    - cbn [negb orb] in Hz. destruct ds; [reflexivity|discriminate].
    - now apply span_digits_app. }
  assert (Hnum : scan_number (d :: (ds ++ x2e :: frac) ++ x7d :: rest)
                 = Some (d :: ds ++ x2e :: frac, x7d :: rest)).
  { assert (Hfrac : span_digits (frac ++ x7d :: rest) = (frac, x7d :: rest))
      by (apply span_digits_app; [assumption|reflexivity]).
    destruct frac as [|f frac]; [discriminate|].
    unfold scan_number.
    destruct d; try discriminate Hd0; cbv beta iota zeta;
      change (negb (is_digit _)) with false; cbv beta iota;
      rewrite Hint; cbv beta iota; rewrite Hfrac;
      change (byte_eqb x7d x65 || byte_eqb x7d x45) with false; cbv beta iota;
      cbn [app]; rewrite app_nil_r; reflexivity. }
  cbn [scan_once].
  replace (match d with
           | x22 => _ | x5b => _ | x7b => _
           | _ => scan_constant m (d :: (ds ++ x2e :: frac) ++ x7d :: rest)
           end) with (scan_constant m (d :: (ds ++ x2e :: frac) ++ x7d :: rest)).
  2: destruct d; try discriminate Hd0; reflexivity.
  unfold scan_constant.
  replace (strip_prefix (encode "null") _) with (@None bytes)
    by (destruct d; try discriminate Hd0; reflexivity).
  replace (strip_prefix (encode "true") _) with (@None bytes)
    by (destruct d; try discriminate Hd0; reflexivity).
  replace (strip_prefix (encode "false") _) with (@None bytes)
    by (destruct d; try discriminate Hd0; reflexivity).
  rewrite Hnum. cbn [app] in Hrepr. rewrite Hrepr. reflexivity.
Qed.

Lemma scan_members_more (m fuel depth : nat) (key : bytes) (c : byte)
    (r next : bytes) (d : list (string * json)) (v : json) :
  forallb json_plain key = true -> is_ws c = false ->
  scan_once m fuel depth (c :: r) = Ok (v, x2c :: x20 :: x22 :: next) ->
  scan_members m (S fuel) depth (x22 :: key ++ x22 :: x3a :: x20 :: c :: r) d
  = scan_members m fuel depth (x22 :: next)
      (dict_set d (string_of_list_byte key) v).
Proof.
  intros Hk Hc Hv. rewrite scan_members_key by assumption. rewrite Hv.
  reflexivity.
Qed.

Lemma scan_members_last (m fuel depth : nat) (key : bytes) (c : byte)
    (r rest : bytes) (d : list (string * json)) (v : json) :
  forallb json_plain key = true -> is_ws c = false ->
  scan_once m fuel depth (c :: r) = Ok (v, x7d :: rest) ->
  scan_members m (S fuel) depth (x22 :: key ++ x22 :: x3a :: x20 :: c :: r) d
  = Ok (JDict (dict_set d (string_of_list_byte key) v), rest).
Proof.
  intros Hk Hc Hv. rewrite scan_members_key by assumption. rewrite Hv.
  reflexivity.
Qed.

Lemma scan_once_object (m fuel depth : nat) (r : bytes) :
  scan_once m (S fuel) (S depth) (x7b :: x22 :: r)
  = scan_members m fuel depth (x22 :: r) [].
Proof. reflexivity. Qed.

(** The header of [durga.py] for a recovery key [key] and a time stamp
    [t], byte by byte. *)
Definition durga_header_of (key t : bytes) : bytes :=
  x7b :: x22 :: encode "recovery_key" ++ x22 :: x3a :: x20
      :: x22 :: key ++ x22 :: x2c :: x20
      :: x22 :: encode "created_at" ++ x22 :: x3a :: x20 :: t ++ [x7d].

Lemma durga_header_bytes (key t : bytes) :
  forallb json_plain key = true ->
  json_dumps_bytes
    (JDict [("recovery_key"%string, JStr (string_of_list_byte key));
            ("created_at"%string, JNum (string_of_list_byte t))])
  = durga_header_of key t.
Proof.
  intros Hk. cbn [json_dumps_bytes]. rewrite json_dumps_plain by assumption.
  rewrite encode_string_of_bytes. unfold durga_header_of.
  change (json_dumps_str "recovery_key") with (x22 :: encode "recovery_key" ++ [x22]).
  change (json_dumps_str "created_at") with (x22 :: encode "created_at" ++ [x22]).
  change (encode ": ") with [x3a; x20]. change (encode ", ") with [x2c; x20].
  repeat (progress (rewrite <- ?app_assoc; cbn [app])). reflexivity.
Qed.

Lemma durga_header_ascii (key t : bytes) :
  forallb json_plain key = true -> decimal_repr t = true ->
  forallb (byte_in 0 127) (durga_header_of key t) = true.
Proof.
  intros Hk Ht. unfold durga_header_of.
  apply (forallb_impl _ _ _ json_plain_ascii) in Hk.
  apply decimal_repr_ascii in Ht.
  repeat (progress (cbn [forallb]; rewrite ?forallb_app)).
  rewrite Hk, Ht. reflexivity.
Qed.

Lemma durga_header_scan (m fuel depth : nat) (key t : bytes) :
  forallb json_plain key = true -> decimal_repr t = true ->
  exists repr,
    scan_once m (S (S (S (S fuel)))) (S depth) (durga_header_of key t)
    = Ok (JDict [("recovery_key"%string, JStr (string_of_list_byte key));
                 ("created_at"%string, JNum repr)], []).
Proof.
  intros Hk Ht. unfold durga_header_of. rewrite scan_once_object.
  erewrite scan_members_more with (key := encode "recovery_key")
                                 (v := JStr (string_of_list_byte key));
    [|reflexivity|reflexivity|now apply scan_once_plain_string].
  destruct (scan_once_decimal m fuel depth t [] Ht) as (c & r & repr & E & Hc & Hs).
  rewrite E. exists repr.
  erewrite scan_members_last with (key := encode "created_at");
    [|reflexivity|exact Hc|exact Hs].
  reflexivity.
Qed.

Lemma durga_header_loads (be : backend) (key t : bytes) :
  forallb json_plain key = true -> decimal_repr t = true ->
  exists repr,
    json_loads be (string_of_list_byte (durga_header_of key t))
    = Ok (JDict [("recovery_key"%string, JStr (string_of_list_byte key));
                 ("created_at"%string, JNum repr)]).
Proof.
  intros Hk Ht. unfold json_loads. rewrite encode_string_of_bytes.
  assert (Hlen : exists fuel,
             2 * length (durga_header_of key t) + 2 = S (S (S (S fuel)))).
  { exists (2 * length (durga_header_of key t) - 2).
    unfold durga_header_of. cbn [length]. lia. }
  destruct Hlen as [fuel ->].
  destruct (recursion_limit_two be) as [depth ->].
  replace (skip_ws (durga_header_of key t)) with (durga_header_of key t)
    by reflexivity.
  destruct (durga_header_scan (int_max_str_digits be) fuel (S depth) key t Hk Ht)
    as [repr ->].
  exists repr. reflexivity.
Qed.

Lemma write_container_ok (recovery_info encrypted_data content : bytes) :
  durga.write_container recovery_info encrypted_data = Ok content ->
  exists size,
    content = size ++ recovery_info ++ encrypted_data
    /\ length size = 4
    /\ int_from_bytes size = N.of_nat (length recovery_info).
Proof.
  unfold durga.write_container, int_to_bytes4.
  destruct (N.of_nat (length recovery_info) <? 4294967296)%N eqn:El;
    cbn [rbind]; [|discriminate].
  apply N.ltb_lt in El.
  destruct (int_bytes_round_trip _ El) as (size & Es & Hlen & Hback).
  unfold int_to_bytes4 in Es. apply N.ltb_lt in El. rewrite El in Es.
  intros E. exists size. split; [congruence|]. auto.
Qed.

Lemma read_container_app (be : backend) (size recovery_info encrypted_data : bytes) :
  length size = 4 ->
  int_from_bytes size = N.of_nat (length recovery_info) ->
  durga.read_container be (size ++ recovery_info ++ encrypted_data) =
  (text <-r decode recovery_info ;;
   recovery_data <-r json_loads be text ;;
   stored_recovery_key <-r json_get recovery_data "recovery_key" ;;
   Ok (stored_recovery_key, encrypted_data)).
Proof.
  intros Hlen Hback.
  assert (E4 : firstn 4 (size ++ recovery_info ++ encrypted_data) = size).
  { rewrite firstn_app, Hlen, Nat.sub_diag, firstn_O, app_nil_r.
    apply firstn_all2. lia. }
  assert (S4 : skipn 4 (size ++ recovery_info ++ encrypted_data)
               = recovery_info ++ encrypted_data).
  { rewrite skipn_app, Hlen, Nat.sub_diag, skipn_O, skipn_all2 by lia.
    reflexivity. }
  unfold durga.read_container.
  rewrite E4, S4, Hback, Nat2N.id.
  rewrite firstn_app, Nat.sub_diag, firstn_O, app_nil_r, firstn_all2 by lia.
  rewrite skipn_app, Nat.sub_diag, skipn_O, skipn_all2 by lia. reflexivity.
Qed.

(** What [open_encrypted_file] reads from a file that
    [save_encrypted_file] wrote: the recovery key of the header and the
    container, byte for byte. *)
Lemma durga_read_written (be : backend) (key t data content : bytes) :
  forallb json_plain key = true -> decimal_repr t = true ->
  durga.write_container (durga_header_of key t) data = Ok content ->
  durga.read_container be content = Ok (JStr (string_of_list_byte key), data).
Proof.
  intros Hk Ht Hw.
  destruct (write_container_ok _ _ _ Hw) as (size & -> & Hlen & Hback).
  rewrite read_container_app by assumption.
  rewrite decode_ascii by now apply durga_header_ascii.
  cbn [rbind]. destruct (durga_header_loads be key t Hk Ht) as [repr ->].
  reflexivity.
Qed.

Lemma decode_encode (text : string) :
  utf8_valid (encode text) = true -> decode (encode text) = Ok text.
Proof.
  intros H. unfold decode. rewrite H. unfold encode.
  now rewrite string_of_list_byte_of_string.
Qed.

Lemma write_container_fits (recovery_info encrypted_data : bytes) :
  (N.of_nat (length recovery_info) < 4294967296)%N ->
  exists content,
    durga.write_container recovery_info encrypted_data = Ok content.
Proof.
  intros H. unfold durga.write_container, int_to_bytes4.
  apply N.ltb_lt in H. rewrite H. cbn [rbind]. eauto.
Qed.

(** The JSON text of [passward.py] for five field values, byte by byte. *)
Definition passward_text (salt iv encrypted recovery_salt encrypted_key : bytes)
  : bytes :=
  x7b :: x22 :: encode "salt" ++ x22 :: x3a :: x20
      :: x22 :: salt ++ x22 :: x2c :: x20
      :: x22 :: encode "iv" ++ x22 :: x3a :: x20
      :: x22 :: iv ++ x22 :: x2c :: x20
      :: x22 :: encode "encrypted_data" ++ x22 :: x3a :: x20
      :: x22 :: encrypted ++ x22 :: x2c :: x20
      :: x22 :: encode "recovery" ++ x22 :: x3a :: x20
      :: x7b :: x22 :: encode "salt" ++ x22 :: x3a :: x20
      :: x22 :: recovery_salt ++ x22 :: x2c :: x20
      :: x22 :: encode "encrypted_key" ++ x22 :: x3a :: x20
      :: x22 :: encrypted_key ++ [x22; x7d; x7d].

Definition passward_dict (salt iv encrypted recovery_salt encrypted_key : bytes)
  : json :=
  JDict [("salt"%string, JStr (string_of_list_byte salt));
         ("iv"%string, JStr (string_of_list_byte iv));
         ("encrypted_data"%string, JStr (string_of_list_byte encrypted));
         ("recovery"%string,
          JDict [("salt"%string, JStr (string_of_list_byte recovery_salt));
                 ("encrypted_key"%string,
                  JStr (string_of_list_byte encrypted_key))])].

Section PlainFields.

Variables a b c d e : bytes.
Hypothesis Ha : forallb json_plain a = true.
Hypothesis Hb : forallb json_plain b = true.
Hypothesis Hc : forallb json_plain c = true.
Hypothesis Hd : forallb json_plain d = true.
Hypothesis He : forallb json_plain e = true.

Lemma passward_text_dumps :
  json_dumps_bytes (passward_dict a b c d e) = passward_text a b c d e.
Proof.
  unfold passward_dict. cbn [json_dumps_bytes].
  rewrite !json_dumps_plain by assumption.
  unfold passward_text.
  change (json_dumps_str "salt") with (x22 :: encode "salt" ++ [x22]).
  change (json_dumps_str "iv") with (x22 :: encode "iv" ++ [x22]).
  change (json_dumps_str "encrypted_data")
    with (x22 :: encode "encrypted_data" ++ [x22]).
  change (json_dumps_str "recovery") with (x22 :: encode "recovery" ++ [x22]).
  change (json_dumps_str "encrypted_key")
    with (x22 :: encode "encrypted_key" ++ [x22]).
  change (encode ": ") with [x3a; x20]. change (encode ", ") with [x2c; x20].
  repeat (progress (rewrite <- ?app_assoc; cbn [app])). reflexivity.
Qed.

Lemma passward_text_ascii :
  forallb (byte_in 0 127) (passward_text a b c d e) = true.
Proof.
  pose proof (forallb_impl _ _ _ json_plain_ascii Ha) as Ha'.
  pose proof (forallb_impl _ _ _ json_plain_ascii Hb) as Hb'.
  pose proof (forallb_impl _ _ _ json_plain_ascii Hc) as Hc'.
  pose proof (forallb_impl _ _ _ json_plain_ascii Hd) as Hd'.
  pose proof (forallb_impl _ _ _ json_plain_ascii He) as He'.
  unfold passward_text.
  repeat (progress (cbn [forallb]; rewrite ?forallb_app)).
  rewrite Ha', Hb', Hc', Hd', He'. reflexivity.
Qed.

Lemma passward_recovery_scan (m fuel depth : nat) (rest : bytes) :
  scan_once m (S (S (S (S fuel)))) (S depth)
    (x7b :: x22 :: encode "salt" ++ x22 :: x3a :: x20
         :: x22 :: d ++ x22 :: x2c :: x20
         :: x22 :: encode "encrypted_key" ++ x22 :: x3a :: x20
         :: x22 :: e ++ x22 :: x7d :: rest)
  = Ok (JDict [("salt"%string, JStr (string_of_list_byte d));
               ("encrypted_key"%string, JStr (string_of_list_byte e))],
        rest).
Proof.
  rewrite scan_once_object.
  erewrite scan_members_more with (key := encode "salt") (v := JStr (string_of_list_byte d));
    [|reflexivity|reflexivity|now apply scan_once_plain_string].
  erewrite scan_members_last with (key := encode "encrypted_key")
                                 (v := JStr (string_of_list_byte e));
    [|reflexivity|reflexivity|now apply scan_once_plain_string].
  reflexivity.
Qed.

Lemma passward_text_scan (m fuel depth : nat) :
  scan_once m (S (S (S (S (S (S (S (S (S fuel))))))))) (S (S depth))
    (passward_text a b c d e)
  = Ok (passward_dict a b c d e, []).
Proof.
  unfold passward_text. rewrite scan_once_object.
  erewrite scan_members_more with (key := encode "salt") (v := JStr (string_of_list_byte a));
    [|reflexivity|reflexivity|now apply scan_once_plain_string].
  erewrite scan_members_more with (key := encode "iv") (v := JStr (string_of_list_byte b));
    [|reflexivity|reflexivity|now apply scan_once_plain_string].
  erewrite scan_members_more with (key := encode "encrypted_data") (v := JStr (string_of_list_byte c));
    [|reflexivity|reflexivity|now apply scan_once_plain_string].
  erewrite scan_members_last with
      (key := encode "recovery")
      (v := JDict [("salt"%string, JStr (string_of_list_byte d));
                   ("encrypted_key"%string, JStr (string_of_list_byte e))]);
    [|reflexivity|reflexivity|apply passward_recovery_scan].
  reflexivity.
Qed.

Lemma passward_text_loads (be : backend) :
  json_loads be (string_of_list_byte (passward_text a b c d e))
  = Ok (passward_dict a b c d e).
Proof.
  unfold json_loads. rewrite encode_string_of_bytes.
  destruct (recursion_limit_two be) as [depth ->].
  assert (Hlen : exists fuel, 2 * length (passward_text a b c d e) + 2
                              = S (S (S (S (S (S (S (S (S fuel))))))))).
  { exists (2 * length (passward_text a b c d e) - 7).
    unfold passward_text. cbn [length]. rewrite length_app.
    change (length (encode "salt")) with 4. lia. }
  destruct Hlen as [fuel ->].
  replace (skip_ws (passward_text a b c d e)) with (passward_text a b c d e)
    by reflexivity.
  now rewrite passward_text_scan.
Qed.

End PlainFields.

(** The container of [passward.py] is the JSON text of its five fields in
    base64. *)
Lemma passward_container_text (salt iv encrypted recovery_salt encrypted_key : bytes) :
  passward_container salt iv encrypted recovery_salt encrypted_key
  = passward_text (b2a_base64 salt) (b2a_base64 iv) (b2a_base64 encrypted)
      (b2a_base64 recovery_salt) (b2a_base64 encrypted_key).
Proof.
  rewrite <- passward_text_dumps by apply b2a_base64_plain. reflexivity.
Qed.

Definition decrypted_successfully : message_box :=
  Information "Success" "File decrypted successfully!".

Definition wrong_password_box : message_box :=
  Critical "Error" "Wrong password or corrupted file.".

(** The fields [decrypt_file] reads from a file before it asks anything. *)
Definition read_fields (be : backend) (raw : bytes)
  : result (json * bytes * bytes * bytes) :=
  text <-r decode raw ;;
  content <-r json_loads be text ;;
  salt <-r (v <-r json_getitem content "salt" ;; b64decode v) ;;
  iv <-r (v <-r json_getitem content "iv" ;; b64decode v) ;;
  encrypted_data <-r (v <-r json_getitem content "encrypted_data" ;; b64decode v) ;;
  Ok (content, salt, iv, encrypted_data).

Lemma passward_dict_fields (a b c d e : bytes) :
  json_getitem (passward_dict a b c d e) "salt" = Ok (JStr (string_of_list_byte a))
  /\ json_getitem (passward_dict a b c d e) "iv" = Ok (JStr (string_of_list_byte b))
  /\ json_getitem (passward_dict a b c d e) "encrypted_data"
     = Ok (JStr (string_of_list_byte c)).
Proof. repeat split. Qed.

Lemma read_fields_container (be : backend)
    (salt iv encrypted recovery_salt encrypted_key : bytes) :
  exists content,
    read_fields be (passward_container salt iv encrypted recovery_salt encrypted_key)
    = Ok (content, salt, iv, encrypted).
Proof.
  rewrite passward_container_text. unfold read_fields.
  rewrite decode_ascii by (apply passward_text_ascii; apply b2a_base64_plain).
  cbn [rbind]. rewrite passward_text_loads by apply b2a_base64_plain.
  cbn [rbind].
  destruct (passward_dict_fields (b2a_base64 salt) (b2a_base64 iv)
              (b2a_base64 encrypted) (b2a_base64 recovery_salt)
              (b2a_base64 encrypted_key)) as (E1 & E2 & E3).
  rewrite E1, E2, E3. cbn [rbind].
  fold (b64encode salt). fold (b64encode iv). fold (b64encode encrypted).
  rewrite !b64decode_b64encode. cbn [rbind]. eauto.
Qed.

(** [decrypt_file] is [read_fields] followed by the dialogs. *)
Lemma decrypt_file_fields (be : backend) (raw : bytes)
    (answers : passward.decrypt_answers) (w : world) :
  passward.decrypt_file be (Some raw) answers w =
  match read_fields be raw with
  | Raise e => (Raise e, w)
  | Ok (content, salt, iv, encrypted_data) =>
      if negb (passward.ask_method_ok answers) then (Ok nothing, w)
      else if negb (dialog_ok (passward.ask_secret answers)) then (Ok nothing, w)
      else
        let secret := dialog_text (passward.ask_secret answers) in
        match
          match passward.ask_method answers with
          | passward.Password =>
              passward.decrypt_with_password be salt iv encrypted_data secret w
          | passward.RecoveryKey =>
              passward.decrypt_with_recovery_key be content iv encrypted_data
                secret w
          end
        with
        | (Ok decrypted, w') =>
            (Ok (if passward.ask_save_path answers
                 then mkEffects [decrypted_successfully] (Some decrypted)
                 else nothing), w')
        | (Raise _, w') =>
            (Ok (show (match passward.ask_method answers with
                       | passward.Password => wrong_password_box
                       | passward.RecoveryKey => invalid_recovery_key
                       end)), w')
        end
  end.
Proof.
  unfold passward.decrypt_file, read_fields.
  unfold bind at 1, lift at 1. destruct (decode raw) as [text|e]; [|reflexivity].
  cbn [rbind].
  unfold bind at 1, lift at 1.
  destruct (json_loads be text) as [content|e]; [|reflexivity].
  cbn [rbind].
  unfold bind at 1, lift at 1.
  destruct (v <-r json_getitem content "salt" ;; b64decode v) as [salt|e];
    [|reflexivity].
  cbn [rbind].
  unfold bind at 1, lift at 1.
  destruct (v <-r json_getitem content "iv" ;; b64decode v) as [iv|e];
    [|reflexivity].
  cbn [rbind].
  unfold bind at 1, lift at 1.
  destruct (v <-r json_getitem content "encrypted_data" ;; b64decode v)
    as [enc|e]; [|reflexivity].
  cbn [rbind].
  destruct (passward.ask_method_ok answers); cbn [negb]; [|reflexivity].
  destruct (dialog_ok (passward.ask_secret answers)); cbn [negb]; [|reflexivity].
  cbv zeta. unfold bind at 1.
  destruct (passward.ask_method answers).
  - unfold try_except, bind at 1.
    destruct (passward.decrypt_with_password be salt iv enc _ w) as [[out|e] w'].
    + unfold ret. destruct (passward.ask_save_path answers); reflexivity.
    + reflexivity.
  - unfold try_except, bind at 1.
    destruct (passward.decrypt_with_recovery_key be content iv enc _ w)
      as [[out|e] w'].
    + unfold ret. destruct (passward.ask_save_path answers); reflexivity.
    + reflexivity.
Qed.

(** What a fresh unpadder accepts: a positive whole number of blocks; it
    returns all of them but between one and sixteen bytes. *)
Lemma pkcs7_unpad_length (padded out : bytes) :
  length padded mod 16 = 0 ->
  pkcs7_unpad padded = Ok out ->
  16 <= length padded
  /\ length padded - 16 <= length out /\ length out < length padded.
Proof.
  intros Hm. unfold pkcs7_unpad, unpadder_update, unpadder_finalize, unpadder, PKCS7.
  change (128 / 8) with 16. cbn [pad_buffer pad_block_size app].
  pose proof (Nat.div_mod_eq (length padded) 16) as Hdiv. rewrite Hm in Hdiv.
  set (n := length padded / 16) in *. clearbody n.
  set (buf := skipn ((n - 1) * 16) padded).
  assert (Hbuf : length buf = length padded - (n - 1) * 16)
    by (unfold buf; apply length_skipn).
  destruct (length buf =? 16) eqn:E16; cbn [negb rbind]; [|discriminate].
  apply Nat.eqb_eq in E16.
  destruct (check_pkcs7_padding buf) eqn:Ec; cbn [negb rbind]; [|discriminate].
  intros [= <-].
  unfold check_pkcs7_padding in Ec. rewrite E16 in Ec.
  rewrite !andb_true_iff in Ec. destruct Ec as [[Hz Hle] _].
  apply negb_true_iff, Nat.eqb_neq in Hz. apply Nat.leb_le in Hle.
  rewrite length_app, length_firstn, length_firstn, E16.
  clearbody buf. lia.
Qed.

(** ** Files written and read back *)

Section Files.

Variable be : backend.

Hypothesis SHA256_length : forall m, length (SHA256 be m) = 32.
Hypothesis AES_encrypt_length :
  forall key block, length key = 32 -> length block = 16 ->
    length (AES_encrypt_block be key block) = 16.
Hypothesis AES_decrypt_length :
  forall key block, length key = 32 -> length block = 16 ->
    length (AES_decrypt_block be key block) = 16.
Hypothesis AES_decrypt_encrypt :
  forall key block, length key = 32 -> length block = 16 ->
    AES_decrypt_block be key (AES_encrypt_block be key block) = block.

(** The password attempt on a container sealed under the same password
    gives the text back. *)
Lemma cfb_decrypt_text_sealed (text password : string) (w w2 : world) :
  utf8_valid (encode text) = true ->
  durga.decrypt_text be (cfb_container be (encode text) password w) password w2
  = (Ok text, w2).
Proof.
  intros Hv. unfold durga.decrypt_text, bind.
  rewrite (durga_decrypt_sealed be SHA256_length). cbv zeta.
  rewrite cfb_round_trip. unfold lift. now rewrite decode_encode.
Qed.

(** X1. What [save_encrypted_file] of [durga.py] writes,
    [open_encrypted_file] reads back. With a password on the editor, a
    recovery key of plain characters (such as [set_password] makes), a
    text that is valid UTF-8, the time stamp in decimal notation and a
    header of less than [2 ** 32] bytes, the save succeeds; and opening
    the file written, in any editor and at any later time, with the same
    password gets the saved text back (through the length field, the JSON
    header, the container and the UTF-8 decoding), calls [setText] with
    it, and stores the password and the recovery key of the header on
    the editor. What the editor then shows is Qt's reading of the saved
    text, [setText be]: the text itself only where Qt does not take it for
    rich text. *)
Theorem durga_save_then_open (self other : editor) (password : string)
    (key : bytes) (answers : durga.open_answers) (w w2 : world) :
  current_password self = Some password -> password <> ""%string ->
  recovery_key self = JStr (string_of_list_byte key) ->
  forallb json_plain key = true ->
  utf8_valid (encode (text_edit self)) = true ->
  decimal_repr (encode (clock w)) = true ->
  (N.of_nat (length (durga_header self w)) < 4294967296)%N ->
  durga.ask_password answers = mkInput password true ->
  exists content,
    durga.save_encrypted_file be self true w
    = (Ok (mkEffects [encryption_successful] (Some content)),
       advance 16 (advance 16 w))
    /\ durga.open_encrypted_file be other (Some content) answers w2
       = (Ok (show decryption_successful,
              mkEditor (setText be (text_edit self)) (Some password)
                (recovery_key self)),
          w2).
Proof.
  intros Hp Hne Hk Hplain Hv Ht Hfit Ha.
  rewrite (durga_save_run be SHA256_length self password w Hp Hne).
  assert (Hh : durga_header self w = durga_header_of key (encode (clock w))).
  { unfold durga_header. rewrite Hk.
    rewrite <- (string_of_list_byte_of_string (clock w)) at 1.
    now apply durga_header_bytes. }
  destruct (write_container_fits (durga_header self w)
              (cfb_container be (encode (text_edit self)) password w) Hfit)
    as [content Ew].
  rewrite Ew. exists content. split; [reflexivity|].
  rewrite Hh in Ew. apply (durga_read_written be) in Ew; try assumption.
  rewrite Hk.
  pose proof (durga_open_success be other content answers w2 _ _
                (text_edit self) Ew) as Ho.
  rewrite Ha in Ho. cbn [dialog_ok dialog_text] in Ho.
  apply Ho; [reflexivity|assumption|].
  now apply cfb_decrypt_text_sealed.
Qed.

(** X2. The same for [AI.py], whose file is the container alone: opening
    the file that [save_encrypted_file] writes, in any editor, under the
    same password gets the saved text back and calls [setText] with it
    (the editor then shows Qt's reading of it, [setText be]); the password
    is stored and the recovery key of the opening editor stays as it
    was. *)
Theorem AI_save_then_open (self other : editor) (password : string)
    (w w2 : world) :
  current_password self = Some password -> password <> ""%string ->
  utf8_valid (encode (text_edit self)) = true ->
  exists content,
    AI.save_encrypted_file be self true w
    = (Ok (mkEffects [] (Some content)), advance 16 (advance 16 w))
    /\ AI.open_encrypted_file be other (Some content) (mkInput password true) w2
       = (Ok (nothing, mkEditor (setText be (text_edit self)) (Some password)
                         (recovery_key other)),
          w2).
Proof.
  intros Hp Hne Hv.
  exists (cfb_container be (encode (text_edit self)) password w).
  split; [now apply AI_save_run|].
  unfold AI.open_encrypted_file. cbn [dialog_ok dialog_text andb].
  apply truthy_iff in Hne. rewrite Hne.
  unfold try_except, bind. rewrite AI_is_durga_decrypt.
  rewrite (durga_decrypt_sealed be SHA256_length). cbv zeta.
  rewrite cfb_round_trip. unfold lift. rewrite decode_encode by assumption.
  reflexivity.
Qed.

(** X4. The header of a [durga.py] file takes no part in the decryption.
    Whatever header precedes a container (any text that [json.loads]
    reads as an object, with the length field that fits it),
    [open_encrypted_file] opens the file under the password of the
    container: it calls [setText] with the text that was sealed, and the
    editor takes the recovery key this header names ([None] if it names
    none). *)
Theorem durga_header_takes_no_part (text password : string) (w : world) :
  password <> ""%string ->
  utf8_valid (encode text) = true ->
  exists container w',
    durga.encrypt_data be (encode text) password w = (Ok container, w')
    /\ forall (other : editor) (size recovery_info : bytes) (header : string)
              (recovery_data : list (string * json))
              (answers : durga.open_answers) (w2 : world),
         length size = 4 ->
         int_from_bytes size = N.of_nat (length recovery_info) ->
         decode recovery_info = Ok header ->
         json_loads be header = Ok (JDict recovery_data) ->
         durga.ask_password answers = mkInput password true ->
         durga.open_encrypted_file be other
           (Some (size ++ recovery_info ++ container)) answers w2
         = (Ok (show decryption_successful,
                mkEditor (setText be text) (Some password)
                  (match dict_lookup recovery_data "recovery_key" with
                   | Some v => v
                   | None => JNull
                   end)), w2).
Proof.
  intros Hne Hv.
  exists (cfb_container be (encode text) password w), (advance 16 (advance 16 w)).
  split; [apply (durga_encrypt_data_run be SHA256_length)|].
  intros other size recovery_info header recovery_data answers w2
         Hlen Hsize Hd Hl Ha.
  assert (Hread : durga.read_container be
                    (size ++ recovery_info
                          ++ cfb_container be (encode text) password w)
                  = Ok (match dict_lookup recovery_data "recovery_key" with
                        | Some v => v
                        | None => JNull
                        end, cfb_container be (encode text) password w)).
  { rewrite read_container_app by assumption. rewrite Hd. cbn [rbind].
    rewrite Hl. reflexivity. }
  pose proof (durga_open_success be other _ answers w2 _ _ text Hread) as Ho.
  rewrite Ha in Ho. cbn [dialog_ok dialog_text] in Ho.
  apply Ho; [reflexivity|assumption|].
  now apply cfb_decrypt_text_sealed.
Qed.

Lemma passward_decrypt_sealed (data : bytes) (password : string) (w w2 : world) :
  let s := sealed_in be data password w in
  passward.decrypt_with_password be (passward.salt s) (passward.iv s)
    (passward.encrypted s) password w2
  = (Ok data, w2).
Proof.
  cbv zeta. unfold sealed_in. cbn [passward.salt passward.iv passward.encrypted].
  unfold passward.decrypt_with_password, bind.
  rewrite passward_generate_key_run.
  apply (passward_decrypt_data_run be AES_encrypt_length AES_decrypt_encrypt);
    [apply (cbc_key_length be SHA256_length)|apply draw_length].
Qed.

(** X3. The file that [encrypt_file] of [passward.py] writes,
    [decrypt_file] decrypts: the JSON text is read back by [json.loads],
    its base64 fields decode to the salt, the IV and the ciphertext, and
    the method [Password] with the same password writes the original
    bytes, whatever they are. *)
Theorem passward_encrypt_then_decrypt (data : bytes) (password : string)
    (w w2 : world) :
  password <> ""%string ->
  exists box content,
    passward.encrypt_file be (Some data) (mkInput password true) true w
    = (Ok (mkEffects [box] (Some content)),
       advance 16 (advance 16 (advance 16 (advance 16 w))))
    /\ passward.decrypt_file be (Some content)
         (passward.mkDecryptAnswers passward.Password true
            (mkInput password true) true) w2
       = (Ok (mkEffects [decrypted_successfully] (Some data)), w2).
Proof.
  intros Hne.
  pose proof (passward_encrypt_file_run be SHA256_length data password w Hne) as He.
  cbv zeta in He. do 2 eexists. split; [exact He|].
  rewrite decrypt_file_fields.
  destruct (read_fields_container be
              (passward.salt (sealed_in be data password w))
              (passward.iv (sealed_in be data password w))
              (passward.encrypted (sealed_in be data password w))
              (passward.recovery_salt (sealed_in be data password w))
              (passward.encrypted_key (sealed_in be data password w)))
    as [content ->].
  cbn [passward.ask_method_ok passward.ask_secret passward.ask_method
       passward.ask_save_path dialog_ok dialog_text negb].
  cbv zeta. now rewrite passward_decrypt_sealed.
Qed.

Lemma cbc_decrypt_length key n prev data :
  length key = 32 -> length prev = 16 -> length data = n * 16 ->
  length (cbc_decrypt_blocks be key n prev data) = n * 16.
Proof.
  intros Hk. revert prev data.
  induction n as [|n IH]; intros prev data Hp Hd; cbn [cbc_decrypt_blocks]; auto.
  unfold aes_block_len.
  assert (Hc : length (firstn 16 data) = 16) by (rewrite length_firstn; lia).
  rewrite length_app, xor_bytes_length, AES_decrypt_length, Hp by assumption.
  rewrite IH; [cbn; lia|assumption|]. rewrite length_skipn. lia.
Qed.

(** X6. What the password branch of [decrypt_file] accepts: whenever it
    returns a result, the IV had 16 bytes, the ciphertext was a whole and
    positive number of blocks, and the result is shorter than the
    ciphertext by 1 to 16 bytes; the world is as it was. *)
Theorem passward_decrypt_shape (salt iv encrypted_data : bytes) (password : string)
    (out : bytes) (w w' : world) :
  passward.decrypt_with_password be salt iv encrypted_data password w
  = (Ok out, w') ->
  w' = w
  /\ length iv = 16
  /\ length encrypted_data mod 16 = 0
  /\ 16 <= length encrypted_data
  /\ length encrypted_data - 16 <= length out
  /\ length out < length encrypted_data.
Proof.
  unfold passward.decrypt_with_password, bind.
  rewrite passward_generate_key_run.
  set (key := cbc_key be password salt).
  assert (Hk : length key = 32) by apply (cbc_key_length be SHA256_length).
  destruct (Nat.eq_dec (length iv) 16) as [Hi|Hi].
  2: { unfold passward.decrypt_data, bind, lift.
       rewrite Cipher_short_iv by assumption. discriminate. }
  destruct (Nat.eq_dec (length encrypted_data mod 16) 0) as [Hm|Hm].
  2: { unfold passward.decrypt_data, bind, lift.
       rewrite Cipher_CBC_ok by assumption.
       unfold decryptor_update_finalize. cbn [cipher_mode cipher_key].
       unfold aes_block_len. apply Nat.eqb_neq in Hm. rewrite Hm. discriminate. }
  rewrite passward_decrypt_data_any_key by assumption.
  intros E. assert (Hw : w' = w) by congruence.
  assert (Hu : pkcs7_unpad (cbc_decrypt_blocks be key (length encrypted_data / 16)
                              iv encrypted_data) = Ok out) by congruence.
  clear E. apply pkcs7_unpad_length in Hu.
  - rewrite cbc_decrypt_length in Hu; try assumption.
    + pose proof (Nat.div_mod_eq (length encrypted_data) 16). 
      replace (length encrypted_data / 16 * 16) with (length encrypted_data) in Hu
        by lia.
      tauto.
    + pose proof (Nat.div_mod_eq (length encrypted_data) 16). lia.
  - rewrite cbc_decrypt_length; try assumption.
    + apply Nat.Div0.mod_mul.
    + pose proof (Nat.div_mod_eq (length encrypted_data) 16). lia.
Qed.

(** X5. The wrapped key of [passward.py] is well formed: [decrypt_data],
    given the wrapped key, the key that [generate_key] derives from the
    recovery key and the recovery salt, and the IV of the file, returns
    the content key, and the content key decrypts the data. *)
Theorem wrapped_key_unwraps (data : bytes) (password : string) (w : world) :
  exists s w',
    passward.seal be data password w = (Ok s, w')
    /\ forall w2,
         passward.generate_key be (passward.recovery_key s)
           (passward.recovery_salt s) w2
         = (Ok (passward.recovery_key_bytes s), w2)
         /\ passward.decrypt_data be (passward.encrypted_key s)
              (passward.recovery_key_bytes s) (passward.iv s) w2
            = (Ok (passward.key s), w2)
         /\ passward.decrypt_data be (passward.encrypted s) (passward.key s)
              (passward.iv s) w2
            = (Ok data, w2).
Proof.
  exists (sealed_in be data password w),
    (advance 16 (advance 16 (advance 16 (advance 16 w)))).
  split; [apply (passward_seal_run be SHA256_length)|].
  intros w2. unfold sealed_in.
  cbn [passward.recovery_key passward.recovery_salt passward.recovery_key_bytes
       passward.encrypted_key passward.iv passward.key passward.encrypted].
  split; [apply passward_generate_key_run|].
  split; apply (passward_decrypt_data_run be AES_encrypt_length AES_decrypt_encrypt);
    [apply (cbc_key_length be SHA256_length)|apply draw_length
    |apply (cbc_key_length be SHA256_length)|apply draw_length].
Qed.

(** X8. A container of less than 32 bytes has no whole IV: [decrypt_data]
    of [durga.py] and of [AI.py] raises the [ValueError] of the [Cipher]
    constructor, for every password, and [open_encrypted_file] of [AI.py]
    shows its error box and leaves the editor as it was. *)
Theorem cfb_short_container (self : editor) (encrypted_data : bytes)
    (password : string) (w : world) :
  length encrypted_data < 32 ->
  durga.decrypt_data be encrypted_data password w
  = (Raise (ValueError InvalidIVSize), w)
  /\ AI.decrypt_data be encrypted_data password w
     = (Raise (ValueError InvalidIVSize), w)
  /\ durga.decrypt_text be encrypted_data password w
     = (Raise (ValueError InvalidIVSize), w)
  /\ (password <> ""%string ->
      AI.open_encrypted_file be self (Some encrypted_data) (mkInput password true) w
      = (Ok (show (Critical "Error" "Failed to decrypt. Invalid password?"), self),
         w)).
Proof.
  intros Hlen.
  pose proof (durga_decrypt_data_short be SHA256_length encrypted_data password w
                Hlen) as Hd.
  split; [exact Hd|]. split; [rewrite AI_is_durga_decrypt; exact Hd|].
  split; [unfold durga.decrypt_text, bind; now rewrite Hd|].
  intros Hne. apply truthy_iff in Hne.
  unfold AI.open_encrypted_file. cbn [dialog_ok dialog_text andb]. rewrite Hne.
  unfold try_except, bind. rewrite AI_is_durga_decrypt, Hd. reflexivity.
Qed.

(** X9. The sizes of what is written. In the CFB variants the container
    is the salt drawn first, the IV drawn next and a ciphertext as long as
    the data: 32 bytes more than the data. In [passward.py] the salts and
    the IV have 16 bytes, the key 32, the ciphertext is the data padded to
    the next whole block (1 to 16 bytes more), and the wrapped key has 48
    bytes. *)
Theorem ciphertext_sizes (data : bytes) (password : string) (w : world) :
  (exists container w',
     durga.encrypt_data be data password w = (Ok container, w')
     /\ AI.encrypt_data be data password w = (Ok container, w')
     /\ w' = advance 16 (advance 16 w)
     /\ length container = 32 + length data
     /\ firstn 16 container = draw 16 w
     /\ firstn 16 (skipn 16 container) = draw 16 (advance 16 w))
  /\ (exists s w',
       passward.seal be data password w = (Ok s, w')
       /\ length (passward.salt s) = 16
       /\ length (passward.iv s) = 16
       /\ length (passward.recovery_salt s) = 16
       /\ length (passward.key s) = 32
       /\ length (passward.encrypted s) = (length data / 16 + 1) * 16
       /\ length data < length (passward.encrypted s)
       /\ length (passward.encrypted s) <= length data + 16
       /\ length (passward.encrypted_key s) = 48).
Proof.
  split.
  - exists (cfb_container be data password w), (advance 16 (advance 16 w)).
    split; [apply (durga_encrypt_data_run be SHA256_length)|].
    split; [rewrite AI_is_durga_encrypt;
            apply (durga_encrypt_data_run be SHA256_length)|].
    split; [reflexivity|]. split; [apply cfb_container_length|].
    unfold cfb_container.
    destruct (split_container (draw 16 w) (draw 16 (advance 16 w))
                (cfb_stream be (cfb_key be password (draw 16 w)) false []
                   (draw 16 (advance 16 w)) data))
      as (E1 & E2 & _); try apply draw_length.
    split; assumption.
  - exists (sealed_in be data password w),
      (advance 16 (advance 16 (advance 16 (advance 16 w)))).
    split; [apply (passward_seal_run be SHA256_length)|].
    unfold sealed_in.
    cbn [passward.salt passward.iv passward.recovery_salt passward.key
         passward.encrypted passward.encrypted_key].
    set (key := cbc_key be password (draw 16 w)).
    set (rkey := cbc_key be _ _).
    assert (Hk : length key = 32) by apply (cbc_key_length be SHA256_length).
    assert (Hr : length rkey = 32) by apply (cbc_key_length be SHA256_length).
    clearbody key rkey.
    rewrite !draw_length.
    rewrite (cbc_encrypt_total_length be AES_encrypt_length key)
      by (assumption || apply draw_length).
    rewrite (cbc_encrypt_total_length be AES_encrypt_length rkey)
      by (assumption || apply draw_length).
    rewrite Hk. change ((32 / 16 + 1) * 16) with 48.
    pose proof (Nat.div_mod_eq (length data) 16).
    pose proof (Nat.mod_upper_bound (length data) 16).
    do 5 (split; [reflexivity|]). split; [lia|]. split; [lia|reflexivity].
Qed.

(** ** What is kept between calls *)

Lemma seq_add (n k : nat) : map (Nat.add n) (seq 0 k) = seq n k.
Proof.
  rewrite <- (Nat.add_0_r n) at 2. generalize 0.
  induction k as [|k IH]; intros start; cbn [seq map]; [reflexivity|].
  now rewrite IH, Nat.add_succ_r.
Qed.

(** The next [n + k] bytes of the entropy source are the next [n] and
    the [k] after them. *)
Lemma draw_app (n k : nat) (w : world) :
  draw (n + k) w = draw n w ++ draw k (advance n w).
Proof.
  unfold draw, advance. cbn [entropy].
  rewrite seq_app, map_app. f_equal. cbn [Nat.add].
  rewrite <- seq_add, map_map. reflexivity.
Qed.

Lemma draw_32 (w : world) :
  firstn 16 (draw 32 w) = draw 16 w
  /\ skipn 16 (draw 32 w) = draw 16 (advance 16 w).
Proof.
  change (draw 32 w) with (draw (16 + 16) w). rewrite (draw_app 16 16 w). split.
  - rewrite firstn_app, draw_length, Nat.sub_diag, firstn_O, app_nil_r.
    apply firstn_all2. rewrite draw_length. lia.
  - rewrite skipn_app, draw_length, Nat.sub_diag, skipn_O, skipn_all2
      by (rewrite draw_length; lia).
    reflexivity.
Qed.

(** [decrypt_file] of [passward.py] draws nothing and takes nothing from
    the world: its outcome is that of the file and of the answers. *)
Lemma passward_decrypt_file_pure (file : option bytes)
    (answers : passward.decrypt_answers) :
  exists r, forall w, passward.decrypt_file be file answers w = (r, w).
Proof.
  destruct file as [raw|]; [|eexists; intros; reflexivity].
  destruct (read_fields be raw) as [[[[content salt] iv] enc]|e] eqn:Ef.
  2: { eexists. intros w. rewrite decrypt_file_fields, Ef. reflexivity. }
  destruct (passward.ask_method_ok answers) eqn:Eok.
  2: { eexists. intros w. rewrite decrypt_file_fields, Ef, Eok. reflexivity. }
  destruct (dialog_ok (passward.ask_secret answers)) eqn:Es.
  2: { eexists. intros w. rewrite decrypt_file_fields, Ef, Eok, Es. reflexivity. }
  destruct (passward.ask_method answers) eqn:Em.
  - assert (H : exists r, forall w,
                passward.decrypt_with_password be salt iv enc
                  (dialog_text (passward.ask_secret answers)) w = (r, w)).
    { unfold passward.decrypt_with_password, passward.generate_key,
        passward.decrypt_data, bind, lift, ret.
      destruct (Cipher _ _) as [c|e]; [|eexists; intros; reflexivity].
      destruct (decryptor_update_finalize be c enc) as [padded|e];
        [|eexists; intros; reflexivity].
      destruct (unpadder_update _ padded) as [head ctx].
      destruct (unpadder_finalize ctx); eexists; intros; reflexivity. }
    destruct H as [[out|e] Hr]; eexists; intros w;
      rewrite decrypt_file_fields, Ef, Eok, Es, Em; cbn [negb]; cbv zeta;
      rewrite Hr; reflexivity.
  - assert (H : exists e, forall w,
                passward.decrypt_with_recovery_key be content iv enc
                  (dialog_text (passward.ask_secret answers)) w = (Raise e, w)).
    { unfold passward.decrypt_with_recovery_key, passward.generate_key, bind,
        lift, ret.
      destruct (json_getitem content "recovery") as [recovery|e]; [|eauto].
      destruct (v <-r json_getitem recovery "salt" ;; b64decode v)
        as [rs|e]; [|eauto].
      destruct (v <-r json_getitem recovery "encrypted_key" ;; b64decode v)
        as [ek|e]; [|eauto].
      destruct (Cipher _ _) as [c|e]; [|eauto].
      destruct (decryptor_update_finalize be c ek) as [pk|e]; [|eauto].
      rewrite fresh_unpadder_finalize. eauto. }
    destruct H as [e He]. eexists. intros w.
    rewrite decrypt_file_fields, Ef, Eok, Es, Em. cbn [negb]. cbv zeta.
    rewrite He. reflexivity.
Qed.

(** C8, as amended. The helper functions keep nothing: [generate_key] and
    [decrypt_data] return the same result whenever they are called and
    leave the world as it is, and [encrypt_data] is a function of its
    arguments and of the bytes it draws (32 in [durga.py] and [AI.py], 16
    in [passward.py]). [passward.py] keeps no credential: its
    [decrypt_file] has one outcome per file and answers, whatever was done
    before, and on the file that [encrypt_file] has just written it does
    nothing unless the secret is entered again. But the editor object of
    [durga.py] and [AI.py] holds the password and the recovery key between
    calls: [set_password] stores both, [save_encrypted_file] takes no
    credential as an argument and encrypts under the stored password
    (writing the stored recovery key into the header in [durga.py]), and a
    successful [open_encrypted_file] stores the password it was given
    and, in [durga.py], the recovery key it read. *)
Theorem editor_holds_credentials (self : editor) (password : string) (w : world) :
  password <> ""%string ->
  ((forall salt,
      exists key, forall w',
        durga.generate_key be password salt w' = (Ok key, w')
        /\ AI.generate_key be password salt w' = (Ok key, w'))
   /\ (forall salt,
         exists key, forall w',
           passward.generate_key be password salt w' = (Ok key, w'))
   /\ (forall data,
         exists f, forall w',
           durga.encrypt_data be data password w' = (f (draw 32 w'), advance 32 w')
           /\ AI.encrypt_data be data password w' = (f (draw 32 w'), advance 32 w'))
   /\ (forall data key,
         exists f, forall w',
           passward.encrypt_data be data key w' = (f (draw 16 w'), advance 16 w'))
   /\ (forall container,
         exists r, forall w',
           durga.decrypt_data be container password w' = (r, w')
           /\ AI.decrypt_data be container password w' = (r, w'))
   /\ (forall encrypted key iv,
         exists r, forall w', passward.decrypt_data be encrypted key iv w' = (r, w')))
  /\ ((forall file answers,
         exists r, forall w', passward.decrypt_file be file answers w' = (r, w'))
      /\ (forall data,
            exists box content w',
              passward.encrypt_file be (Some data) (mkInput password true) true w
              = (Ok (mkEffects [box] (Some content)), w')
              /\ forall method save secret w2,
                   passward.decrypt_file be (Some content)
                     (passward.mkDecryptAnswers method true (mkInput secret false)
                        save) w2
                   = (Ok nothing, w2)))
  /\ (exists box,
     durga.set_password self (mkInput password true) w =
     (Ok (show box, mkEditor (text_edit self) (Some password)
                             (JStr (hexlify (draw 16 w)))), advance 16 w))
  /\ (exists box,
     AI.set_password self (mkInput password true) w =
     (Ok (show box, mkEditor (text_edit self) (Some password)
                             (JStr (urlsafe_b64encode (draw 16 w)))), advance 16 w))
  /\ (current_password self = Some password ->
      durga.save_encrypted_file be self true w =
      (Ok (match durga.write_container (durga_header self w)
                   (cfb_container be (encode (text_edit self)) password w) with
           | Ok content => mkEffects [encryption_successful] (Some content)
           | Raise e => mkEffects [encryption_error e] (Some [])
           end), advance 16 (advance 16 w))
      /\ AI.save_encrypted_file be self true w =
         (Ok (mkEffects [] (Some (cfb_container be (encode (text_edit self))
                                    password w))),
          advance 16 (advance 16 w)))
  /\ (forall content stored encrypted_data text,
      durga.read_container be content = Ok (stored, encrypted_data) ->
      durga.decrypt_text be encrypted_data password w = (Ok text, w) ->
      durga.open_encrypted_file be self (Some content)
        (durga.mkOpenAnswers (mkInput password true) false
           (mkInput "" false) (mkInput "" false)) w =
      (Ok (show decryption_successful,
           mkEditor (setText be text) (Some password) stored), w))
  /\ (forall content text,
      durga.decrypt_text be content password w = (Ok text, w) ->
      AI.open_encrypted_file be self (Some content) (mkInput password true) w =
      (Ok (nothing, mkEditor (setText be text) (Some password) (recovery_key self)),
       w)).
Proof.
  intros Hne.
  split; [|split; [|split; [|split; [|split; [|split]]]]].
  - split; [|split; [|split; [|split; [|split]]]].
    + intros salt. exists (cfb_key be password salt). intros w'.
      split; [apply durga_generate_key_run|].
      unfold AI.generate_key, ret, cfb_key. reflexivity.
    + intros salt. exists (cbc_key be password salt). intros w'.
      apply passward_generate_key_run.
    + intros data.
      exists (fun drawn =>
                Ok (firstn 16 drawn ++ skipn 16 drawn
                      ++ cfb_stream be (cfb_key be password (firstn 16 drawn))
                           false [] (skipn 16 drawn) data)).
      intros w'. cbv beta. destruct (draw_32 w') as [-> ->].
      split; [|rewrite AI_is_durga_encrypt];
        apply (durga_encrypt_data_run be SHA256_length).
    + intros data key.
      exists (fun iv =>
                let padder0 := padder (PKCS7 128) in
                let '(head, padder1) := padder_update padder0 data in
                let padded_data := head ++ padder_finalize padder1 in
                match Cipher (algorithms_AES key) (CBC iv) with
                | Ok cipher =>
                    match encryptor_update_finalize be cipher padded_data with
                    | Ok encrypted => Ok (encrypted, iv)
                    | Raise e => Raise e
                    end
                | Raise e => Raise e
                end).
      intros w'. unfold passward.encrypt_data, bind, os_urandom, lift, ret.
      cbv zeta. destruct (padder_update _ data) as [head padder1].
      destruct (Cipher _ _) as [c|e]; [|reflexivity].
      destruct (encryptor_update_finalize be c _); reflexivity.
    + intros container.
      destruct (durga_decrypt_data_pure be container password) as [r Hr].
      exists r. intros w'. split; [|rewrite AI_is_durga_decrypt]; apply Hr.
    + intros encrypted key iv.
      unfold passward.decrypt_data, bind, lift, ret.
      destruct (Cipher _ _) as [c|e]; [|eexists; intros; reflexivity].
      destruct (decryptor_update_finalize be c encrypted) as [padded|e];
        [|eexists; intros; reflexivity].
      destruct (unpadder_update _ padded) as [head ctx].
      destruct (unpadder_finalize ctx); eexists; intros; reflexivity.
  - split; [apply passward_decrypt_file_pure|].
    intros data.
    pose proof (passward_encrypt_file_run be SHA256_length data password w Hne)
      as He.
    cbv zeta in He. do 3 eexists. split; [exact He|].
    intros method save secret w2. rewrite decrypt_file_fields.
    destruct (read_fields_container be
                (passward.salt (sealed_in be data password w))
                (passward.iv (sealed_in be data password w))
                (passward.encrypted (sealed_in be data password w))
                (passward.recovery_salt (sealed_in be data password w))
                (passward.encrypted_key (sealed_in be data password w)))
      as [content ->].
    reflexivity.
  - now apply durga_set_password_run.
  - now apply AI_set_password_run.
  - intros Hp. split; [now apply durga_save_run|now apply AI_save_run].
  - intros content stored encrypted_data text Hread Hdec.
    apply durga_open_success with (encrypted_data := encrypted_data); auto.
  - intros content text Hdec. apply truthy_iff in Hne.
    unfold AI.open_encrypted_file. cbn [dialog_ok dialog_text andb]. rewrite Hne.
    unfold durga.decrypt_text, bind in Hdec.
    unfold try_except, bind. rewrite AI_is_durga_decrypt.
    destruct (durga.decrypt_data be content password w) as [[out|e] w'];
      [|discriminate Hdec].
    unfold lift in *. destruct (decode out) as [t|e]; [|discriminate Hdec].
    injection Hdec as -> ->. reflexivity.
Qed.

End Files.

(** X7. The exceptions of [decrypt_file]. The file is read outside any
    [try]: when the reading of its fields raises, the method raises the
    same exception, before any dialog and whatever the answers. Once the
    fields are read the method returns, and it writes a file only with the
    box [File decrypted successfully!] and a chosen path. An empty file is
    no JSON; a byte [0xff] is no UTF-8; a JSON list has no field; an object
    without [salt] raises [KeyError]; a field of one base64 character
    raises the error of [binascii]. *)
Theorem decrypt_file_exceptions (be : backend) (raw : bytes)
    (answers : passward.decrypt_answers) (w : world) :
  (forall e, read_fields be raw = Raise e ->
             passward.decrypt_file be (Some raw) answers w = (Raise e, w))
  /\ (forall fields, read_fields be raw = Ok fields ->
        exists eff w',
          passward.decrypt_file be (Some raw) answers w = (Ok eff, w')
          /\ forall out, written eff = Some out ->
               passward.ask_save_path answers = true
               /\ shown eff = [decrypted_successfully])
  /\ read_fields be [] = Raise JSONDecodeError
  /\ read_fields be [xff] = Raise UnicodeDecodeError
  /\ read_fields be (json_dumps_bytes (JList [])) = Raise TypeError
  /\ read_fields be (json_dumps_bytes (JDict [("iv"%string, JStr "QUJD")]))
     = Raise (KeyError "salt")
  /\ read_fields be (json_dumps_bytes (JDict [("salt"%string, JStr "Q")]))
     = Raise BinasciiError.
Proof.
  split; [|split].
  - intros e He. rewrite decrypt_file_fields, He. reflexivity.
  - intros [[[content salt] iv] enc] Hf. rewrite decrypt_file_fields, Hf.
    destruct (passward.ask_method_ok answers); cbn [negb].
    2: { do 2 eexists. split; [reflexivity|]. intros out [=]. }
    destruct (dialog_ok (passward.ask_secret answers)); cbn [negb].
    2: { do 2 eexists. split; [reflexivity|]. intros out [=]. }
    cbv zeta.
    destruct (match passward.ask_method answers with
              | passward.Password => _
              | passward.RecoveryKey => _
              end) as [[decrypted|e] w'].
    + do 2 eexists. split; [reflexivity|].
      destruct (passward.ask_save_path answers); intros out [=]. auto.
    + do 2 eexists. split; [reflexivity|]. intros out [=].
  - destruct (recursion_limit_two be) as [depth Hdepth].
    unfold read_fields, json_loads. rewrite Hdepth.
    repeat match goal with |- _ /\ _ => split end; reflexivity.
Qed.

(** X10. No empty password, and no cancelled dialog, has any effect:
    [set_password] leaves the editor as it was and draws nothing; without
    a password on the editor (or with the empty one) [save_encrypted_file]
    shows its warning and writes nothing; [open_encrypted_file] (in
    [durga.py] once the header of the file is read) returns without a box;
    [encrypt_file] of [passward.py] returns before it draws a salt. *)
Theorem empty_password_is_refused (be : backend) (self : editor)
    (file : option bytes) (ok chosen : bool) (password : string) (w : world) :
  durga.set_password self (mkInput "" ok) w = (Ok (nothing, self), w)
  /\ durga.set_password self (mkInput password false) w = (Ok (nothing, self), w)
  /\ AI.set_password self (mkInput "" ok) w = (Ok (nothing, self), w)
  /\ AI.set_password self (mkInput password false) w = (Ok (nothing, self), w)
  /\ (current_password self = None \/ current_password self = Some ""%string ->
      durga.save_encrypted_file be self chosen w
      = (Ok (show (Warning "Password Error" "Please set a password first.")), w)
      /\ AI.save_encrypted_file be self chosen w
         = (Ok (show (Warning "Password Required" "Set a password first.")), w))
  /\ AI.open_encrypted_file be self file (mkInput "" ok) w = (Ok (nothing, self), w)
  /\ AI.open_encrypted_file be self file (mkInput password false) w
     = (Ok (nothing, self), w)
  /\ (forall content stored encrypted_data answers,
        durga.read_container be content = Ok (stored, encrypted_data) ->
        durga.ask_password answers = mkInput "" ok
        \/ durga.ask_password answers = mkInput password false ->
        durga.open_encrypted_file be self (Some content) answers w
        = (Ok (nothing, self), w))
  /\ passward.encrypt_file be file (mkInput "" ok) chosen w = (Ok nothing, w)
  /\ passward.encrypt_file be file (mkInput password false) chosen w
     = (Ok nothing, w).
Proof.
  repeat match goal with |- _ /\ _ => split end.
  - unfold durga.set_password. cbn [dialog_ok dialog_text].
    now rewrite andb_false_r.
  - reflexivity.
  - unfold AI.set_password. cbn [dialog_ok dialog_text].
    now rewrite andb_false_r.
  - reflexivity.
  - intros H. split.
    + unfold durga.save_encrypted_file. now destruct H as [-> | ->].
    + unfold AI.save_encrypted_file. now destruct H as [-> | ->].
  - unfold AI.open_encrypted_file. cbn [dialog_ok dialog_text].
    rewrite andb_false_r. now destruct file.
  - unfold AI.open_encrypted_file. now destruct file.
  - intros content stored encrypted_data answers Hread Ha.
    unfold durga.open_encrypted_file, try_except at 1, bind at 1, lift at 1.
    rewrite Hread. destruct Ha as [-> | ->]; cbn [dialog_ok dialog_text negb orb].
    + now rewrite orb_true_r.
    + reflexivity.
  - unfold passward.encrypt_file. cbn [dialog_ok dialog_text].
    rewrite orb_true_r. now destruct file.
  - unfold passward.encrypt_file. now destruct file.
Qed.

(** ** The recovery keys *)

(** A digit of [token_hex]. *)
Definition is_lower_hex (b : byte) : bool := byte_in 48 57 b || byte_in 97 102 b.

(** A character of URL-safe base64 other than the pad. *)
Definition is_urlsafe (b : byte) : bool :=
  byte_in 65 90 b || byte_in 97 122 b || byte_in 48 57 b
  || byte_eqb b x2d || byte_eqb b x5f.

(** [binascii.unhexlify] on one pair of digits. *)
Definition unhex_pair (hi lo : byte) : byte :=
  match hex_value hi, hex_value lo with
  | Some h, Some l => byte_of_N (h * 16 + l)
  | _, _ => x00
  end.

Lemma unhex_hex_pair (b : byte) :
  exists hi lo, hex_pair b = [hi; lo] /\ unhex_pair hi lo = b
                /\ is_lower_hex hi = true /\ is_lower_hex lo = true.
Proof. destruct b; do 2 eexists; repeat split. Qed.

Lemma hexlify_length (raw : bytes) :
  length (flat_map hex_pair raw) = 2 * length raw.
Proof.
  rewrite (flat_map_length_const hex_pair 2); [lia|].
  intros b. reflexivity.
Qed.

Lemma hexlify_digits (raw : bytes) :
  forallb is_lower_hex (flat_map hex_pair raw) = true.
Proof.
  induction raw as [|b raw IH]; [reflexivity|].
  cbn [flat_map]. destruct (unhex_hex_pair b) as (hi & lo & -> & _ & Hh & Hl).
  cbn [app forallb]. now rewrite Hh, Hl, IH.
Qed.

Lemma hexlify_injective (raw1 raw2 : bytes) :
  flat_map hex_pair raw1 = flat_map hex_pair raw2 -> raw1 = raw2.
Proof.
  revert raw2. induction raw1 as [|b1 raw1 IH]; intros [|b2 raw2] H.
  - reflexivity.
  - cbn [flat_map] in H. destruct (unhex_hex_pair b2) as (hi & lo & E & _).
    rewrite E in H. discriminate H.
  - cbn [flat_map] in H. destruct (unhex_hex_pair b1) as (hi & lo & E & _).
    rewrite E in H. discriminate H.
  - cbn [flat_map] in H.
    destruct (unhex_hex_pair b1) as (h1 & l1 & E1 & U1 & _).
    destruct (unhex_hex_pair b2) as (h2 & l2 & E2 & U2 & _).
    rewrite E1, E2 in H. cbn [app] in H.
    injection H as Hh Hl Hrest. subst h2 l2.
    f_equal; [congruence|now apply IH].
Qed.

(** The translation [urlsafe_b64encode] applies to standard base64, and
    its inverse. *)
Definition to_urlsafe (b : byte) : byte :=
  match b with x2b => x2d | x2f => x5f | _ => b end.

Definition of_urlsafe (b : byte) : byte :=
  match b with x2d => x2b | x5f => x2f | _ => b end.

Definition b64_char_urlsafe_ok (n : nat) : bool :=
  is_urlsafe (to_urlsafe (b64_char n))
  && byte_eqb (of_urlsafe (to_urlsafe (b64_char n))) (b64_char n).

Lemma b64_chars_urlsafe_ok : forallb b64_char_urlsafe_ok (seq 0 64) = true.
Proof. vm_compute. reflexivity. Qed.

Lemma b64_char_urlsafe (n : nat) :
  n < 64 ->
  is_urlsafe (to_urlsafe (b64_char n)) = true
  /\ of_urlsafe (to_urlsafe (b64_char n)) = b64_char n.
Proof.
  intros H. pose proof b64_chars_urlsafe_ok as Hall.
  rewrite forallb_forall in Hall. specialize (Hall n).
  unfold b64_char_urlsafe_ok in Hall. rewrite andb_true_iff in Hall.
  destruct Hall as [H1 H2]; [apply in_seq; lia|].
  apply byte_eqb_eq in H2. auto.
Qed.

(** Every character of [b2a_base64] is a character of the alphabet or the
    pad. *)
Lemma b2a_base64_chars (P : byte -> Prop) (data : bytes) :
  (forall n, n < 64 -> P (b64_char n)) -> P x3d ->
  Forall P (b2a_base64 data).
Proof.
  intros Hc Hp.
  assert (H : forall n data, length data <= n -> Forall P (b2a_base64 data)).
  { clear data. induction n as [|n IH]; intros data Hn.
    - destruct data; [constructor|cbn in Hn; lia].
    - destruct data as [|a [|b [|c rest]]].
      + constructor.
      + destruct (b64_quad a x00 x00) as (_ & _ & _ & H1 & H2 & _).
        cbv zeta in *. change (Byte.to_nat x00) with 0 in *.
        rewrite Nat.add_0_r in H2.
        cbn [b2a_base64]. repeat constructor; auto.
      + destruct (b64_quad a b x00) as (_ & _ & _ & H1 & H2 & H3 & _).
        cbv zeta in *. change (Byte.to_nat x00) with 0 in *.
        change (0 / 64) with 0 in *. rewrite Nat.add_0_r in H3.
        cbn [b2a_base64]. repeat constructor; auto.
      + destruct (b64_quad a b c) as (_ & _ & _ & H1 & H2 & H3 & H4).
        cbv zeta in *. cbn [b2a_base64].
        repeat (constructor; auto). apply IH. cbn [length] in Hn. lia. }
  apply (H (length data)). lia.
Qed.

Lemma of_to_urlsafe (data : bytes) :
  map of_urlsafe (map to_urlsafe (b2a_base64 data)) = b2a_base64 data.
Proof.
  pose proof (b2a_base64_chars (fun c => of_urlsafe (to_urlsafe c) = c) data) as H.
  cbv beta in H.
  assert (HF : Forall (fun c => of_urlsafe (to_urlsafe c) = c) (b2a_base64 data)).
  { apply H; [|reflexivity]. intros n Hn. now apply b64_char_urlsafe. }
  clear H. induction HF as [|c l Hc _ IH]; [reflexivity|].
  cbn [map]. now rewrite Hc, IH.
Qed.

Lemma urlsafe_b64encode_injective (raw1 raw2 : bytes) :
  urlsafe_b64encode raw1 = urlsafe_b64encode raw2 -> raw1 = raw2.
Proof.
  unfold urlsafe_b64encode. intros H.
  apply (f_equal list_byte_of_string) in H.
  rewrite !list_byte_of_string_of_list_byte in H.
  fold to_urlsafe in H.
  apply (f_equal (map of_urlsafe)) in H. rewrite !of_to_urlsafe in H.
  apply (f_equal (fun s => a2b_base64 s 0 0 0)) in H.
  rewrite !a2b_b2a_base64 in H. congruence.
Qed.

(** The key of sixteen bytes: five groups of three and one byte. *)
Lemma urlsafe_b64encode_16 (raw : bytes) :
  length raw = 16 ->
  exists body,
    encode (urlsafe_b64encode raw) = body ++ [x3d; x3d]
    /\ length body = 22
    /\ forallb is_urlsafe body = true.
Proof.
  intros Hlen.
  do 17 (destruct raw as [|? raw]; try discriminate Hlen). clear Hlen.
  unfold urlsafe_b64encode, encode. rewrite list_byte_of_string_of_list_byte.
  fold to_urlsafe. cbn [b2a_base64 map].
  eexists (_ :: _ :: _ :: _ :: _ :: _ :: _ :: _ :: _ :: _ :: _ :: _ :: _ :: _
           :: _ :: _ :: _ :: _ :: _ :: _ :: _ :: [_]).
  split; [reflexivity|]. split; [reflexivity|].
  cbn [forallb].
  repeat match goal with
         | |- context [is_urlsafe (to_urlsafe (b64_char ?n))] =>
             let H := fresh in
             assert (H : is_urlsafe (to_urlsafe (b64_char n)) = true);
             [apply b64_char_urlsafe|rewrite H; clear H]
         end; try reflexivity.
  all: match goal with
       | |- Byte.to_nat ?a / 4 < 64 => apply (b64_quad a x00 x00)
       | |- Byte.to_nat ?a mod 4 * 16 + Byte.to_nat ?b / 16 < 64 =>
           apply (b64_quad a b x00)
       | |- Byte.to_nat ?b mod 16 * 4 + Byte.to_nat ?c / 64 < 64 =>
           apply (b64_quad x00 b c)
       | |- Byte.to_nat ?c mod 64 < 64 => apply (b64_quad x00 x00 c)
       | |- Byte.to_nat ?a mod 4 * 16 < 64 =>
           let H := fresh in
           pose proof (proj1 (proj2 (proj2 (proj2 (proj2 (b64_quad a x00 x00))))));
           cbv zeta in *; change (Byte.to_nat x00) with 0 in *;
           change (0 / 16) with 0 in *; lia
       end.
Qed.

(** X11. The recovery keys. [set_password] of [durga.py] shows and stores
    32 lower-case hexadecimal digits; [set_password] of [AI.py] and
    [generate_recovery_key] of [passward.py] give 22 characters of the
    URL-safe alphabet followed by [==]. Both writings are injective: the
    same key comes from the same 16 bytes only. *)
Theorem recovery_key_formats (self : editor) (password : string) (w : world) :
  password <> ""%string ->
  (exists key,
     durga.set_password self (mkInput password true) w
     = (Ok (show (durga_recovery_key_box key),
            mkEditor (text_edit self) (Some password) (JStr key)), advance 16 w)
     /\ length (encode key) = 32
     /\ forallb is_lower_hex (encode key) = true)
  /\ (exists key body,
        AI.set_password self (mkInput password true) w
        = (Ok (show (Information "Password Set" ("Recovery Key: " ++ key)),
               mkEditor (text_edit self) (Some password) (JStr key)),
           advance 16 w)
        /\ passward.generate_recovery_key w = (Ok key, advance 16 w)
        /\ encode key = body ++ [x3d; x3d]
        /\ length body = 22
        /\ forallb is_urlsafe body = true)
  /\ (forall w2,
        hexlify (draw 16 w) = hexlify (draw 16 w2)
        \/ urlsafe_b64encode (draw 16 w) = urlsafe_b64encode (draw 16 w2) ->
        draw 16 w = draw 16 w2).
Proof.
  intros Hne. apply truthy_iff in Hne. split; [|split].
  - exists (hexlify (draw 16 w)). split.
    + unfold durga.set_password. cbn [dialog_ok dialog_text andb]. rewrite Hne.
      reflexivity.
    + unfold hexlify, encode. rewrite list_byte_of_string_of_list_byte.
      rewrite hexlify_length, draw_length. split; [reflexivity|].
      apply hexlify_digits.
  - destruct (urlsafe_b64encode_16 (draw 16 w) (draw_length 16 w))
      as (body & E & Hl & Hb).
    exists (urlsafe_b64encode (draw 16 w)), body. split.
    + unfold AI.set_password. cbn [dialog_ok dialog_text andb]. rewrite Hne.
      reflexivity.
    + split; [reflexivity|auto].
  - intros w2 [H|H].
    + unfold hexlify in H. apply (f_equal list_byte_of_string) in H.
      rewrite !list_byte_of_string_of_list_byte in H.
      now apply hexlify_injective.
    + now apply urlsafe_b64encode_injective.
Qed.

(** ** The grammar highlighter and its context menu *)

Lemma find_first {A} (f : A -> bool) (l : list A) (x : A) :
  find f l = Some x ->
  f x = true
  /\ exists before after,
       l = before ++ x :: after /\ forall y, In y before -> f y = false.
Proof.
  induction l as [|a l IH]; cbn [find]; [discriminate|].
  destruct (f a) eqn:Ea.
  - intros [= ->]. split; [assumption|]. exists [], l. split; [reflexivity|].
    intros y [].
  - intros H. destruct (IH H) as (Hx & before & after & -> & Hb).
    split; [assumption|]. exists (a :: before), after. split; [reflexivity|].
    intros y [<-|Hy]; auto.
Qed.

Lemma find_none_all {A} (f : A -> bool) (l : list A) :
  find f l = None -> forall y, In y l -> f y = false.
Proof. intros H y Hy. now apply (find_none f l H). Qed.

(** The issue covers the position. *)
Definition covers (found : durga.issue) (pos : Z) : Prop :=
  (durga.get (durga.offset found) 0 <= pos
   < durga.get (durga.offset found) 0 + durga.get (durga.issue_length found) 0)%Z.

Lemma covers_iff (found : durga.issue) (pos : Z) :
  ((durga.get (durga.offset found) 0 <=? pos)
   && (pos <? durga.get (durga.offset found) 0
              + durga.get (durga.issue_length found) 0))%Z = true
  <-> covers found pos.
Proof. unfold covers. rewrite andb_true_iff, Z.leb_le, Z.ltb_lt. tauto. Qed.

(** X13. The calls of [setFormat] that [highlightBlock] makes: at most
    one for each issue, each inside the block (a start that is not
    negative, a positive length, an end not beyond the text). An issue is
    underlined only in the block it starts in, and there up to the end of
    the block; an issue with no length is not underlined. *)
Theorem highlightBlock_in_bounds (grammar_issues : list durga.issue)
    (block_start : Z) (text : string) :
  length (durga.highlightBlock grammar_issues block_start text)
    <= length grammar_issues
  /\ Forall (fun call =>
               (0 <= fst call /\ 0 < snd call
                /\ fst call + snd call <= str_len text)%Z)
            (durga.highlightBlock grammar_issues block_start text)
  /\ (forall found,
        (durga.get (durga.offset found) 0 < block_start
         \/ block_start + str_len text <= durga.get (durga.offset found) 0
         \/ durga.get (durga.issue_length found) 0 <= 0)%Z ->
        durga.highlightBlock [found] block_start text = [])
  /\ (forall found,
        (block_start <= durga.get (durga.offset found) 0
         < block_start + str_len text)%Z ->
        (0 < durga.get (durga.issue_length found) 0)%Z ->
        durga.highlightBlock [found] block_start text
        = [((durga.get (durga.offset found) 0 - block_start)%Z,
            Z.min (durga.get (durga.issue_length found) 0%Z)
                  (block_start + str_len text
                   - durga.get (durga.offset found) 0)%Z)]).
Proof.
  unfold durga.highlightBlock. split; [|split; [|split]].
  - induction grammar_issues as [|found l IH]; cbn [flat_map length]; [lia|].
    rewrite length_app.
    destruct (_ && _); [|cbn [length]; lia].
    destruct (_ && _); cbn [length]; lia.
  - induction grammar_issues as [|found l IH]; cbn [flat_map]; [constructor|].
    apply Forall_app. split; [|exact IH].
    destruct ((block_start <=? _) && _)%Z eqn:E1; [|constructor].
    destruct ((0 <=? _) && _)%Z eqn:E2; [|constructor].
    constructor; [|constructor]. cbn [fst snd].
    rewrite andb_true_iff, Z.leb_le, Z.ltb_lt in E1, E2.
    destruct (str_len text <? _)%Z eqn:E3.
    + apply Z.ltb_lt in E3. lia.
    + apply Z.ltb_ge in E3. lia.
  - intros found H. cbn [flat_map]. rewrite app_nil_r.
    destruct ((block_start <=? _) && _)%Z eqn:E1; [|reflexivity].
    rewrite andb_true_iff, Z.leb_le, Z.ltb_lt in E1.
    destruct ((0 <=? _) && _)%Z eqn:E2; [|reflexivity].
    rewrite andb_true_iff, Z.leb_le, Z.ltb_lt in E2.
    destruct (str_len text <? _)%Z eqn:E3.
    + apply Z.ltb_lt in E3. lia.
    + apply Z.ltb_ge in E3. lia.
  - intros found H Hl. cbn [flat_map]. rewrite app_nil_r.
    replace ((block_start <=? _) && _)%Z with true
      by (symmetry; rewrite andb_true_iff, Z.leb_le, Z.ltb_lt; lia).
    destruct (str_len text <? _)%Z eqn:E3.
    + apply Z.ltb_lt in E3.
      replace ((0 <=? _) && _)%Z with true
        by (symmetry; rewrite andb_true_iff, Z.leb_le, Z.ltb_lt; lia).
      f_equal. f_equal. lia.
    + apply Z.ltb_ge in E3.
      replace ((0 <=? _) && _)%Z with true
        by (symmetry; rewrite andb_true_iff, Z.leb_le, Z.ltb_lt; lia).
      f_equal. f_equal. lia.
Qed.

(** X14. What [show_context_menu] adds to the menu. Either no issue
    covers the cursor and it adds nothing; or it adds two entries for the
    first issue of the list that covers the cursor: the disabled entry
    when the issue has no replacements, else the submenu, then [Ignore].
    The submenu has at most five actions, none of them empty, each the
    value of one of the first five replacements. *)
Theorem context_menu_suggestions (issues : list durga.issue) (cursor_pos : Z) :
  (durga.show_context_menu issues cursor_pos = []
   /\ forall found, In found issues -> ~ covers found cursor_pos)
  \/ exists before found after first,
       issues = before ++ found :: after
       /\ (forall earlier, In earlier before -> ~ covers earlier cursor_pos)
       /\ covers found cursor_pos
       /\ durga.show_context_menu issues cursor_pos = [first; durga.Ignore found]
       /\ (first = durga.NoSuggestionsAvailable
           /\ durga.get (durga.replacements found) [] = []
           \/ exists actions,
                first = durga.GrammarSuggestions actions
                /\ durga.get (durga.replacements found) [] <> []
                /\ length actions <= 5
                /\ (forall s, In s actions ->
                      s <> ""%string
                      /\ exists r,
                           In r (firstn 5 (durga.get (durga.replacements found) []))
                           /\ durga.value r = Some s)).
Proof.
  unfold durga.show_context_menu, durga.current_issue.
  destruct (find _ issues) as [found|] eqn:Ef.
  - right. apply find_first in Ef.
    destruct Ef as (Hc & before & after & -> & Hb).
    apply covers_iff in Hc.
    exists before, found, after. eexists. split; [reflexivity|].
    split.
    { intros earlier He Hcov. apply covers_iff in Hcov.
      specialize (Hb earlier He). cbv beta zeta in Hb. congruence. }
    split; [exact Hc|]. split; [reflexivity|].
    destruct (durga.get (durga.replacements found) []) as [|r rs] eqn:Er.
    + left. auto.
    + right. eexists. split; [reflexivity|]. split; [discriminate|].
      unfold durga.suggestions. rewrite Er. split.
      * etransitivity; [apply filter_length_le|].
        rewrite length_map, length_firstn. lia.
      * intros s Hs. apply filter_In in Hs as [Hin Ht].
        apply truthy_iff in Ht. split; [assumption|].
        apply in_map_iff in Hin as (r' & Hv & Hr').
        exists r'. split; [assumption|].
        destruct (durga.value r') as [v|]; cbn [durga.get] in Hv.
        -- now subst.
        -- subst s. contradiction.
  - left. split; [reflexivity|].
    intros found Hin Hcov. apply covers_iff in Hcov.
    pose proof (find_none_all _ _ Ef found Hin) as Hn. cbv beta zeta in Hn.
    congruence.
Qed.

(** ** [identify_platform] *)

Lemma matches_at_fold (lit m rest : list N) :
  map ignorecase_fold m = map ignorecase_fold lit ->
  matches_at lit (m ++ rest) = true.
Proof.
  revert m. induction lit as [|c lit IH]; intros m H; [reflexivity|].
  destruct m as [|x m]; [discriminate H|].
  cbn [map] in H. injection H as Hx Hm.
  cbn [app matches_at]. rewrite IH by assumption.
  unfold literal_matches. rewrite Hx, N.eqb_refl. reflexivity.
Qed.

Lemma search_literal_here (lit s : list N) :
  matches_at lit s = true -> search_literal lit s = true.
Proof. intros H. destruct s; cbn [search_literal]; now rewrite H. Qed.

Lemma search_literal_app (lit left s : list N) :
  search_literal lit s = true -> search_literal lit (left ++ s) = true.
Proof.
  intros H. induction left as [|x left IH]; [exact H|].
  cbn [app search_literal]. rewrite IH. apply orb_true_r.
Qed.

Lemma re_search_found (alternatives : list string) (lit url : string)
    (left m right : list N) :
  In lit alternatives ->
  code_points url = left ++ m ++ right ->
  map ignorecase_fold m = map ignorecase_fold (code_points lit) ->
  re_search alternatives url = true.
Proof.
  intros Hin Hurl Hm. unfold re_search. apply existsb_exists.
  exists lit. split; [assumption|]. rewrite Hurl.
  apply search_literal_app, search_literal_here. now apply matches_at_fold.
Qed.

Lemma find_in_prefix {A} (f : A -> bool) (earlier later : list A) (x : A) :
  f x = true ->
  exists y, find f (earlier ++ x :: later) = Some y
            /\ In y (earlier ++ [x])
            /\ ((forall e, In e earlier -> f e = false) -> y = x).
Proof.
  intros Hx. induction earlier as [|a earlier IH]; cbn [app find].
  - rewrite Hx. exists x. cbn. auto.
  - destruct (f a) eqn:Ea.
    + exists a. split; [reflexivity|]. split; [now left|].
      intros H. specialize (H a (or_introl eq_refl)). congruence.
    + destruct IH as (y & Hf & Hin & Hy). exists y.
      split; [assumption|]. split; [now right|].
      intros H. apply Hy. intros e He. apply H. now right.
Qed.

(** X12. [identify_platform] looks for the domains anywhere in the URL
    and in any letter case: when the code points of the URL hold, at any
    place, a spelling of a domain of the table, the result is the platform
    of that domain or one listed before it, and it is that platform when
    no pattern listed before it is found. *)
Theorem identify_platform_domain_anywhere (url platform lit : string)
    (alternatives : list string) (earlier later : list (string * list string))
    (left m right : list N) :
  durga.domain_patterns = earlier ++ (platform, alternatives) :: later ->
  In lit alternatives ->
  code_points url = left ++ m ++ right ->
  map ignorecase_fold m = map ignorecase_fold (code_points lit) ->
  In (durga.identify_platform url) (map fst earlier ++ [platform])
  /\ ((forall entry, In entry earlier -> re_search (snd entry) url = false) ->
      durga.identify_platform url = platform).
Proof.
  intros Htable Hin Hurl Hm.
  pose proof (re_search_found alternatives lit url left m right Hin Hurl Hm) as Hs.
  unfold durga.identify_platform. rewrite Htable.
  destruct (find_in_prefix (fun entry => re_search (snd entry) url)
              earlier later (platform, alternatives) Hs)
    as (y & -> & Hy & Hfirst).
  split.
  - destruct y as [p a]. apply in_app_or in Hy as [Hy|[[= <- <-]|[]]].
    + apply in_or_app. left. now apply (in_map fst) in Hy.
    + apply in_or_app. right. now left.
  - intros Hnone. now rewrite (Hfirst Hnone).
Qed.

(** ** The AI menu *)





Section Stream.

Variable be : backend.








End Stream.

(** ** The new properties on concrete inputs *)

Module MoreSamples.

(** The answers of a user who knows the password. *)
Definition answers_with_password (password : string) : durga.open_answers :=
  durga.mkOpenAnswers (mkInput password true) false (mkInput "" false)
    (mkInput "" false).

(** A fresh editor window. *)
Definition fresh_editor : editor := mkEditor "" None JNull.

(** The code points of a string of ASCII characters. *)
Definition ascii_points (s : string) : list N := map Byte.to_N (encode s).

(** A header that names a recovery key of somebody's choice. *)
Definition foreign_header : bytes :=
  json_dumps_bytes (JDict [("recovery_key"%string, JStr "chosen-by-somebody")]).

End MoreSamples.

Lemma editor_holds_credentials_witness :
  "correct-horse"%string <> ""%string
  /\ (exists box,
        durga.set_password (mkEditor "hello world" None JNull)
          (mkInput "correct-horse" true) Sample.w0
        = (Ok (show box, mkEditor "hello world" (Some "correct-horse"%string)
                                  (JStr (hexlify (draw 16 Sample.w0)))),
           advance 16 Sample.w0)).
Proof.
  assert (H : "correct-horse"%string <> ""%string) by discriminate.
  split; [exact H|].
  exact (proj1 (proj2 (proj2 (editor_holds_credentials Toy.toy_backend
                                toy_sha_length
                                (mkEditor "hello world" None JNull)
                                "correct-horse"%string Sample.w0 H)))).
Defined.

Lemma durga_save_then_open_witness :
  current_password (Sample.editor_with_password "hello world")
  = Some "correct-horse"%string
  /\ forallb json_plain (encode "000102030405060708090a0b0c0d0e0f") = true
  /\ utf8_valid (encode "hello world") = true
  /\ decimal_repr (encode (clock Sample.w0)) = true
  /\ (N.of_nat (length (durga_header (Sample.editor_with_password "hello world")
                          Sample.w0)) < 4294967296)%N
  /\ exists content,
       durga.save_encrypted_file Toy.toy_backend
         (Sample.editor_with_password "hello world") true Sample.w0
       = (Ok (mkEffects [encryption_successful] (Some content)),
          advance 16 (advance 16 Sample.w0))
       /\ durga.open_encrypted_file Toy.toy_backend MoreSamples.fresh_editor
            (Some content) (MoreSamples.answers_with_password "correct-horse")
            Sample.w0
          = (Ok (show decryption_successful,
                 mkEditor (setText Toy.toy_backend "hello world")
                   (Some "correct-horse"%string)
                   (recovery_key (Sample.editor_with_password "hello world"))),
             Sample.w0).
Proof.
  assert (H2 : "correct-horse"%string <> ""%string) by discriminate.
  assert (H7 : (N.of_nat (length (durga_header
                                    (Sample.editor_with_password "hello world")
                                    Sample.w0)) < 4294967296)%N)
    by (vm_compute; reflexivity).
  split; [reflexivity|]. split; [reflexivity|]. split; [reflexivity|].
  split; [reflexivity|]. split; [exact H7|].
  exact (durga_save_then_open Toy.toy_backend toy_sha_length
           (Sample.editor_with_password "hello world")
           MoreSamples.fresh_editor "correct-horse"
           (encode "000102030405060708090a0b0c0d0e0f")
           (MoreSamples.answers_with_password "correct-horse")
           Sample.w0 Sample.w0 eq_refl H2 eq_refl eq_refl eq_refl eq_refl H7 eq_refl).
Defined.

Lemma AI_save_then_open_witness :
  utf8_valid (encode "hello world") = true
  /\ exists content,
       AI.save_encrypted_file Toy.toy_backend
         (Sample.editor_with_password "hello world") true Sample.w0
       = (Ok (mkEffects [] (Some content)), advance 16 (advance 16 Sample.w0))
       /\ AI.open_encrypted_file Toy.toy_backend MoreSamples.fresh_editor
            (Some content) (mkInput "correct-horse" true) Sample.w0
          = (Ok (nothing,
                 mkEditor (setText Toy.toy_backend "hello world")
                   (Some "correct-horse"%string)
                   (recovery_key MoreSamples.fresh_editor)),
             Sample.w0).
Proof.
  split; [reflexivity|].
  exact (AI_save_then_open Toy.toy_backend toy_sha_length
           (Sample.editor_with_password "hello world") MoreSamples.fresh_editor
           "correct-horse" Sample.w0 Sample.w0 eq_refl
           ltac:(discriminate) eq_refl).
Defined.

Lemma passward_encrypt_then_decrypt_witness :
  exists box content,
    passward.encrypt_file Toy.toy_backend (Some (encode "hello world"))
      (mkInput "correct-horse" true) true Sample.w0
    = (Ok (mkEffects [box] (Some content)),
       advance 16 (advance 16 (advance 16 (advance 16 Sample.w0))))
    /\ passward.decrypt_file Toy.toy_backend (Some content)
         (passward.mkDecryptAnswers passward.Password true
            (mkInput "correct-horse" true) true) Sample.w0
       = (Ok (mkEffects [decrypted_successfully] (Some (encode "hello world"))),
          Sample.w0).
Proof.
  exact (passward_encrypt_then_decrypt Toy.toy_backend toy_sha_length
           toy_encrypt_length toy_decrypt_encrypt (encode "hello world")
           "correct-horse" Sample.w0 Sample.w0 ltac:(discriminate)).
Defined.

Lemma wrapped_key_unwraps_witness :
  exists s w',
    passward.seal Toy.toy_backend (encode "hello world") "correct-horse" Sample.w0
    = (Ok s, w')
    /\ forall w2,
         passward.generate_key Toy.toy_backend (passward.recovery_key s)
           (passward.recovery_salt s) w2
         = (Ok (passward.recovery_key_bytes s), w2)
         /\ passward.decrypt_data Toy.toy_backend (passward.encrypted_key s)
              (passward.recovery_key_bytes s) (passward.iv s) w2
            = (Ok (passward.key s), w2)
         /\ passward.decrypt_data Toy.toy_backend (passward.encrypted s)
              (passward.key s) (passward.iv s) w2
            = (Ok (encode "hello world"), w2).
Proof.
  exact (wrapped_key_unwraps Toy.toy_backend toy_sha_length toy_encrypt_length
           toy_decrypt_encrypt (encode "hello world") "correct-horse" Sample.w0).
Defined.

Lemma passward_decrypt_shape_witness :
  passward.decrypt_with_password Toy.toy_backend
    (passward.salt (sealed_in Toy.toy_backend (encode "hello world")
                      "correct-horse" Sample.w0))
    (passward.iv (sealed_in Toy.toy_backend (encode "hello world")
                    "correct-horse" Sample.w0))
    (passward.encrypted (sealed_in Toy.toy_backend (encode "hello world")
                           "correct-horse" Sample.w0))
    "correct-horse" Sample.w0
  = (Ok (encode "hello world"), Sample.w0)
  /\ length (passward.encrypted (sealed_in Toy.toy_backend (encode "hello world")
                                   "correct-horse" Sample.w0)) mod 16 = 0
  /\ length (encode "hello world")
     < length (passward.encrypted (sealed_in Toy.toy_backend (encode "hello world")
                                     "correct-horse" Sample.w0)).
Proof.
  pose proof (passward_decrypt_sealed Toy.toy_backend toy_sha_length
                toy_encrypt_length toy_decrypt_encrypt (encode "hello world")
                "correct-horse" Sample.w0 Sample.w0) as H.
  cbv zeta in H.
  pose proof (passward_decrypt_shape Toy.toy_backend toy_sha_length
                toy_decrypt_length _ _ _ _ _ _ _ H) as (_ & _ & Hm & _ & _ & Hl).
  split; [exact H|]. split; [exact Hm|exact Hl].
Defined.

Lemma cfb_short_container_witness :
  length (encode "too short to hold a salt") < 32
  /\ durga.decrypt_data Toy.toy_backend (encode "too short to hold a salt")
       "correct-horse" Sample.w0
     = (Raise (ValueError InvalidIVSize), Sample.w0)
  /\ AI.open_encrypted_file Toy.toy_backend MoreSamples.fresh_editor
       (Some (encode "too short to hold a salt")) (mkInput "correct-horse" true)
       Sample.w0
     = (Ok (show (Critical "Error" "Failed to decrypt. Invalid password?"),
            MoreSamples.fresh_editor), Sample.w0).
Proof.
  assert (H : length (encode "too short to hold a salt") < 32) by (cbn; lia).
  pose proof (cfb_short_container Toy.toy_backend toy_sha_length
                MoreSamples.fresh_editor (encode "too short to hold a salt")
                "correct-horse" Sample.w0 H) as (H1 & _ & _ & H4).
  split; [exact H|]. split; [exact H1|]. apply H4. discriminate.
Defined.

Lemma ciphertext_sizes_witness :
  (exists container w',
     durga.encrypt_data Toy.toy_backend (encode "hello world") "correct-horse"
       Sample.w0 = (Ok container, w')
     /\ length container = 32 + length (encode "hello world"))
  /\ (exists s w',
        passward.seal Toy.toy_backend (encode "hello world") "correct-horse"
          Sample.w0 = (Ok s, w')
        /\ length (passward.encrypted s) = 16
        /\ length (passward.encrypted_key s) = 48).
Proof.
  destruct (ciphertext_sizes Toy.toy_backend toy_sha_length toy_encrypt_length
              (encode "hello world") "correct-horse" Sample.w0)
    as [(container & w' & H1 & _ & _ & H2 & _)
        (s & w'' & H3 & _ & _ & _ & _ & H4 & _ & _ & H5)].
  split.
  - exists container, w'. auto.
  - exists s, w''. auto.
Defined.

Lemma recovery_key_formats_witness :
  exists key,
    durga.set_password MoreSamples.fresh_editor (mkInput "correct-horse" true)
      Sample.w0
    = (Ok (show (durga_recovery_key_box key),
           mkEditor "" (Some "correct-horse"%string) (JStr key)),
       advance 16 Sample.w0)
    /\ length (encode key) = 32
    /\ forallb is_lower_hex (encode key) = true.
Proof.
  exact (proj1 (recovery_key_formats MoreSamples.fresh_editor "correct-horse"
                  Sample.w0 ltac:(discriminate))).
Defined.

Lemma identify_platform_domain_anywhere_witness :
  code_points "https://www.DropboX.COM/s/clip.mp4"
  = MoreSamples.ascii_points "https://www.Dropbo"
      ++ MoreSamples.ascii_points "X.COM" ++ MoreSamples.ascii_points "/s/clip.mp4"
  /\ map ignorecase_fold (MoreSamples.ascii_points "X.COM")
     = map ignorecase_fold (code_points "x.com")
  /\ durga.identify_platform "https://www.DropboX.COM/s/clip.mp4" = "twitter"%string.
Proof.
  assert (H3 : code_points "https://www.DropboX.COM/s/clip.mp4"
               = MoreSamples.ascii_points "https://www.Dropbo"
                   ++ MoreSamples.ascii_points "X.COM"
                   ++ MoreSamples.ascii_points "/s/clip.mp4") by reflexivity.
  assert (H4 : map ignorecase_fold (MoreSamples.ascii_points "X.COM")
               = map ignorecase_fold (code_points "x.com")) by reflexivity.
  split; [exact H3|]. split; [exact H4|].
  apply (identify_platform_domain_anywhere
           "https://www.DropboX.COM/s/clip.mp4" "twitter" "x.com"
           ["twitter.com"; "x.com"]%string
           (firstn 3 durga.domain_patterns) (skipn 4 durga.domain_patterns)
           _ _ _ eq_refl (or_intror (or_introl eq_refl)) H3 H4).
  intros entry Hin.
  destruct Hin as [<-|[<-|[<-|[]]]]; reflexivity.
Defined.

Lemma durga_header_takes_no_part_witness :
  utf8_valid (encode "hello world") = true
  /\ decode MoreSamples.foreign_header
     = Ok (string_of_list_byte MoreSamples.foreign_header)
  /\ json_loads Toy.toy_backend (string_of_list_byte MoreSamples.foreign_header)
     = Ok (JDict [("recovery_key"%string, JStr "chosen-by-somebody")])
  /\ exists container w',
       durga.encrypt_data Toy.toy_backend (encode "hello world") "correct-horse"
         Sample.w0 = (Ok container, w')
       /\ durga.open_encrypted_file Toy.toy_backend MoreSamples.fresh_editor
            (Some ([x00; x00; x00; x26] ++ MoreSamples.foreign_header ++ container))
            (MoreSamples.answers_with_password "correct-horse") Sample.w0
          = (Ok (show decryption_successful,
                 mkEditor (setText Toy.toy_backend "hello world")
                   (Some "correct-horse"%string)
                   (JStr "chosen-by-somebody")), Sample.w0).
Proof.
  assert (Hd : decode MoreSamples.foreign_header
               = Ok (string_of_list_byte MoreSamples.foreign_header))
    by reflexivity.
  assert (Hl : json_loads Toy.toy_backend
                 (string_of_list_byte MoreSamples.foreign_header)
               = Ok (JDict [("recovery_key"%string, JStr "chosen-by-somebody")]))
    by (vm_compute; reflexivity).
  split; [reflexivity|]. split; [exact Hd|]. split; [exact Hl|].
  destruct (durga_header_takes_no_part Toy.toy_backend toy_sha_length
              "hello world" "correct-horse" Sample.w0 ltac:(discriminate) eq_refl)
    as (container & w' & He & Hopen).
  exists container, w'. split; [exact He|].
  exact (Hopen MoreSamples.fresh_editor [x00; x00; x00; x26]
           MoreSamples.foreign_header _ _
           (MoreSamples.answers_with_password "correct-horse") Sample.w0
           eq_refl eq_refl Hd Hl eq_refl).
Defined.
